(** * Hierarchical content synchronization in roam_mcp/content.py

    A shallow embedding of the entry points of [src/roam_mcp/content.py]
    ([create_page], [create_block], [create_outline], [import_markdown],
    [add_todos], [update_content], [update_multiple_contents],
    [create_nested_blocks]) together with the properties of the
    level-by-level batch driver that four of them share.

    Python values supplied by the caller are modelled by [pyobj]; the
    functions imported from [roam_mcp.api] and [roam_mcp.utils] are taken as
    an interface ([Api]) over an abstract store state; every call through
    that interface is recorded, with its outcome, in a trace of [event]s. *)

From stdpp Require Import gmap strings list sorting pretty.
From Stdlib Require Import ZArith QArith.

Local Open Scope string_scope.
Local Open Scope list_scope.
Local Open Scope Z_scope.

(** ** Python values *)

(** The values a caller can put in the JSON-like arguments.  A dict is
    restricted to the four keys the code ever reads from an item
    (["text"], ["level"], ["heading_level"], ["children"]); [None] in a
    field means that the key is absent. *)
#[local] Unset Elimination Schemes.
Inductive pyobj : Type :=
| PNone
| PBool (b : bool)
| PInt (z : Z)
| PFloat (q : Q)
| PStr (s : string)
| PList (l : list pyobj)
| PDict (text level heading_level children : option pyobj).
#[local] Set Elimination Schemes.

(** A raised exception: its class name and [str(e)]. *)
Record exn : Type := Exception { exn_class : string; exn_str : string }.

Definition type_name (v : pyobj) : string :=
  match v with
  | PNone => "NoneType"
  | PBool _ => "bool"
  | PInt _ => "int"
  | PFloat _ => "float"
  | PStr _ => "str"
  | PList _ => "list"
  | PDict _ _ _ _ => "dict"
  end.

Definition AttributeError (v : pyobj) (attr : string) : exn :=
  Exception "AttributeError"
    ("'" +:+ type_name v +:+ "' object has no attribute '" +:+ attr +:+ "'").

Definition TypeError (msg : string) : exn := Exception "TypeError" msg.

(** Truth value testing ([if x:], [not x], [x and y]). *)
Definition truthy (v : pyobj) : bool :=
  match v with
  | PNone => false
  | PBool b => b
  | PInt z => negb (z =? 0)
  | PFloat q => negb (Qeq_bool q 0)
  | PStr s => negb (String.eqb s "")
  | PList l => match l with [] => false | _ => true end
  | PDict None None None None => false
  | PDict _ _ _ _ => true
  end.

(** [isinstance(v, int)], with the integer it denotes; [bool] is a
    subclass of [int] in Python. *)
Definition as_int (v : pyobj) : option Z :=
  match v with
  | PInt z => Some z
  | PBool b => Some (if b then 1 else 0)
  | _ => None
  end.

Definition isinstance_str (v : pyobj) : bool :=
  match v with PStr _ => true | _ => false end.

(** The keys of an item. *)
Inductive key : Type := Ktext | Klevel | Kheading_level | Kchildren.

Definition key_name (k : key) : string :=
  match k with
  | Ktext => "text" | Klevel => "level"
  | Kheading_level => "heading_level" | Kchildren => "children"
  end.

(** [item.get(k)] / [item.get(k, default)]: the stored value if the key is
    present; [AttributeError] when [item] is not a dict. *)
Definition dict_lookup (item : pyobj) (k : key) : exn + option pyobj :=
  match item with
  | PDict t l h c =>
      inr (match k with
           | Ktext => t | Klevel => l | Kheading_level => h | Kchildren => c
           end)
  | _ => inl (AttributeError item "get")
  end.

Definition dict_get (item : pyobj) (k : key) (dflt : pyobj) : exn + pyobj :=
  match dict_lookup item k with
  | inl e => inl e
  | inr o => inr (default dflt o)
  end.

(** The condition [heading_level and heading_level > 0 and heading_level <= 3]
    guarding [action["block"]["heading"] = heading_level]: the heading to
    store if the condition holds, nothing if it does not, and a [TypeError]
    when a truthy value cannot be compared with an integer. *)
Definition heading_of (heading_level : pyobj) : exn + option pyobj :=
  if negb (truthy heading_level) then inr None
  else match heading_level with
       | PInt z =>
           inr (if (0 <? z) && (z <=? 3) then Some heading_level else None)
       | PBool _ => inr (Some heading_level)
       | PFloat q =>
           inr (if negb (Qle_bool q 0) && Qle_bool q 3
                then Some heading_level else None)
       | _ => inl (TypeError ("'>' not supported between instances of '"
                              +:+ type_name heading_level +:+ "' and 'int'"))
       end.

(** ** Requests, responses and the trace *)

(** A ["create-block"] action. *)
Record action : Type := Action {
  a_parent_uid : string;            (* location.parent-uid *)
  a_order : string;                 (* location.order *)
  a_string : pyobj;                 (* block.string *)
  a_uid : string;                   (* block.uid *)
  a_heading : option pyobj          (* block.heading, when set *)
}.

(** [execute_write_action] is called with a list of actions (one batch per
    level) or with a single action dict. *)
Inductive write_arg : Type :=
| Batch (actions : list action)
| Single (a : action).

(** The dict [execute_write_action] returns, as far as the callers read it:
    the ["created_uids"] key if present, the truth value of
    [result.get("success", False)] and the ["error"] key. *)
Record write_result : Type := WriteResult {
  wr_created_uids : option (list string);
  wr_success : bool;
  wr_error : option string
}.

(** One call through the interface, with what it returned or raised. *)
Inductive event : Type :=
| EvSession (o : exn + unit)
| EvFindOrCreatePage (title : string) (o : exn + string)
| EvGetDailyPage (o : exn + string)
| EvFindPageByTitle (title : string) (o : exn + option string)
| EvQuery (query : string) (o : exn + bool)
| EvFindBlockUid (text : string) (o : exn + option string)
| EvWrite (arg : write_arg) (o : exn + write_result)
| EvSleep (milliseconds : Z)
| EvLog (level msg : string).

(** The values of a result dict returned to the caller. *)
Inductive rval : Type :=
| RNone
| RBool (b : bool)
| RStr (s : string)
| RUids (l : list string).

(** The collaborators imported from [roam_mcp.api] and [roam_mcp.utils],
    over the state [world] of the remote graph and of the random source
    behind [uuid.uuid4]. *)
Record Api (world : Type) : Type := MkApi {
  GRAPH_NAME : string;
  get_session_and_headers : world -> (exn + unit) * world;
  find_or_create_page : string -> world -> (exn + string) * world;
  get_daily_page : world -> (exn + string) * world;
  find_page_by_title : string -> world -> (exn + option string) * world;
  execute_query : string -> world -> (exn + bool) * world;
  find_block_uid : string -> world -> (exn + option string) * world;
  execute_write_action : write_arg -> world -> (exn + write_result) * world;
  uuid4_9 : world -> string * world;       (* str(uuid.uuid4())[:9] *)
  convert_to_roam_markdown : string -> string;
  parse_markdown_list : string -> list pyobj
}.

Arguments GRAPH_NAME {world} _.
Arguments get_session_and_headers {world} _ _.
Arguments find_or_create_page {world} _ _ _.
Arguments get_daily_page {world} _ _.
Arguments find_page_by_title {world} _ _ _.
Arguments execute_query {world} _ _ _.
Arguments find_block_uid {world} _ _ _.
Arguments execute_write_action {world} _ _ _.
Arguments uuid4_9 {world} _ _.
Arguments convert_to_roam_markdown {world} _ _.
Arguments parse_markdown_list {world} _ _.

(** ** Computations: store state, exceptions and the emitted trace *)

Section Monad.
Context {world : Type}.

(** A computation runs from a store state and yields a value or a raised
    exception, the new store state and the events it emitted. *)
Definition M (A : Type) : Type := world -> (exn + A) * world * list event.

Definition ret {A} (a : A) : M A := fun w => (inr a, w, []).

Definition raise {A} (e : exn) : M A := fun w => (inl e, w, []).

Definition bind {A B} (m : M A) (k : A -> M B) : M B :=
  fun w =>
    match m w with
    | (inl e, w1, t1) => (inl e, w1, t1)
    | (inr a, w1, t1) =>
        match k a w1 with
        | (o, w2, t2) => (o, w2, t1 ++ t2)
        end
    end.

(** [try: m except Exception as e: h e]. *)
Definition try_except {A} (m : M A) (h : exn -> M A) : M A :=
  fun w =>
    match m w with
    | (inl e, w1, t1) =>
        match h e w1 with
        | (o, w2, t2) => (o, w2, t1 ++ t2)
        end
    | r => r
    end.

(** A value or exception computed without touching the store. *)
Definition lift {A} (x : exn + A) : M A :=
  match x with inl e => raise e | inr a => ret a end.

(** A call through the interface, recorded in the trace. *)
Definition call {A} (f : world -> (exn + A) * world)
    (ev : exn + A -> event) : M A :=
  fun w => match f w with (o, w1) => (o, w1, [ev o]) end.

Definition emit (ev : event) : M unit := fun w => (inr tt, w, [ev]).
End Monad.

Arguments M : clear implicits.

Notation "x <- c1 ;; c2" := (bind c1 (fun x => c2))
  (at level 100, c1 at next level, right associativity).
Notation "c1 ;;; c2" := (bind c1 (fun _ => c2))
  (at level 100, right associativity).

(** ** Iterating over caller-supplied values *)

Definition not_iterable (v : pyobj) : exn :=
  TypeError ("'" +:+ type_name v +:+ "' object is not iterable").

(** The one-character strings a [for] loop over a string yields. *)
Fixpoint chars (s : string) : list pyobj :=
  match s with
  | EmptyString => []
  | String c r => PStr (String c EmptyString) :: chars r
  end.

(** The keys a [for] loop over a dict yields. *)
Definition key_if_present (o : option pyobj) (k : key) : list pyobj :=
  match o with Some _ => [PStr (key_name k)] | None => [] end.

Definition dict_keys (t l h c : option pyobj) : list pyobj :=
  key_if_present t Ktext ++ key_if_present l Klevel
  ++ key_if_present h Kheading_level ++ key_if_present c Kchildren.

(** [for item in v]: the items in order, or the [TypeError] of a value
    that is not iterable. *)
Definition iter_items (v : pyobj) : exn + list pyobj :=
  match v with
  | PList l => inr l
  | PStr s => inr (chars s)
  | PDict t l h c => inr (dict_keys t l h c)
  | _ => inl (not_iterable v)
  end.

(** What a loop [for item in v: item.get(...) ...] raises when [v] is truthy
    but not a list: a string or dict yields strings, which have no [get];
    anything else cannot be iterated. *)
Definition iter_error (v : pyobj) : exn :=
  match iter_items v with
  | inl e => e
  | inr (x :: _) => AttributeError x "get"
  | inr [] => not_iterable v
  end.

(** ** create_page: validation and flattening *)

(** The inner function [validate_item] of [create_page]: [inr None] when the
    item is accepted, [inr (Some msg)] when it is rejected with [msg], and
    the exception of [item.get] on something that is not a dict.  An absent
    ["children"] key defaults to the empty list, over which the loop does
    nothing. *)
Fixpoint validate_item (item : pyobj) (parent_level : Z) {struct item}
  : exn + option string :=
  match item with
  | PDict text level _ children =>
      if negb (isinstance_str (default PNone text))
      then inr (Some "Each item must have 'text' as a string")
      else
        match as_int (default (PInt (parent_level + 1)) level) with
        | None => inr (Some "'level' must be an integer")
        | Some level =>
            if level <? 0 then inr (Some "'level' must be non-negative")
            else
              match children with
              | None => inr None
              | Some (PList children) =>
                  (fix each_child (children : list pyobj) :=
                     match children with
                     | [] => inr None
                     | child :: rest =>
                         match validate_item child level with
                         | inl e => inl e
                         | inr (Some error) => inr (Some error)
                         | inr None => each_child rest
                         end
                     end) children
              | Some _ => inr (Some "'children' must be a list")
              end
        end
  | _ => inl (AttributeError item "get")
  end.

(** [for child in children: error = validate_item(child, level); if error:
    return error] and the same loop over the top-level content. *)
Fixpoint validate_items (items : list pyobj) (parent_level : Z)
  : exn + option string :=
  match items with
  | [] => inr None
  | item :: rest =>
      match validate_item item parent_level with
      | inl e => inl e
      | inr (Some error) => inr (Some error)
      | inr None => validate_items rest parent_level
      end
  end.

(** An entry of [flattened_content] (and an item of a level bucket): the
    values of ["text"], ["level"] and ["heading_level"]. *)
Record flat : Type := Flat {
  f_text : pyobj;
  f_level : Z;
  f_heading_level : pyobj
}.

(** Levels are integers: [validate_item] has rejected anything else before
    [flatten_content] runs, and the docstrings of the other entry points
    promise it.  Where a level that is not an integer would reach the level
    arithmetic ([level - 1], [parent_level + 1]), the model raises this
    [TypeError], as Python does for [None], strings, lists and dicts.  A
    float level, which Python would carry through the arithmetic, is
    outside the model and treated the same way. *)
Definition level_type_error (v : pyobj) : exn :=
  TypeError ("unsupported operand type(s) for level: '" +:+ type_name v +:+ "'").

(** The inner function [flatten_content] of [create_page], run on one item:
    the list [flattened_content] of the enclosing scope, to which it
    appends, is passed in and returned. *)
Fixpoint flatten_item (item : pyobj) (parent_level : Z)
    (flattened_content : list flat) {struct item} : exn + list flat :=
  match item with
  | PDict text level heading_level children =>
      let level_v := default (PInt (parent_level + 1)) level in
      match as_int level_v with
      | None => inl (level_type_error level_v)
      | Some level =>
          let flattened_content :=
            flattened_content ++
              [Flat (default (PStr "") text) level
                    (default (PInt 0) heading_level)] in
          match children with
          | None => inr flattened_content
          | Some (PList children) =>
              (fix each_child (children : list pyobj) (acc : list flat) :=
                 match children with
                 | [] => inr acc
                 | child :: rest =>
                     match flatten_item child level acc with
                     | inl e => inl e
                     | inr acc => each_child rest acc
                     end
                 end) children flattened_content
          | Some other =>
              if truthy other then inl (iter_error other)
              else inr flattened_content
          end
      end
  | _ => inl (AttributeError item "get")
  end.

(** [flatten_content(items, parent_level)]: the loop over [items]. *)
Fixpoint flatten_content (items : list pyobj) (parent_level : Z)
    (flattened_content : list flat) : exn + list flat :=
  match items with
  | [] => inr flattened_content
  | item :: rest =>
      match flatten_item item parent_level flattened_content with
      | inl e => inl e
      | inr acc => flatten_content rest parent_level acc
      end
  end.

(** ** Sorting and grouping by level *)

(** [list.sort(key=level)] is stable: an element is placed before the first
    one with a level that is not smaller. *)
Fixpoint insert_by_level (x : flat) (l : list flat) : list flat :=
  match l with
  | [] => [x]
  | y :: rest =>
      if f_level x <=? f_level y then x :: l
      else y :: insert_by_level x rest
  end.

Fixpoint sort_by_level (l : list flat) : list flat :=
  match l with
  | [] => []
  | x :: rest => insert_by_level x (sort_by_level rest)
  end.

(** [if level not in level_items: level_items[level] = []] followed by
    [level_items[level].append(item)]. *)
Definition add_to_level (level_items : gmap Z (list flat)) (item : flat)
  : gmap Z (list flat) :=
  let level := f_level item in
  <[level := default [] (level_items !! level) ++ [item]]> level_items.

Definition group_by_level (items : list flat) : gmap Z (list flat) :=
  foldl add_to_level ∅ items.

(** [sorted(level_items.keys())]. *)
Definition sorted_keys (level_items : gmap Z (list flat)) : list Z :=
  merge_sort Z.le (elements (dom level_items)).

(** ** The level-by-level batch driver *)

(** The four entry points that create an outline one batch per level. *)
Inductive entry : Type := CreatePage | CreateBlock | CreateOutline | ImportMarkdown.

(** Results returned to the caller are dicts. *)
Definition failure (error : string) : gmap string rval :=
  <["success" := RBool false]> (<["error" := RStr error]> ∅).

(** The handler shared by every [except ... as e] clause. *)
Definition except_failure {world} (e : exn) : M world (gmap string rval) :=
  ret (failure (exn_str e)).

Section Driver.
Context {world : Type}.
Variable api : Api world.

Definition uuid : M world string :=
  fun w => match uuid4_9 api w with (u, w1) => (inr u, w1, []) end.

Definition sleep (milliseconds : Z) : M world unit := emit (EvSleep milliseconds).

Definition write (arg : write_arg) : M world write_result :=
  call (execute_write_action api arg) (EvWrite arg).

(** "Find parent from previous level".  [create_page], [create_block] and
    [import_markdown] clamp [level - 1] at [-1] and read the table with the
    root as default; [create_outline] takes the root below level 1 and
    otherwise the table entry if the parent level has items and an entry. *)
Definition parent_for (e : entry) (level_items : gmap Z (list flat))
    (level_parent_map : gmap Z string) (root : string) (level : Z) : string :=
  match e with
  | CreateOutline =>
      let parent_level := level - 1 in
      if parent_level <? 0 then root
      else
        let parent_index :=
          Z.of_nat (length (default [] (level_items !! parent_level))) - 1 in
        match level_parent_map !! parent_level with
        | Some parent => if 0 <=? parent_index then parent else root
        | None => root
        end
  | _ =>
      let parent_level := level - 1 in
      let parent_level := if parent_level <? -1 then -1 else parent_level in
      default root (level_parent_map !! parent_level)
  end.

(** ["order": order if level == 0 else "last"] in [import_markdown],
    ["order": "last"] elsewhere. *)
Definition order_for (e : entry) (order : string) (level : Z) : string :=
  match e with
  | ImportMarkdown => if level =? 0 then order else "last"
  | _ => "last"
  end.

(** [create_outline] never sets a heading. *)
Definition heading_for (e : entry) (heading_level : pyobj) : exn + option pyobj :=
  match e with
  | CreateOutline => inr None
  | _ => heading_of heading_level
  end.

(** [import_markdown] writes the table inside the item loop, guarded by
    [if level in level_parent_map]. *)
Definition store_temporary_parent (e : entry) (level_parent_map : gmap Z string)
    (level : Z) (block_uid : string) : gmap Z string :=
  match e with
  | ImportMarkdown =>
      match level_parent_map !! level with
      | Some _ => <[level := block_uid]> level_parent_map
      | None => level_parent_map
      end
  | _ => level_parent_map
  end.

(** The loop [for item in level_items[level]] building the batch: it
    returns the actions, the generated uids and the table. *)
Fixpoint build_level (e : entry) (order : string)
    (level_items : gmap Z (list flat)) (root : string) (level : Z)
    (items : list flat) (level_parent_map : gmap Z string)
    (batch_actions : list action) (level_uids : list string)
  : M world (list action * list string * gmap Z string) :=
  match items with
  | [] => ret (batch_actions, level_uids, level_parent_map)
  | item :: rest =>
      let parent_uid := parent_for e level_items level_parent_map root level in
      block_uid <- uuid ;;
      heading <- lift (heading_for e (f_heading_level item)) ;;
      let action :=
        Action parent_uid (order_for e order level) (f_text item)
               block_uid heading in
      build_level e order level_items root level rest
        (store_temporary_parent e level_parent_map level block_uid)
        (batch_actions ++ [action]) (level_uids ++ [block_uid])
  end.

(** What a batch response adds to [created_uids]. *)
Definition extend_created (created_uids : list string) (result : write_result)
    (level_uids : list string) : list string :=
  match wr_created_uids result with
  | Some uids => created_uids ++ uids
  | None =>
      if wr_success result then created_uids ++ level_uids
      else created_uids
  end.

(** "Store last UID at this level as parent for next level"; absent from
    [import_markdown]. *)
Definition store_level_parent (e : entry) (level_parent_map : gmap Z string)
    (level : Z) (level_uids : list string) : gmap Z string :=
  match e with
  | ImportMarkdown => level_parent_map
  | _ =>
      match last level_uids with
      | Some u => <[level := u]> level_parent_map
      | None => level_parent_map
      end
  end.

(** One iteration of [for level in sorted(level_items.keys())]. *)
Definition process_level (e : entry) (order : string)
    (level_items : gmap Z (list flat)) (root : string)
    (state : list string * gmap Z string) (level : Z)
  : M world (list string * gmap Z string) :=
  let '(created_uids, level_parent_map) := state in
  built <- build_level e order level_items root level
             (default [] (level_items !! level)) level_parent_map [] [] ;;
  let '(batch_actions, level_uids, level_parent_map) := built in
  match batch_actions with
  | [] => ret (created_uids, level_parent_map)
  | _ =>
      result <- write (Batch batch_actions) ;;
      let created_uids := extend_created created_uids result level_uids in
      let level_parent_map :=
        store_level_parent e level_parent_map level level_uids in
      sleep 500 ;;;
      ret (created_uids, level_parent_map)
  end.

Fixpoint process_levels (e : entry) (order : string)
    (level_items : gmap Z (list flat)) (root : string)
    (levels : list Z) (state : list string * gmap Z string)
  : M world (list string * gmap Z string) :=
  match levels with
  | [] => ret state
  | level :: rest =>
      state <- process_level e order level_items root state level ;;
      process_levels e order level_items root rest state
  end.

(** Grouping, the initial table [{-1: root}] and the loop over the sorted
    levels; the value is [created_uids]. *)
Definition synchronize (e : entry) (order : string) (root : string)
    (items : list flat) : M world (list string) :=
  let level_items := group_by_level items in
  state <- process_levels e order level_items root (sorted_keys level_items)
             ([], {[ -1 := root ]}) ;;
  ret (fst state).
End Driver.

(** ** Helpers of the entry points *)

Definition newline : string := String (Ascii.ascii_of_nat 10) EmptyString.
Definition dquote : string := String (Ascii.ascii_of_nat 34) EmptyString.

Fixpoint spaces (n : nat) : string :=
  match n with O => EmptyString | S k => String (Ascii.ascii_of_nat 32) (spaces k) end.

(** ["\n" in content]. *)
Fixpoint contains_newline (content : string) : bool :=
  match content with
  | EmptyString => false
  | String c rest => Ascii.eqb c (Ascii.ascii_of_nat 10) || contains_newline rest
  end.

(** A character of the class [[a-zA-Z0-9_-]]. *)
Definition uid_char (c : Ascii.ascii) : bool :=
  let n := Ascii.nat_of_ascii c in
  ((97 <=? n) && (n <=? 122) || (65 <=? n) && (n <=? 90)
   || (48 <=? n) && (n <=? 57) || (n =? 95) || (n =? 45))%nat.

Fixpoint all_uid_chars (s : string) : bool :=
  match s with
  | EmptyString => true
  | String c rest => uid_char c && all_uid_chars rest
  end.

(** [len(s) == 9 and re.match(r'^[a-zA-Z0-9_-]{9}$', s)]. *)
Definition looks_like_uid (s : string) : bool :=
  (String.length s =? 9)%nat && all_uid_chars s.

(** Truth value of an [Optional[str]] argument. *)
Definition given (o : option string) : option string :=
  match o with
  | Some s => if String.eqb s "" then None else Some s
  | None => None
  end.

Definition success_of (result : gmap string rval) : bool :=
  match result !! "success" with Some (RBool b) => b | _ => false end.

Definition created_uids_of (result : gmap string rval) : list string :=
  match result !! "created_uids" with Some (RUids l) => l | _ => [] end.

(** The items of a parsed markdown list as the level loops read them:
    [item.get("text", "")], [item.get("level", 0)],
    [item.get("heading_level", 0)]. *)
Definition to_flat (item : pyobj) : exn + flat :=
  match item with
  | PDict text level heading_level _ =>
      let level_v := default (PInt 0) level in
      match as_int level_v with
      | Some level =>
          inr (Flat (default (PStr "") text) level (default (PInt 0) heading_level))
      | None => inl (level_type_error level_v)
      end
  | _ => inl (AttributeError item "get")
  end.

(** The items of an outline as [create_outline] reads them: [item["text"]]
    and [item["level"]]. *)
Definition to_flat_outline (item : pyobj) : exn + flat :=
  match item with
  | PDict (Some text) (Some level_v) heading_level _ =>
      match as_int level_v with
      | Some level => inr (Flat text level (default (PInt 0) heading_level))
      | None => inl (level_type_error level_v)
      end
  | PDict None _ _ _ => inl (Exception "KeyError" "'text'")
  | PDict _ None _ _ => inl (Exception "KeyError" "'level'")
  | _ => inl (TypeError ("'" +:+ type_name item +:+ "' object is not subscriptable"))
  end.

Fixpoint map_exn {A B} (f : A -> exn + B) (l : list A) : exn + list B :=
  match l with
  | [] => inr []
  | x :: rest =>
      match f x with
      | inl e => inl e
      | inr y =>
          match map_exn f rest with
          | inl e => inl e
          | inr ys => inr (y :: ys)
          end
      end
  end.

(** The test of the list comprehension [invalid_items] of [create_outline]:
    [not item.get("text") or not isinstance(item.get("level"), int)]. *)
Definition invalid_outline_item (item : pyobj) : exn + bool :=
  match item with
  | PDict text level _ _ =>
      inr (negb (truthy (default PNone text))
           || negb (bool_decide (is_Some (as_int (default PNone level)))))
  | _ => inl (AttributeError item "get")
  end.

(** The exception classes with an [except] clause of their own. *)
Definition named_exception (e : exn) : bool :=
  bool_decide (exn_class e ∈
    ["ValidationError"; "PageNotFoundError"; "BlockNotFoundError"; "TransactionError"]).

(** ** The entry points *)

Section EntryPoints.
Context {world : Type}.
Variable api : Api world.

Definition session : M world unit :=
  call (get_session_and_headers api) EvSession.

Definition page_url (page_uid : string) : string :=
  "https://roamresearch.com/#/app/" +:+ GRAPH_NAME api +:+ "/page/" +:+ page_uid.

(** [create_page(title, content)].  Warnings and errors sent to the logger
    are recorded in the trace; debug messages are not. *)
Definition create_page (title : string) (content : pyobj)
  : M world (gmap string rval) :=
  if String.eqb title "" then ret (failure "Title is required")
  else
    session ;;;
    try_except
      (page_uid <- call (find_or_create_page api title) (EvFindOrCreatePage title) ;;
       if truthy content then
         items <- lift (iter_items content) ;;
         error <- lift (validate_items items (-1)) ;;
         match error with
         | Some error =>
             ret (failure ("Invalid content structure - " +:+ error))
         | None =>
             flattened_content <- lift (flatten_content items (-1) []) ;;
             let flattened_content := sort_by_level flattened_content in
             created_uids <- synchronize api CreatePage "last" page_uid
                               flattened_content ;;
             ret (<["success" := RBool true]>
                  (<["uid" := RStr page_uid]>
                   (<["created_uids" := RUids created_uids]>
                    (<["page_url" := RStr (page_url page_uid)]> ∅))))
         end
       else
         ret (<["success" := RBool true]>
              (<["uid" := RStr page_uid]>
               (<["page_url" := RStr (page_url page_uid)]> ∅))))
      except_failure.

(** "Determine target page" of [create_block] and [import_markdown]. *)
Definition target_page (page_uid page_title : option string) : M world string :=
  match given page_uid with
  | Some page_uid => ret page_uid
  | None =>
      match given page_title with
      | Some page_title =>
          call (find_or_create_page api page_title) (EvFindOrCreatePage page_title)
      | None => call (get_daily_page api) EvGetDailyPage
      end
  end.

(** [create_block(content, page_uid, page_title)]. *)
Definition create_block (content : string) (page_uid page_title : option string)
  : M world (gmap string rval) :=
  if String.eqb content "" then ret (failure "Content is required")
  else
    session ;;;
    try_except
      (target_page_uid <- target_page page_uid page_title ;;
       if contains_newline content then
         let markdown_content := convert_to_roam_markdown api content in
         let parsed_content := parse_markdown_list api markdown_content in
         match parsed_content with
         | [] => ret (failure "Failed to parse content")
         | _ =>
             items <- lift (map_exn to_flat parsed_content) ;;
             created_uids <- synchronize api CreateBlock "last" target_page_uid items ;;
             ret (<["success" := RBool true]>
                  (<["block_uid" := match created_uids with
                                    | u :: _ => RStr u
                                    | [] => RNone
                                    end]>
                   (<["parent_uid" := RStr target_page_uid]>
                    (<["created_uids" := RUids created_uids]> ∅))))
         end
       else
         block_uid <- uuid api ;;
         result <- write api
                     (Single (Action target_page_uid "last" (PStr content) block_uid None)) ;;
         if wr_success result then
           sleep 1000 ;;;
           found_uid <- call (find_block_uid api content) (EvFindBlockUid content) ;;
           ret (<["success" := RBool true]>
                (<["block_uid" := RStr (default block_uid found_uid)]>
                 (<["parent_uid" := RStr target_page_uid]> ∅)))
         else ret (failure "Failed to create block"))
      except_failure.

(** The query of [create_outline] that verifies that a block exists. *)
Definition outline_block_query (block_text_uid : string) : string :=
  "[:find ?uid" +:+ newline +:+ spaces 27 +:+ ":where [?b :block/uid "
  +:+ dquote +:+ block_text_uid +:+ dquote +:+ "]" +:+ newline
  +:+ spaces 34 +:+ "[?b :block/uid ?uid]]".

(** "Determine parent block" of [create_outline]: the parent uid, or the
    result returned early. *)
Definition outline_parent (target_page_uid : string) (block_text_uid : option string)
  : M world (gmap string rval + string) :=
  match given block_text_uid with
  | None => ret (inr target_page_uid)
  | Some block_text_uid =>
      if looks_like_uid block_text_uid then
        let query := outline_block_query block_text_uid in
        result <- call (execute_query api query) (EvQuery query) ;;
        if (result : bool) then ret (inr block_text_uid)
        else ret (inl (failure ("Block with UID " +:+ block_text_uid +:+ " not found")))
      else
        header_uid <- uuid api ;;
        write api (Single (Action target_page_uid "last" (PStr block_text_uid)
                             header_uid None)) ;;;
        sleep 500 ;;;
        header_uid <- call (find_block_uid api block_text_uid)
                        (EvFindBlockUid block_text_uid) ;;
        match header_uid with
        | None =>
            ret (inl (failure ("Failed to create header block with text: "
                               +:+ block_text_uid)))
        | Some header_uid => ret (inr header_uid)
        end
  end.

(** [create_outline(outline, page_title_uid, block_text_uid)]; the
    validation runs before the [try]. *)
Definition create_outline (outline : pyobj) (page_title_uid block_text_uid : option string)
  : M world (gmap string rval) :=
  if negb (truthy outline) then ret (failure "Outline cannot be empty")
  else
    items <- lift (iter_items outline) ;;
    invalid_items <- lift (map_exn invalid_outline_item items) ;;
    if existsb id invalid_items
    then ret (failure "All outline items must have text and a valid level")
    else
      session ;;;
      try_except
        (target_page_uid <-
           match given page_title_uid with
           | Some page_title_uid =>
               page_uid <- call (find_page_by_title api page_title_uid)
                             (EvFindPageByTitle page_title_uid) ;;
               match page_uid with
               | Some page_uid => ret page_uid
               | None => call (find_or_create_page api page_title_uid)
                           (EvFindOrCreatePage page_title_uid)
               end
           | None => call (get_daily_page api) EvGetDailyPage
           end ;;
         parent <- outline_parent target_page_uid block_text_uid ;;
         match parent with
         | inl early => ret early
         | inr parent_uid =>
             flat_items <- lift (map_exn to_flat_outline items) ;;
             created_uids <- synchronize api CreateOutline "last" parent_uid flat_items ;;
             ret (<["success" := RBool true]>
                  (<["page_uid" := RStr target_page_uid]>
                   (<["parent_uid" := RStr parent_uid]>
                    (<["created_uids" := RUids created_uids]> ∅))))
         end)
        except_failure.

(** The query of [import_markdown] that verifies that a block exists. *)
Definition import_block_query (parent_uid : string) : string :=
  "[:find ?uid ." +:+ newline +:+ spaces 23 +:+ ":where [?b :block/uid "
  +:+ dquote +:+ parent_uid +:+ dquote +:+ "]" +:+ newline
  +:+ spaces 30 +:+ "[?b :block/uid ?uid]]".

(** "Determine parent block" of [import_markdown]. *)
Definition import_parent (target_page_uid : string) (parent_uid parent_string : option string)
  : M world (gmap string rval + string) :=
  match given parent_uid with
  | Some parent_uid =>
      let query := import_block_query parent_uid in
      result <- call (execute_query api query) (EvQuery query) ;;
      if (result : bool) then ret (inr parent_uid)
      else ret (inl (failure ("Block with UID " +:+ parent_uid +:+ " not found")))
  | None =>
      match given parent_string with
      | None => ret (inr target_page_uid)
      | Some parent_string =>
          found_uid <- call (find_block_uid api parent_string)
                         (EvFindBlockUid parent_string) ;;
          match found_uid with
          | Some found_uid => ret (inr found_uid)
          | None =>
              block_uid <- uuid api ;;
              write api (Single (Action target_page_uid "last" (PStr parent_string)
                                   block_uid None)) ;;;
              sleep 1000 ;;;
              found_uid <- call (find_block_uid api parent_string)
                             (EvFindBlockUid parent_string) ;;
              ret (inr (default block_uid found_uid))
          end
      end
  end.

(** The [except] clauses of [import_markdown]: the last one,
    [except Exception], also logs the error. *)
Definition import_except (e : exn) : M world (gmap string rval) :=
  if named_exception e then ret (failure (exn_str e))
  else
    emit (EvLog "error" ("Error importing markdown: " +:+ exn_str e)) ;;;
    ret (failure (exn_str e)).

(** [import_markdown(content, page_uid, page_title, parent_uid,
    parent_string, order)]. *)
Definition import_markdown (content : string)
    (page_uid page_title parent_uid parent_string : option string) (order : string)
  : M world (gmap string rval) :=
  if String.eqb content "" then ret (failure "Content cannot be empty")
  else if negb (String.eqb order "first" || String.eqb order "last")
  then ret (failure "Order must be 'first' or 'last'")
  else
    session ;;;
    try_except
      (target_page_uid <- target_page page_uid page_title ;;
       parent <- import_parent target_page_uid parent_uid parent_string ;;
       match parent with
       | inl early => ret early
       | inr parent_block_uid =>
           let roam_markdown := convert_to_roam_markdown api content in
           let parsed_content := parse_markdown_list api roam_markdown in
           match parsed_content with
           | [] => ret (failure "Failed to parse markdown content")
           | _ =>
               items <- lift (map_exn to_flat parsed_content) ;;
               let items := sort_by_level items in
               created_uids <- synchronize api ImportMarkdown order
                                 parent_block_uid items ;;
               ret (<["success" := RBool true]>
                    (<["page_uid" := RStr target_page_uid]>
                     (<["parent_uid" := RStr parent_block_uid]>
                      (<["created_uids" := RUids created_uids]> ∅))))
           end
       end)
      import_except.

(** *** create_nested_blocks *)

Definition nested_success (created_uids : list string) : gmap string rval :=
  <["success" := RBool true]> (<["created_uids" := RUids created_uids]> ∅).

(** The result of the [except Exception] clause of [create_nested_blocks]. *)
Definition nested_failure (error_msg : string) (created_uids : list string)
  : gmap string rval :=
  <["success" := RBool false]>
    (<["error" := RStr error_msg]> (<["created_uids" := RUids created_uids]> ∅)).

(** [f"...{children_result.get('error')}"]. *)
Definition error_repr (result : gmap string rval) : string :=
  match result !! "error" with Some (RStr s) => s | _ => "None" end.

(** Runs [m] and hands a raised exception back as a value, so that the
    caller can pair it with the local state at the point of the raise. *)
Definition attempt {A} (m : M world A) : M world (exn + A) :=
  try_except (x <- m ;; ret (inr x)) (fun e => ret (inl e)).

(** "Process children if available", with [create_nested_blocks] itself as
    [recurse]: the value is [created_uids] afterwards. *)
Definition process_children (recurse : pyobj -> string -> M world (gmap string rval))
    (children : option pyobj) (block_uid : string) (created_uids : list string)
  : M world (list string) :=
  match children with
  | None => ret created_uids
  | Some children =>
      if truthy children then
        children_result <- recurse children block_uid ;;
        if success_of children_result then
          ret (created_uids ++ created_uids_of children_result)
        else
          emit (EvLog "warning"
                  ("Failed to create children blocks: "
                   +:+ error_repr children_result)) ;;;
          ret created_uids
      else ret created_uids
  end.

(** The steps of one iteration up to the response of the store: the level,
    the generated uid and the response. *)
Definition create_one_block (parent_uid : string) (level_to_uid : gmap Z string)
    (text level heading_level : option pyobj) : M world (Z * string * write_result) :=
  let level_v := default (PInt 0) level in
  let content := default (PStr "") text in
  let heading_level := default (PInt 0) heading_level in
  level <- lift (match as_int level_v with
                 | Some level => inr level
                 | None => inl (level_type_error level_v)
                 end) ;;
  let parent_level := level - 1 in
  let parent_level := if parent_level <? -1 then -1 else parent_level in
  let parent_for_block := default parent_uid (level_to_uid !! parent_level) in
  block_uid <- uuid api ;;
  heading <- lift (heading_of heading_level) ;;
  result <- write api
              (Single (Action parent_for_block "last" content block_uid heading)) ;;
  ret (level, block_uid, result).

(** The loop [for block in blocks_data] of [create_nested_blocks], with the
    function itself as [recurse].  The loop returns [created_uids] together
    with the exception that ended it, if any, for the [except] clause to
    build its result from both. *)
Fixpoint each_block (recurse : pyobj -> string -> M world (gmap string rval))
    (parent_uid : string) (blocks : list pyobj) (created_uids : list string)
    (level_to_uid : gmap Z string) {struct blocks}
  : M world (option exn * list string) :=
  match blocks with
  | [] => ret (None, created_uids)
  | PDict text level heading_level children :: rest =>
      created <- attempt (create_one_block parent_uid level_to_uid
                            text level heading_level) ;;
      match created with
      | inl e => ret (Some e, created_uids)
      | inr (level, block_uid, result) =>
          if wr_success result then
            let created_uids := created_uids ++ [block_uid] in
            let level_to_uid := <[level := block_uid]> level_to_uid in
            processed <- attempt (process_children recurse children block_uid
                                    created_uids) ;;
            match processed with
            | inl e => ret (Some e, created_uids)
            | inr created_uids =>
                sleep 500 ;;;
                each_block recurse parent_uid rest created_uids level_to_uid
            end
          else
            emit (EvLog "error"
                    ("Failed to create block: "
                     +:+ default "Unknown error" (wr_error result))) ;;;
            each_block recurse parent_uid rest created_uids level_to_uid
      end
  | block :: _ => ret (Some (AttributeError block "get"), created_uids)
  end.

(** [create_nested_blocks(parent_uid, blocks_data)]. *)
Fixpoint create_nested_blocks (blocks_data : pyobj) (parent_uid : string)
    {struct blocks_data} : M world (gmap string rval) :=
  if negb (truthy blocks_data) then ret (nested_success [])
  else
    session ;;;
    ended <-
      match blocks_data with
      | PList blocks =>
          each_block create_nested_blocks parent_uid blocks [] {[ -1 := parent_uid ]}
      | other => ret (Some (iter_error other), [])
      end ;;
    match ended with
    | (None, created_uids) => ret (nested_success created_uids)
    | (Some e, created_uids) =>
        let error_msg := "Failed to create nested blocks: " +:+ exn_str e in
        emit (EvLog "error" error_msg) ;;;
        ret (nested_failure error_msg created_uids)
    end.
End EntryPoints.

(** ** add_todos *)

(** The strings of the todo items when
    [all(isinstance(todo, str) for todo in todos)] holds. *)
Fixpoint strings_of (items : list pyobj) : option (list string) :=
  match items with
  | [] => Some []
  | PStr s :: rest =>
      match strings_of rest with
      | Some strings => Some (s :: strings)
      | None => None
      end
  | _ => None
  end.

Section AddTodos.
Context {world : Type}.
Variable api : Api world.

(** The loop [for i, todo in enumerate(todos)] of [add_todos]: the actions
    and the generated uids. *)
Fixpoint todo_actions (daily_page_uid : string) (todos : list string)
    (actions : list action) (todo_uids : list string)
  : M world (list action * list string) :=
  match todos with
  | [] => ret (actions, todo_uids)
  | todo :: rest =>
      let todo_content := "{{[[TODO]]}} " +:+ todo in
      block_uid <- uuid api ;;
      todo_actions daily_page_uid rest
        (actions ++ [Action daily_page_uid "last" (PStr todo_content) block_uid None])
        (todo_uids ++ [block_uid])
  end.

(** [add_todos(todos)]; the two checks run before the [try]. *)
Definition add_todos (todos : pyobj) : M world (gmap string rval) :=
  if negb (truthy todos) then ret (failure "Todo list cannot be empty")
  else
    items <- lift (iter_items todos) ;;
    match strings_of items with
    | None => ret (failure "All todo items must be strings")
    | Some todos =>
        session api ;;;
        try_except
          (daily_page_uid <- call (get_daily_page api) EvGetDailyPage ;;
           built <- todo_actions daily_page_uid todos [] [] ;;
           let '(actions, todo_uids) := built in
           result <- write api (Batch actions) ;;
           if wr_success result || bool_decide (is_Some (wr_created_uids result)) then
             ret (<["success" := RBool true]>
                  (<["created_uids" :=
                       RUids (default todo_uids (wr_created_uids result))]>
                   (<["page_uid" := RStr daily_page_uid]> ∅)))
           else ret (failure "Failed to create todo items"))
          except_failure
    end.
End AddTodos.

(** ** update_content and update_multiple_contents *)

(** A transformation pattern as the caller passes it.  Of a dict the code
    reads the keys ["find"], ["replace"] and ["global"]; [other_keys] tells
    whether the dict has further keys.  Of a value that is not a dict only
    the truth value matters ([None], the default, is falsy). *)
Inductive pattern : Type :=
| PatternDict (find replace global : option pyobj) (other_keys : bool)
| PatternOther (truth : bool).

Definition pattern_truthy (p : pattern) : bool :=
  match p with
  | PatternDict None None None false => false
  | PatternDict _ _ _ _ => true
  | PatternOther truth => truth
  end.

(** One element of the list given to [update_multiple_contents]: a dict, of
    which the code reads the keys ["block_uid"], ["content"] and
    ["transform"]. *)
Record update : Type := Update {
  u_block_uid : option pyobj;
  u_content : option pyobj;
  u_transform : option pattern
}.

(** The argument of [update_multiple_contents]: a list, or something else. *)
Inductive updates_arg : Type :=
| UpdatesList (updates : list update)
| UpdatesOther.

(** The calls of the two update functions, with what they returned or
    raised.  The query of [update_content] asks for one string
    ([:find ?string .]), and gets it or [None]. *)
Inductive update_event : Type :=
| EvQueryString (query : string) (o : exn + option string)
| EvUpdateBlock (block_uid : string) (content : option string) (o : exn + unit)
| EvBatchUpdate (updates : list update) (chunk_size : Z)
    (o : exn + list (gmap string rval)).

(** The values of the dict [update_multiple_contents] returns. *)
Inductive uval : Type :=
| UBool (b : bool)
| UStr (s : string)
| UResults (results : list (gmap string rval)).

(** What the update functions import from [roam_mcp.api] and [re]:
    [re_sub find replace string count] is
    [re.sub(find, replace, string, count=count, flags=re.MULTILINE)], and
    [is_re_error e] is [isinstance(e, re.error)]. *)
Record UpdateApi (world : Type) : Type := MkUpdateApi {
  execute_query_string : string -> world -> (exn + option string) * world;
  update_block : string -> option string -> world -> (exn + unit) * world;
  batch_update_blocks :
    list update -> Z -> world -> (exn + list (gmap string rval)) * world;
  re_sub : pyobj -> pyobj -> string -> Z -> exn + string;
  is_re_error : exn -> bool
}.

Arguments execute_query_string {world} _ _ _.
Arguments update_block {world} _ _ _ _.
Arguments batch_update_blocks {world} _ _ _ _.
Arguments re_sub {world} _ _ _ _ _.
Arguments is_re_error {world} _ _.

(** The query of [update_content] for the current string of a block. *)
Definition block_string_query (block_uid : string) : string :=
  "[:find ?string ." +:+ newline +:+ spaces 24 +:+ ":where [?b :block/uid "
  +:+ dquote +:+ block_uid +:+ dquote +:+ "]" +:+ newline
  +:+ spaces 32 +:+ "[?b :block/string ?string]]".

(** The value stored under ["content"]. *)
Definition content_value (content : option string) : rval :=
  match content with Some s => RStr s | None => RNone end.

Definition updated (content : option string) : gmap string rval :=
  <["success" := RBool true]> (<["content" := content_value content]> ∅).

Section Updates.
Context {world : Type}.
Variable api : UpdateApi world.

(** The handlers around the transformation: [except re.error] of the inner
    [try], and the clauses of the outer one, which all return [str(e)]. *)
Definition transform_except (e : exn) : gmap string rval :=
  if is_re_error api e then failure ("Invalid regex pattern: " +:+ exn_str e)
  else failure (exn_str e).

(** [update_content(block_uid, content, transform_pattern)].  The function
    has no path that raises: the checks before the [try] return, and the
    [try] ends in [except Exception]. *)
Definition update_content (block_uid : string) (content : option string)
    (transform_pattern : pattern) (w : world)
  : gmap string rval * world * list update_event :=
  if String.eqb block_uid "" then (failure "Block UID is required", w, [])
  else if negb (bool_decide (is_Some (given content)))
          && negb (pattern_truthy transform_pattern)
  then (failure "Either content or transform_pattern must be provided", w, [])
  else if pattern_truthy transform_pattern then
    match transform_pattern with
    | PatternOther _ => (failure "Transform pattern must be an object", w, [])
    | PatternDict (Some find) (Some replace) global _ =>
        let query := block_string_query block_uid in
        match execute_query_string api query w with
        | (inl e, w1) => (failure (exn_str e), w1, [EvQueryString query (inl e)])
        | (inr current_content, w1) =>
            match given current_content with
            | None =>
                (failure ("Block with UID " +:+ block_uid +:+ " not found"), w1,
                 [EvQueryString query (inr current_content)])
            | Some current =>
                let global_replace := default (PBool true) global in
                let count := if truthy global_replace then 0 else 1 in
                match re_sub api find replace current count with
                | inl e =>
                    (transform_except e, w1,
                     [EvQueryString query (inr current_content)])
                | inr new_content =>
                    match update_block api block_uid (Some new_content) w1 with
                    | (inl e, w2) =>
                        (transform_except e, w2,
                         [EvQueryString query (inr current_content);
                          EvUpdateBlock block_uid (Some new_content) (inl e)])
                    | (inr r, w2) =>
                        (updated (Some new_content), w2,
                         [EvQueryString query (inr current_content);
                          EvUpdateBlock block_uid (Some new_content) (inr r)])
                    end
                end
            end
        end
    | PatternDict _ _ _ _ =>
        (failure "Transform pattern must include 'find' and 'replace' properties",
         w, [])
    end
  else
    match update_block api block_uid content w with
    | (inl e, w1) => (failure (exn_str e), w1, [EvUpdateBlock block_uid content (inl e)])
    | (inr r, w1) => (updated content, w1, [EvUpdateBlock block_uid content (inr r)])
    end.

(** The loop [for i, update in enumerate(updates)] of
    [update_multiple_contents], from index [i] on: the error of the first
    update that is rejected. *)
Fixpoint validate_updates (i : nat) (updates : list update) : option string :=
  match updates with
  | [] => None
  | update :: rest =>
      match u_block_uid update with
      | None =>
          Some ("Update at index " +:+ pretty i
                +:+ " is missing required 'block_uid' property")
      | Some _ =>
          if negb (bool_decide (is_Some (u_content update)))
             && negb (bool_decide (is_Some (u_transform update)))
          then Some ("Update at index " +:+ pretty i
                     +:+ " must include either 'content' or 'transform'")
          else
            match u_transform update with
            | Some (PatternOther _) =>
                Some ("Transform at index " +:+ pretty i +:+ " must be an object")
            | Some (PatternDict find replace _ _) =>
                if negb (bool_decide (is_Some find))
                   || negb (bool_decide (is_Some replace))
                then Some ("Transform at index " +:+ pretty i
                           +:+ " must include 'find' and 'replace' properties")
                else validate_updates (S i) rest
            | None => validate_updates (S i) rest
            end
      end
  end.

Definition updates_failure (error : string) : gmap string uval :=
  <["success" := UBool false]> (<["error" := UStr error]> ∅).

(** The truth value of [result.get("success")]. *)
Definition result_succeeded (result : gmap string rval) : bool :=
  match result !! "success" with
  | Some (RBool b) => b
  | Some (RStr s) => negb (String.eqb s "")
  | Some (RUids l) => match l with [] => false | _ => true end
  | Some RNone | None => false
  end.

(** [update_multiple_contents(updates)]. *)
Definition update_multiple_contents (updates : updates_arg) (w : world)
  : gmap string uval * world * list update_event :=
  match updates with
  | UpdatesOther | UpdatesList [] =>
      (updates_failure "Updates must be a non-empty list", w, [])
  | UpdatesList updates =>
      match validate_updates 0 updates with
      | Some error => (updates_failure error, w, [])
      | None =>
          let CHUNK_SIZE := 50 in
          match batch_update_blocks api updates CHUNK_SIZE w with
          | (inl e, w1) =>
              (updates_failure (exn_str e), w1,
               [EvBatchUpdate updates CHUNK_SIZE (inl e)])
          | (inr results, w1) =>
              let successful := length (filter (fun r => result_succeeded r = true) results) in
              (<["success" := UBool (bool_decide (successful = length updates))]>
               (<["results" := UResults results]>
                (<["message" := UStr ("Updated " +:+ pretty successful +:+ "/"
                                      +:+ pretty (length updates)
                                      +:+ " blocks successfully")]> ∅)),
               w1, [EvBatchUpdate updates CHUNK_SIZE (inr results)])
          end
      end
  end.
End Updates.

(** ** A scripted store for concrete runs *)

(** A test double of the store: the uids [uuid4] will produce and the
    outcomes of the successive [execute_write_action] calls, consumed in
    order.  When the script of outcomes is exhausted a call succeeds without
    returning identifiers. *)
Record script : Type := Script {
  s_uids : list string;
  s_writes : list (exn + write_result)
}.

Definition write_ok : write_result := WriteResult None true None.
Definition write_failed : write_result := WriteResult None false (Some "rejected").
Definition write_uids (uids : list string) : write_result :=
  WriteResult (Some uids) true None.

Definition script_write (arg : write_arg) (w : script)
  : (exn + write_result) * script :=
  match s_writes w with
  | [] => (inr write_ok, w)
  | o :: rest => (o, Script (s_uids w) rest)
  end.

Definition script_uuid (w : script) : string * script :=
  match s_uids w with
  | [] => ("", w)
  | u :: rest => (u, Script rest (s_writes w))
  end.

(** Pages are found under the uid equal to their title, no block is ever
    found by its text, every queried block exists, and the markdown parser
    returns [parsed] whatever the text. *)
Definition script_api (parsed : list pyobj) : Api script :=
  MkApi script "graph"
    (fun w => (inr tt, w))
    (fun title w => (inr title, w))
    (fun w => (inr "daily", w))
    (fun title w => (inr (Some title), w))
    (fun _ w => (inr true, w))
    (fun _ w => (inr None, w))
    script_write
    script_uuid
    (fun text => text)
    (fun _ => parsed).

(** An item [{"text": text, "level": level}]. *)
Definition item (text : string) (level : Z) : pyobj :=
  PDict (Some (PStr text)) (Some (PInt level)) None None.

(** The outline of the end-to-end scenario. *)
Definition outline_ABCD : list pyobj :=
  [item "A" 0; item "B" 1; item "C" 1; item "D" 2].

(** The bucket of the two items "X" and "Y" at level 0. *)
Definition level_items_XY : gmap Z (list flat) :=
  group_by_level [Flat (PStr "X") 0 (PInt 0); Flat (PStr "Y") 0 (PInt 0)].

(** The buckets of "A" at level 0 and "D" at level 2. *)
Definition level_items_AD : gmap Z (list flat) :=
  group_by_level [Flat (PStr "A") 0 (PInt 0); Flat (PStr "D") 2 (PInt 0)].

(** A block "X" with a child "Y", followed by a block "Z". *)
Definition blocks_XYZ : list pyobj :=
  [PDict (Some (PStr "X")) (Some (PInt 0)) None (Some (PList [item "Y" 0]));
   item "Z" 0].

(** What a run returned or raised, and the trace it emitted. *)
Definition result_of {world A} (run : (exn + A) * world * list event) : exn + A :=
  run.1.1.

Definition trace_of {world A} (run : (exn + A) * world * list event) : list event :=
  run.2.

(** The value under [k] in the dict a run returned, if it returned one
    that has the key. *)
Definition returned {world} (run : (exn + gmap string rval) * world * list event)
    (k : string) : option rval :=
  match result_of run with
  | inr result => result !! k
  | inl _ => None
  end.

(** The batches submitted during a run, in order. *)
Definition batches (tr : list event) : list (list action) :=
  flat_map (fun ev => match ev with EvWrite (Batch b) _ => [b] | _ => [] end) tr.

(** The single actions submitted during a run, in order. *)
Definition singles (tr : list event) : list action :=
  flat_map (fun ev => match ev with EvWrite (Single a) _ => [a] | _ => [] end) tr.

(** A request to create or change something in the store. *)
Definition is_write (ev : event) : bool :=
  match ev with EvWrite _ _ => true | _ => false end.

(** A call whose outcome was a raised exception. *)
Definition raised (ev : event) : bool :=
  match ev with
  | EvSession (inl _) | EvFindOrCreatePage _ (inl _) | EvGetDailyPage (inl _)
  | EvFindPageByTitle _ (inl _) | EvQuery _ (inl _) | EvFindBlockUid _ (inl _)
  | EvWrite _ (inl _) => true
  | _ => false
  end.

(** A block with text and no heading, as it appears in a request. *)
Definition block (parent_uid text uid : string) : action :=
  Action parent_uid "last" (PStr text) uid None.

Definition markdown_ABCD : string :=
  "- A" +:+ newline +:+ "  - B" +:+ newline +:+ "  - C" +:+ newline +:+ "    - D".

(** ** Definitions used in the statements *)

(** The fields of a dict that hold a value satisfy [P]. *)
Definition field_holds (P : pyobj -> Prop) (field : option pyobj) : Prop :=
  match field with Some v => P v | None => True end.

(** [out_acc], the outcome of a call started on the list [acc], is the
    outcome [out] of the same call started on the empty list, with the
    nodes appended to [acc]. *)
Definition appends_same (out : exn + list flat) (acc : list flat)
    (out_acc : exn + list flat) : Prop :=
  match out with
  | inl e => out_acc = inl e
  | inr nodes => out_acc = inr (acc ++ nodes)
  end.

(** Flattening in the words of the specification: visit each node; use its
    explicit depth if it carries one, otherwise the parent depth plus one;
    emit the node; then recurse into its children with the resolved depth of
    the node as their parent depth. *)
Fixpoint flatten_spec (item : pyobj) (parent_depth : Z) : list flat :=
  match item with
  | PDict text level heading_level children =>
      let depth := default (parent_depth + 1) (level ≫= as_int) in
      Flat (default (PStr "") text) depth (default (PInt 0) heading_level)
      :: match children with
         | Some (PList children) =>
             flat_map (fun child => flatten_spec child depth) children
         | _ => []
         end
  | _ => []
  end.

(** What the validation of [create_page] accepts, stated without the error
    messages: a dict whose text is a string, whose level, if present, is a
    non-negative integer, and whose children, if present, are a list of such
    items. *)
Fixpoint valid_item (item : pyobj) : bool :=
  match item with
  | PDict text level _ children =>
      isinstance_str (default PNone text)
      && match level with
         | None => true
         | Some v => match as_int v with Some z => 0 <=? z | None => false end
         end
      && match children with
         | None => true
         | Some (PList children) => forallb valid_item children
         | Some _ => false
         end
  | _ => false
  end.

(** The uids [n] successive calls of [uuid4] generate from the state [w]. *)
Fixpoint generated_uids {world} (api : Api world) (n : nat) (w : world) : list string :=
  match n with
  | O => []
  | S k => (uuid4_9 api w).1 :: generated_uids api k (uuid4_9 api w).2
  end.

(** The identifiers a response to a batch adds to [created_uids]. *)
Definition contribution (ev : event) : list string :=
  match ev with
  | EvWrite (Batch b) (inr r) =>
      match wr_created_uids r with
      | Some uids => uids
      | None => if wr_success r then map a_uid b else []
      end
  | _ => []
  end.

Section LevelOutcome.
Context {world : Type}.
Variable api : Api world.
Variables (e : entry) (order : string) (level_items : gmap Z (list flat)) (root : string).

(** The ways one level can go: building the batch raises, the batch call
    raises, the batch call is answered, or the level has no item. *)
Inductive level_outcome (created : list string) (lpm : gmap Z string) (level : Z)
    (w : world) : (exn + list string * gmap Z string) * world * list event -> Prop :=
| LevelNotBuilt ex w1 :
    result_of (build_level api e order level_items root level
                 (default [] (level_items !! level)) lpm [] [] w) = inl ex ->
    level_outcome created lpm level w (inl ex, w1, [])
| LevelRaised batch uids lpm1 w1 w2 ex :
    build_level api e order level_items root level
      (default [] (level_items !! level)) lpm [] [] w
    = (inr (batch, uids, lpm1), w1, []) ->
    batch <> [] ->
    execute_write_action api (Batch batch) w1 = (inl ex, w2) ->
    level_outcome created lpm level w (inl ex, w2, [EvWrite (Batch batch) (inl ex)])
| LevelAnswered batch uids lpm1 w1 w2 r :
    build_level api e order level_items root level
      (default [] (level_items !! level)) lpm [] [] w
    = (inr (batch, uids, lpm1), w1, []) ->
    batch <> [] ->
    execute_write_action api (Batch batch) w1 = (inr r, w2) ->
    level_outcome created lpm level w
      (inr (extend_created created r uids, store_level_parent e lpm1 level uids),
       w2, [EvWrite (Batch batch) (inr r); EvSleep 500])
| LevelEmpty uids lpm1 w1 :
    build_level api e order level_items root level
      (default [] (level_items !! level)) lpm [] [] w
    = (inr ([], uids, lpm1), w1, []) ->
    level_outcome created lpm level w (inr (created, lpm1), w1, []).
End LevelOutcome.

(** The result of [create_page] when content has been synchronized. *)
Definition page_with_content {world} (api : Api world) (page_uid : string)
    (created_uids : list string) : gmap string rval :=
  <["success" := RBool true]>
    (<["uid" := RStr page_uid]>
       (<["created_uids" := RUids created_uids]>
          (<["page_url" := RStr (page_url api page_uid)]> ∅))).

(** A block the loop of [create_nested_blocks] can process without a
    [TypeError] or [AttributeError]: a dict with an integer level, a heading
    level that is falsy or a number, and children that are absent, falsy or
    a list of such blocks. *)
Fixpoint wf_block (b : pyobj) : bool :=
  match b with
  | PDict text level heading_level children =>
      bool_decide (is_Some (as_int (default (PInt 0) level)))
      && match heading_of (default (PInt 0) heading_level) with
         | inr _ => true
         | inl _ => false
         end
      && match children with
         | None => true
         | Some (PList children) => forallb wf_block children
         | Some other => negb (truthy other)
         end
  | _ => false
  end.

(** The uids of the blocks the store reported as created, in the order of
    the requests. *)
Definition created_in (tr : list event) : list string :=
  flat_map (fun ev => match ev with
                      | EvWrite (Single a) (inr r) =>
                          if wr_success r then [a_uid a] else []
                      | _ => []
                      end) tr.

(** What the induction provides about the recursive call on the children
    of a block. *)
Definition children_succeed {world}
    (recurse : pyobj -> string -> M world (gmap string rval)) (b : pyobj) : Prop :=
  forall t l h children block_uid w,
    b = PDict t l h (Some (PList children)) ->
    forallb wf_block children = true ->
    Forall (fun ev => raised ev = false)
           (trace_of (recurse (PList children) block_uid w)) ->
    result_of (recurse (PList children) block_uid w)
    = inr (nested_success
             (created_in (trace_of (recurse (PList children) block_uid w)))).

(** The action [create_nested_blocks] submits for a block. *)
Definition nested_action (parent_uid : string) (level_to_uid : gmap Z string)
    (text : option pyobj) (level : Z) (heading : option pyobj) (block_uid : string)
  : action :=
  Action (default parent_uid
            (level_to_uid !! (if level - 1 <? -1 then -1 else level - 1)))
         "last" (default (PStr "") text) block_uid heading.

(** The parents of the batches of a run of [create_page], [create_block]
    or [create_outline], read off the code: a batch of level [l] is attached
    to the last uid generated for the batch before it if that batch was of
    level [l - 1], and to the root otherwise.  [p] and [u] are the level and
    the last uid of the batch before; [-1] and the root at the start. *)
Fixpoint attached (root : string) (p : Z) (u : string)
    (batches_by_level : list (Z * list action)) : Prop :=
  match batches_by_level with
  | [] => True
  | (l, b) :: rest =>
      Forall (fun a => a_parent_uid a = if l - 1 =? p then u else root) b
      /\ attached root l (default u (last (map a_uid b))) rest
  end.

(** An item [create_outline] rejects: a dict whose text is missing or
    falsy, or whose level is missing or not an integer. *)
Definition outline_item_rejected (it : pyobj) : Prop :=
  match it with
  | PDict text level _ _ =>
      truthy (default PNone text) = false \/ as_int (default PNone level) = None
  | _ => False
  end.

Definition is_dict (v : pyobj) : Prop :=
  match v with PDict _ _ _ _ => True | _ => False end.

(** The action of [add_todos] for a todo, under the daily page. *)
Definition todo_action (daily_page_uid todo block_uid : string) : action :=
  Action daily_page_uid "last" (PStr ("{{[[TODO]]}} " +:+ todo)) block_uid None.

(** The store state after [n] calls of [uuid4]. *)
Fixpoint after_uids {world} (api : Api world) (n : nat) (w : world) : world :=
  match n with
  | O => w
  | S k => after_uids api k (uuid4_9 api w).2
  end.

(** A transformation pattern the update functions accept: a dict with the
    keys ["find"] and ["replace"]. *)
Definition well_formed_pattern (p : pattern) : Prop :=
  exists find replace global other_keys,
    p = PatternDict (Some find) (Some replace) global other_keys.

(** An update [update_multiple_contents] accepts: it names a block, has new
    content or a transformation, and the transformation, if there is one,
    is well formed. *)
Definition well_formed_update (u : update) : Prop :=
  is_Some (u_block_uid u)
  /\ (is_Some (u_content u) \/ is_Some (u_transform u))
  /\ forall p, u_transform u = Some p -> well_formed_pattern p.

(** The arguments [update_content] answers without a call. *)
Definition update_rejected (block_uid : string) (content : option string)
    (transform_pattern : pattern) : Prop :=
  block_uid = ""
  \/ (given content = None /\ pattern_truthy transform_pattern = false)
  \/ (pattern_truthy transform_pattern = true
      /\ ~ well_formed_pattern transform_pattern).

(** [count] as [update_content] passes it to [re.sub]: 0, every match, unless
    the pattern has a falsy ["global"]. *)
Definition replace_count (global : option pyobj) : Z :=
  if truthy (default (PBool true) global) then 0 else 1.

(** A test double for the update functions: every block has the string
    [current], every update succeeds, and the regular expression engine
    replaces the whole string when the replacement is a string. *)
Definition update_script_api (current : option string) : UpdateApi unit :=
  MkUpdateApi unit
    (fun _ w => (inr current, w))
    (fun _ _ w => (inr tt, w))
    (fun updates _ w => (inr (map (fun _ => {["success" := RBool true]}) updates), w))
    (fun _ replace _ _ =>
       match replace with
       | PStr r => inr r
       | _ => inl (TypeError "expected str instance")
       end)
    (fun e => String.eqb (exn_class e) "error").


(** * Properties *)

(** ** The end-to-end scenario *)

(** [create_page] on the scenario: "D" is attached to "C", the last block of
    level 1. *)
Lemma create_page_scenario (a b c d : string) :
  batches (trace_of (create_page (script_api []) "ROOT1" (PList outline_ABCD)
                       (Script [a; b; c; d] [])))
  = [[block "ROOT1" "A" a]; [block a "B" b; block a "C" c]; [block c "D" d]].
Proof. reflexivity. Qed.

Lemma create_block_scenario (a b c d : string) :
  batches (trace_of (create_block (script_api outline_ABCD) markdown_ABCD
                       (Some "ROOT1") None (Script [a; b; c; d] [])))
  = [[block "ROOT1" "A" a]; [block a "B" b; block a "C" c]; [block c "D" d]].
Proof. reflexivity. Qed.

Lemma create_outline_scenario (a b c d : string) :
  batches (trace_of (create_outline (script_api []) (PList outline_ABCD)
                       (Some "ROOT1") None (Script [a; b; c; d] [])))
  = [[block "ROOT1" "A" a]; [block a "B" b; block a "C" c]; [block c "D" d]].
Proof. reflexivity. Qed.

Lemma create_nested_blocks_scenario (a b c d : string) :
  singles (trace_of (create_nested_blocks (script_api []) (PList outline_ABCD)
                       "ROOT1" (Script [a; b; c; d] [])))
  = [block "ROOT1" "A" a; block a "B" b; block a "C" c; block c "D" d].
Proof. reflexivity. Qed.

(** C2 (the scenario outline under root "ROOT1" gives "A" under the root,
    "B" and "C" under "A" and "D" under "C" at every entry point) fails for
    [import_markdown]: its table is only written under the guard
    [if level in level_parent_map], which never holds for a level of the
    outline, so all four blocks are attached to the root. *)
Theorem C2_import_markdown_attaches_all_to_root (a b c d : string) :
  let run := import_markdown (script_api outline_ABCD) markdown_ABCD
               (Some "ROOT1") None None None "last" (Script [a; b; c; d] []) in
  batches (trace_of run)
  = [[block "ROOT1" "A" a]; [block "ROOT1" "B" b; block "ROOT1" "C" c];
     [block "ROOT1" "D" d]]
  /\ returned run "success" = Some (RBool true).
Proof. split; reflexivity. Qed.

(** ** Induction on Python values *)

Lemma pyobj_ind (P : pyobj -> Prop) :
  P PNone ->
  (forall b, P (PBool b)) ->
  (forall z, P (PInt z)) ->
  (forall q, P (PFloat q)) ->
  (forall s, P (PStr s)) ->
  (forall l, Forall P l -> P (PList l)) ->
  (forall t l h c,
      field_holds P t -> field_holds P l -> field_holds P h -> field_holds P c ->
      P (PDict t l h c)) ->
  forall v, P v.
Proof.
  intros HNone HBool HInt HFloat HStr HList HDict.
  fix IH 1. intros [ | b | z | q | s | l | t l h c].
  - exact HNone.
  - apply HBool.
  - apply HInt.
  - apply HFloat.
  - apply HStr.
  - apply HList. induction l as [ | x l IHl]; constructor; [apply IH | exact IHl].
  - apply HDict.
    + destruct t as [v | ]; [apply IH | exact I].
    + destruct l as [v | ]; [apply IH | exact I].
    + destruct h as [v | ]; [apply IH | exact I].
    + destruct c as [v | ]; [apply IH | exact I].
Qed.

(** Induction for the functions that take an item and recurse into the
    items of its list of children. *)
Lemma item_ind (P : pyobj -> Prop) :
  (forall item,
      (forall t l h children,
          item = PDict t l h (Some (PList children)) -> Forall P children) ->
      P item) ->
  forall item, P item.
Proof.
  intros step item.
  cut (P item /\ (forall l, item = PList l -> Forall P l)); [tauto | ].
  induction item as [ | b | z | q | s | l IHl | t l h c _ _ _ IHc] using pyobj_ind;
    try (split; [apply step | ]; discriminate).
  - split.
    + apply step. discriminate.
    + intros l' [= <-]. eapply Forall_impl; [exact IHl | ]. simpl. tauto.
  - split; [ | discriminate].
    apply step. intros t' l' h' children [= -> -> -> ->].
    simpl in IHc. destruct IHc as [_ IHc]. apply IHc. reflexivity.
Qed.

(** Induction for the functions that take a list of blocks and recurse into
    the value under ["children"] of each block. *)
Lemma blocks_ind (P : pyobj -> Prop) :
  (forall blocks_data,
      (forall blocks, blocks_data = PList blocks ->
         Forall (fun b => forall t l h c, b = PDict t l h (Some c) -> P c) blocks) ->
      P blocks_data) ->
  forall blocks_data, P blocks_data.
Proof.
  intros step v.
  cut (P v /\ (forall t l h c, v = PDict t l h (Some c) -> P c)); [tauto | ].
  induction v as [ | b | z | q | s | l IHl | t l h c _ _ _ IHc] using pyobj_ind;
    try (split; [apply step | ]; discriminate).
  - split; [ | discriminate].
    apply step. intros blocks [= <-].
    eapply Forall_impl; [exact IHl | ]. simpl. tauto.
  - split.
    + apply step. discriminate.
    + intros t' l' h' c' [= -> -> -> ->]. simpl in IHc. tauto.
Qed.

(** ** Flattening *)

(** The loop over the children inside [flatten_item] is [flatten_content]. *)
Lemma flatten_item_children text level heading_level children parent_level acc :
  flatten_item (PDict text level heading_level (Some (PList children))) parent_level acc
  = match as_int (default (PInt (parent_level + 1)) level) with
    | None => inl (level_type_error (default (PInt (parent_level + 1)) level))
    | Some lv =>
        flatten_content children lv
          (acc ++ [Flat (default (PStr "") text) lv (default (PInt 0) heading_level)])
    end.
Proof.
  simpl. destruct (as_int _) as [lv | ]; [ | reflexivity].
  generalize (acc ++ [Flat (default (PStr "") text) lv (default (PInt 0) heading_level)]).
  induction children as [ | child rest IH]; intros acc'; simpl; [reflexivity | ].
  destruct (flatten_item child lv acc'); [reflexivity | apply IH].
Qed.

Lemma flatten_content_appends_of items :
  Forall (fun item => forall parent_level acc,
            appends_same (flatten_item item parent_level []) acc
                         (flatten_item item parent_level acc)) items ->
  forall parent_level acc,
    appends_same (flatten_content items parent_level []) acc
                 (flatten_content items parent_level acc).
Proof.
  induction 1 as [ | item rest Hitem _ IH]; intros parent_level acc; simpl.
  - by rewrite app_nil_r.
  - pose proof (Hitem parent_level acc) as Hacc. unfold appends_same in Hacc.
    destruct (flatten_item item parent_level []) as [e | nodes]; rewrite Hacc;
      [reflexivity | ].
    pose proof (IH parent_level nodes) as Hnodes.
    pose proof (IH parent_level (acc ++ nodes)) as Hboth.
    unfold appends_same in *.
    destruct (flatten_content rest parent_level []) as [e | more].
    + by rewrite Hnodes, Hboth.
    + rewrite Hnodes, Hboth. simpl. by rewrite app_assoc.
Qed.

Lemma flatten_item_appends item :
  forall parent_level acc,
    appends_same (flatten_item item parent_level []) acc
                 (flatten_item item parent_level acc).
Proof.
  induction item as [item IH] using item_ind. intros parent_level acc.
  destruct item as [ | b | z | q | s | l | t l h c]; try reflexivity.
  destruct c as [[ | b | z | q | s | children | t' l' h' c'] | ];
    try (cbn [flatten_item]; destruct (as_int _); [ | reflexivity];
         try destruct (truthy _); cbn [appends_same]; simpl; reflexivity).
  rewrite !flatten_item_children.
  destruct (as_int _) as [lv | ]; [ | reflexivity].
  specialize (IH _ _ _ _ eq_refl).
  pose proof (flatten_content_appends_of _ IH lv) as Happ.
  pose proof (Happ ([] ++ [Flat (default (PStr "") t) lv (default (PInt 0) h)])) as H1.
  pose proof (Happ (acc ++ [Flat (default (PStr "") t) lv (default (PInt 0) h)])) as H2.
  unfold appends_same in *.
  destruct (flatten_content children lv []) as [e | nodes].
  - by rewrite H1, H2.
  - rewrite H1, H2. simpl. by rewrite <- app_assoc.
Qed.

(** C9: flattening is a function of the input tree alone.  The inner
    function appends to a list of the enclosing scope; whatever that list
    holds when it is called, it raises the same exception or appends the
    same nodes (texts, levels and heading levels) in the same order, so two
    runs over one tree produce identical sequences. *)
Theorem C9_flatten_content_deterministic (items : list pyobj) (parent_level : Z)
    (acc1 acc2 : list flat) :
  match flatten_content items parent_level acc1,
        flatten_content items parent_level acc2 with
  | inr out1, inr out2 =>
      exists nodes,
        flatten_content items parent_level [] = inr nodes
        /\ out1 = acc1 ++ nodes /\ out2 = acc2 ++ nodes
  | inl e1, inl e2 => e1 = e2
  | _, _ => False
  end.
Proof.
  assert (Happ := flatten_content_appends_of items
                    (proj2 (Forall_forall _ _) (fun item _ => flatten_item_appends item))
                    parent_level).
  pose proof (Happ acc1) as H1. pose proof (Happ acc2) as H2.
  unfold appends_same in *.
  destruct (flatten_content items parent_level []) as [e | nodes];
    rewrite H1, H2; [reflexivity | by exists nodes].
Qed.

(** ** Validation in create_page *)

(** The loop over the children inside [validate_item] is [validate_items]. *)
Lemma validate_item_children text level heading_level children parent_level :
  validate_item (PDict text level heading_level (Some (PList children))) parent_level
  = if negb (isinstance_str (default PNone text))
    then inr (Some "Each item must have 'text' as a string")
    else match as_int (default (PInt (parent_level + 1)) level) with
         | None => inr (Some "'level' must be an integer")
         | Some lv =>
             if lv <? 0 then inr (Some "'level' must be non-negative")
             else validate_items children lv
         end.
Proof.
  simpl. destruct (negb _); [reflexivity | ].
  destruct (as_int _) as [lv | ]; [ | reflexivity].
  destruct (lv <? 0); [reflexivity | ].
  induction children as [ | child rest IH]; simpl; [reflexivity | ].
  destruct (validate_item child lv) as [e | [error | ]]; try reflexivity. apply IH.
Qed.

Lemma validate_items_valid_of items :
  Forall (fun item => forall parent_level, -1 <= parent_level ->
            validate_item item parent_level = inr None <-> valid_item item = true)
         items ->
  forall parent_level, -1 <= parent_level ->
    validate_items items parent_level = inr None <-> forallb valid_item items = true.
Proof.
  induction 1 as [ | item rest Hitem _ IH]; intros parent_level Hpl; simpl; [tauto | ].
  specialize (Hitem parent_level Hpl). specialize (IH parent_level Hpl).
  rewrite andb_true_iff, <- Hitem, <- IH.
  destruct (validate_item item parent_level) as [e | [error | ]];
    split; try tauto; try discriminate; intros [? ?]; discriminate.
Qed.

Lemma validate_item_valid item :
  forall parent_level, -1 <= parent_level ->
    validate_item item parent_level = inr None <-> valid_item item = true.
Proof.
  induction item as [item IH] using item_ind. intros parent_level Hpl.
  destruct item as [ | b | z | q | s | l | t l h c]; try (simpl; split; discriminate).
  assert (Hlevel : forall lv, as_int (default (PInt (parent_level + 1)) l) = Some lv ->
            (lv <? 0) = false ->
            match l with
            | None => true
            | Some v => match as_int v with Some z => 0 <=? z | None => false end
            end = true).
  { intros lv Hlv Hneg. destruct l as [v | ]; [ | reflexivity].
    simpl in Hlv. rewrite Hlv. lia. }
  assert (Hlevel' : forall lv, as_int (default (PInt (parent_level + 1)) l) = Some lv ->
            (lv <? 0) = true ->
            match l with
            | None => true
            | Some v => match as_int v with Some z => 0 <=? z | None => false end
            end = false).
  { intros lv Hlv Hneg. destruct l as [v | ].
    - simpl in Hlv. rewrite Hlv. lia.
    - simpl in Hlv. injection Hlv as <-. lia. }
  assert (Hnone : as_int (default (PInt (parent_level + 1)) l) = None ->
            match l with
            | None => true
            | Some v => match as_int v with Some z => 0 <=? z | None => false end
            end = false).
  { intros Hlv. destruct l as [v | ]; [ | discriminate]. simpl in Hlv. by rewrite Hlv. }
  destruct c as [[ | b | z | q | s | children | t' l' h' c'] | ].
  6: {
    rewrite validate_item_children. cbn [valid_item].
    destruct (isinstance_str (default PNone t)); simpl; [ | split; discriminate].
    destruct (as_int (default (PInt (parent_level + 1)) l)) as [lv | ] eqn:Hlv.
    - destruct (lv <? 0) eqn:Hneg.
      + rewrite (Hlevel' _ eq_refl Hneg). simpl. split; discriminate.
      + rewrite (Hlevel _ eq_refl Hneg). simpl.
        apply validate_items_valid_of; [ | lia]. eapply IH. reflexivity.
    - rewrite (Hnone eq_refl). simpl. split; discriminate. }
  all: cbn [validate_item valid_item];
    destruct (isinstance_str (default PNone t)); simpl; [ | split; discriminate];
    destruct (as_int (default (PInt (parent_level + 1)) l)) as [lv | ] eqn:Hlv;
    [ destruct (lv <? 0) eqn:Hneg;
      [ rewrite (Hlevel' _ eq_refl Hneg) | rewrite (Hlevel _ eq_refl Hneg) ]
    | rewrite (Hnone eq_refl) ];
    simpl; split; congruence.
Qed.

Lemma validate_items_valid items :
  validate_items items (-1) = inr None <-> forallb valid_item items = true.
Proof.
  apply validate_items_valid_of; [ | lia].
  apply Forall_forall. intros item _. apply validate_item_valid.
Qed.

(** On content that passes the validation, [flatten_content] raises nothing
    and appends the pre-order sequence of the specification. *)
Lemma flatten_content_spec_of items :
  Forall (fun item => valid_item item = true ->
            forall parent_level acc,
              flatten_item item parent_level acc
              = inr (acc ++ flatten_spec item parent_level)) items ->
  forallb valid_item items = true ->
  forall parent_level acc,
    flatten_content items parent_level acc
    = inr (acc ++ flat_map (fun item => flatten_spec item parent_level) items).
Proof.
  induction 1 as [ | item rest Hitem _ IH]; intros Hvalid parent_level acc; simpl.
  - by rewrite app_nil_r.
  - simpl in Hvalid. apply andb_true_iff in Hvalid as [Hv Hvs].
    rewrite (Hitem Hv), (IH Hvs). by rewrite <- app_assoc.
Qed.

Lemma flatten_item_spec item :
  valid_item item = true ->
  forall parent_level acc,
    flatten_item item parent_level acc = inr (acc ++ flatten_spec item parent_level).
Proof.
  induction item as [item IH] using item_ind. intros Hvalid parent_level acc.
  destruct item as [ | b | z | q | s | l | t l h c]; try discriminate.
  cbn [valid_item] in Hvalid.
  apply andb_true_iff in Hvalid as [Hvalid Hchildren].
  apply andb_true_iff in Hvalid as [_ Hlevel].
  assert (Hlv : as_int (default (PInt (parent_level + 1)) l)
                = Some (default (parent_level + 1) (l ≫= as_int))).
  { destruct l as [v | ]; [ | reflexivity]. simpl in *.
    by destruct (as_int v). }
  destruct c as [[ | b | z | q | s | children | t' l' h' c'] | ]; try discriminate.
  - rewrite flatten_item_children, Hlv.
    rewrite (flatten_content_spec_of children (IH _ _ _ _ eq_refl) Hchildren).
    cbn [flatten_spec]. by rewrite <- app_assoc.
  - cbn [flatten_item flatten_spec]. by rewrite Hlv.
Qed.

Lemma flatten_content_spec items parent_level acc :
  forallb valid_item items = true ->
  flatten_content items parent_level acc
  = inr (acc ++ flat_map (fun item => flatten_spec item parent_level) items).
Proof.
  intros Hvalid. apply flatten_content_spec_of; [ | exact Hvalid].
  apply Forall_forall. intros item _. apply flatten_item_spec.
Qed.

(** C5, as the code has it: in [create_page] content with an item that is
    not a dict, a text that is not a string, a level that is negative or not
    an integer or children that are not a list is answered with a failure
    result and no request to create a block is made; the request that finds
    or creates the page has been made by then (unless setting up the session
    raised).  An empty text passes the validation, and an empty outline is
    treated like absent content. *)
Theorem C5_create_page_validates_after_page_lookup
    {world} (api : Api world) (title : string) (items : list pyobj) (w : world) :
  title <> "" ->
  forallb valid_item items = false ->
  let run := create_page api title (PList items) w in
  ((exists e, result_of run = inl e /\ trace_of run = [EvSession (inl e)])
   \/ (exists o error,
         result_of run = inr (failure error)
         /\ trace_of run = [EvSession (inr ()); EvFindOrCreatePage title o]))
  /\ validate_items [PDict (Some (PStr "")) None None None] (-1) = inr None
  /\ create_page api title (PList []) w = create_page api title PNone w.
Proof.
  intros Htitle Hinvalid run. split; [ | split; reflexivity].
  assert (Hval : validate_items items (-1) <> inr None).
  { rewrite validate_items_valid. congruence. }
  assert (Htruthy : truthy (PList items) = true).
  { destruct items; [discriminate | reflexivity]. }
  subst run. unfold create_page, result_of, trace_of.
  apply String.eqb_neq in Htitle. rewrite Htitle, Htruthy.
  unfold bind, try_except, session, call, except_failure, ret. simpl.
  destruct (get_session_and_headers api w) as [[e | []] w1]; simpl.
  { left. by exists e. }
  right.
  destruct (find_or_create_page api title w1) as [[e | page_uid] w2]; simpl.
  { by exists (inl e), (exn_str e). }
  destruct (validate_items items (-1)) as [e | [error | ]]; simpl.
  - by exists (inr page_uid), (exn_str e).
  - by exists (inr page_uid), ("Invalid content structure - " +:+ error).
  - congruence.
Qed.

Lemma C5_create_page_validates_after_page_lookup_witness :
  "T" <> ""
  /\ forallb valid_item [item "A" (-1)] = false
  /\ exists o error,
       result_of (create_page (script_api []) "T" (PList [item "A" (-1)]) (Script [] []))
       = inr (failure error)
       /\ trace_of (create_page (script_api []) "T" (PList [item "A" (-1)]) (Script [] []))
          = [EvSession (inr ()); EvFindOrCreatePage "T" o].
Proof.
  split; [discriminate | ]. split; [reflexivity | ].
  destruct (C5_create_page_validates_after_page_lookup
              (script_api []) "T" [item "A" (-1)] (Script [] []))
    as [[(e & He & _) | Hreject] _].
  - discriminate.
  - reflexivity.
  - discriminate He.
  - exact Hreject.
Defined.

(** C5 as stated fails on [create_page]: a negative level is rejected only
    after the page has been looked up or created; an empty outline is a
    success; an empty text is accepted and its block is created. *)
Lemma C5_counterexample :
  let negative := create_page (script_api []) "T" (PList [item "A" (-1)]) (Script ["a"] []) in
  let empty := create_page (script_api []) "T" (PList []) (Script ["a"] []) in
  let blank := create_page (script_api []) "T" (PList [item "" 0]) (Script ["a"] []) in
  (returned negative "success" = Some (RBool false)
   /\ trace_of negative = [EvSession (inr ()); EvFindOrCreatePage "T" (inr "T")])
  /\ (returned empty "success" = Some (RBool true)
      /\ trace_of empty = [EvSession (inr ()); EvFindOrCreatePage "T" (inr "T")])
  /\ (returned blank "success" = Some (RBool true)
      /\ batches (trace_of blank) = [[block "T" "" "a"]]).
Proof. repeat split; reflexivity. Qed.

(** ** Depth gaps, table entries and dropped identifiers on concrete runs *)

(** C3 as stated fails: with items at levels 0 and 2 only, the item of level
    2 is attached to the root, not to the block of level 0. *)
Lemma C3_counterexample :
  batches (trace_of (create_page (script_api []) "ROOT1"
                       (PList [item "A" 0; item "D" 2]) (Script ["a"; "d"] [])))
  = [[block "ROOT1" "A" "a"]; [block "ROOT1" "D" "d"]]
  /\ batches (trace_of (create_outline (script_api [])
                          (PList [item "A" 0; item "D" 2]) (Some "ROOT1") None
                          (Script ["a"; "d"] [])))
     = [[block "ROOT1" "A" "a"]; [block "ROOT1" "D" "d"]].
Proof. split; reflexivity. Qed.

(** C6 as stated fails: the store returns the identifiers "a1" and "a2" for
    the two blocks of level 0, and the block of level 1 is attached to "y",
    the uid generated locally for the second block. *)
Lemma C6_counterexample :
  let run := create_page (script_api []) "ROOT1"
               (PList [item "X" 0; item "Y" 0; item "Z" 1])
               (Script ["x"; "y"; "z"] [inr (write_uids ["a1"; "a2"])]) in
  batches (trace_of run)
  = [[block "ROOT1" "X" "x"; block "ROOT1" "Y" "y"]; [block "y" "Z" "z"]]
  /\ returned run "created_uids" = Some (RUids ["a1"; "a2"; "z"]).
Proof. split; reflexivity. Qed.

(** C1 (a batch whose response reports failure stops the driver, which
    returns [success = False] with the identifiers of the levels before it)
    is broken by the four level drivers.  The store answers the batch of
    level 1 with a response that reports failure and carries no identifier.
    Each driver submits the batch of level 2 all the same, in [create_page],
    [create_block] and [create_outline] under "b", the block the store has
    just refused, and returns [success = True] with the identifiers of
    levels 0 and 2.  The code next to them does look at such a response:
    [add_todos] and [create_block] on a single line answer it with a
    failure, and [create_nested_blocks] does not list the block. *)
Theorem C1_failure_response_is_ignored :
  let outline := [item "A" 0; item "B" 1; item "C" 2] in
  let markdown := "- A" +:+ newline +:+ "  - B" +:+ newline +:+ "    - C" in
  let store := Script ["a"; "b"; "c"] [inr write_ok; inr write_failed; inr write_ok] in
  let page := create_page (script_api []) "ROOT1" (PList outline) store in
  let multi_line := create_block (script_api outline) markdown (Some "ROOT1") None store in
  let outlined := create_outline (script_api []) (PList outline) (Some "ROOT1") None store in
  let imported := import_markdown (script_api outline) markdown (Some "ROOT1") None None None
                    "last" store in
  let refused := Script ["u"] [inr write_failed] in
  (trace_of page
   = [EvSession (inr ()); EvFindOrCreatePage "ROOT1" (inr "ROOT1");
      EvWrite (Batch [block "ROOT1" "A" "a"]) (inr write_ok); EvSleep 500;
      EvWrite (Batch [block "a" "B" "b"]) (inr write_failed); EvSleep 500;
      EvWrite (Batch [block "b" "C" "c"]) (inr write_ok); EvSleep 500]
   /\ returned page "success" = Some (RBool true)
   /\ returned page "created_uids" = Some (RUids ["a"; "c"]))
  /\ (trace_of multi_line
      = [EvSession (inr ());
         EvWrite (Batch [block "ROOT1" "A" "a"]) (inr write_ok); EvSleep 500;
         EvWrite (Batch [block "a" "B" "b"]) (inr write_failed); EvSleep 500;
         EvWrite (Batch [block "b" "C" "c"]) (inr write_ok); EvSleep 500]
      /\ returned multi_line "success" = Some (RBool true)
      /\ returned multi_line "created_uids" = Some (RUids ["a"; "c"]))
  /\ (trace_of outlined
      = [EvSession (inr ()); EvFindPageByTitle "ROOT1" (inr (Some "ROOT1"));
         EvWrite (Batch [block "ROOT1" "A" "a"]) (inr write_ok); EvSleep 500;
         EvWrite (Batch [block "a" "B" "b"]) (inr write_failed); EvSleep 500;
         EvWrite (Batch [block "b" "C" "c"]) (inr write_ok); EvSleep 500]
      /\ returned outlined "success" = Some (RBool true)
      /\ returned outlined "created_uids" = Some (RUids ["a"; "c"]))
  /\ (trace_of imported
      = [EvSession (inr ());
         EvWrite (Batch [block "ROOT1" "A" "a"]) (inr write_ok); EvSleep 500;
         EvWrite (Batch [block "ROOT1" "B" "b"]) (inr write_failed); EvSleep 500;
         EvWrite (Batch [block "ROOT1" "C" "c"]) (inr write_ok); EvSleep 500]
      /\ returned imported "success" = Some (RBool true)
      /\ returned imported "created_uids" = Some (RUids ["a"; "c"]))
  /\ returned (add_todos (script_api []) (PList [PStr "T"]) refused) "success"
     = Some (RBool false)
  /\ returned (create_block (script_api []) "T" (Some "ROOT1") None refused) "success"
     = Some (RBool false)
  /\ returned (create_nested_blocks (script_api []) (PList [item "T" 0]) "ROOT1" refused)
       "created_uids"
     = Some (RUids []).
Proof. repeat split; reflexivity. Qed.

(** C4 (a failing call still returns the identifiers created before the
    failure) is broken by [create_page]: the batch of level 0 succeeds and
    creates "a", the batch of level 1 raises, and the result carries the
    error and no ["created_uids"] at all. *)
Theorem C4_create_page_drops_created_uids :
  let run := create_page (script_api []) "ROOT1"
               (PList [item "A" 0; item "B" 1])
               (Script ["a"; "b"]
                  [inr write_ok; inl (Exception "TransactionError" "write failed")]) in
  trace_of run
  = [EvSession (inr ()); EvFindOrCreatePage "ROOT1" (inr "ROOT1");
     EvWrite (Batch [block "ROOT1" "A" "a"]) (inr write_ok); EvSleep 500;
     EvWrite (Batch [block "a" "B" "b"])
       (inl (Exception "TransactionError" "write failed"))]
  /\ result_of run = inr (failure "write failed")
  /\ returned run "created_uids" = None.
Proof. repeat split; reflexivity. Qed.

(** Even [create_nested_blocks] loses identifiers: "Y" is created under "X",
    its sibling "Z" raises, the recursive call reports the failure together
    with "y", and the caller keeps neither; when the next top-level block
    raises too, the failure result lists "x" only. *)
Lemma create_nested_blocks_drops_children_uids :
  let boom := Exception "TransactionError" "write failed" in
  let run := create_nested_blocks (script_api [])
               (PList [PDict (Some (PStr "X")) (Some (PInt 0)) None
                         (Some (PList [item "Y" 0; item "Z" 0]));
                       item "W" 0])
               "R"
               (Script ["x"; "y"; "z"; "w"] [inr write_ok; inr write_ok; inl boom; inl boom]) in
  singles (trace_of run)
  = [block "R" "X" "x"; block "x" "Y" "y"; block "x" "Z" "z"; block "R" "W" "w"]
  /\ created_in (trace_of run) = ["x"; "y"]
  /\ returned run "success" = Some (RBool false)
  /\ returned run "created_uids" = Some (RUids ["x"]).
Proof. repeat split; reflexivity. Qed.

(** ** The batch driver, one level at a time *)

Section DriverFacts.
Context {world : Type}.
Variable api : Api world.
Variables (e : entry) (order : string) (level_items : gmap Z (list flat)) (root : string).

Lemma build_level_cons level item rest lpm batch uids w :
  build_level api e order level_items root level (item :: rest) lpm batch uids w
  = match heading_for e (f_heading_level item) with
    | inl ex => (inl ex, (uuid4_9 api w).2, [])
    | inr heading =>
        build_level api e order level_items root level rest
          (store_temporary_parent e lpm level (uuid4_9 api w).1)
          (batch ++ [Action (parent_for e level_items lpm root level)
                            (order_for e order level) (f_text item)
                            (uuid4_9 api w).1 heading])
          (uids ++ [(uuid4_9 api w).1])
          (uuid4_9 api w).2
    end.
Proof.
  simpl. unfold bind, uuid, lift, raise, ret.
  destruct (uuid4_9 api w) as [u w1]. simpl.
  destruct (heading_for e (f_heading_level item)) as [ex | heading]; [reflexivity | ].
  destruct (build_level _ _ _ _ _ _ _ _ _ _ _) as [[o w2] tr]. reflexivity.
Qed.

(** Building a batch calls nothing but [uuid4]. *)
Lemma build_level_trace level items :
  forall lpm batch uids w,
    trace_of (build_level api e order level_items root level items lpm batch uids w) = [].
Proof.
  induction items as [ | item rest IH]; intros lpm batch uids w; [reflexivity | ].
  rewrite build_level_cons.
  destruct (heading_for e (f_heading_level item)); [reflexivity | apply IH].
Qed.

(** [import_markdown] overwrites an entry of the table while it builds the
    batch of a level, which changes the parent of the items of that very
    batch only at level -1. *)
Lemma parent_for_store_temporary lpm level u :
  level <> -1 ->
  parent_for e level_items (store_temporary_parent e lpm level u) root level
  = parent_for e level_items lpm root level.
Proof.
  intros Hlevel. destruct e; try reflexivity.
  unfold store_temporary_parent, parent_for.
  destruct (lpm !! level) eqn:Hin; [ | reflexivity].
  destruct (level - 1 <? -1) eqn:Hlt; rewrite lookup_insert_ne; (reflexivity || lia).
Qed.

Lemma store_temporary_parent_other lpm level u k :
  k <> level -> store_temporary_parent e lpm level u !! k = lpm !! k.
Proof.
  intros Hk. unfold store_temporary_parent. destruct e; try reflexivity.
  destruct (lpm !! level); [ | reflexivity]. by rewrite lookup_insert_ne.
Qed.

Lemma store_temporary_parent_None lpm level u k :
  lpm !! k = None -> store_temporary_parent e lpm level u !! k = None.
Proof.
  intros Hk. unfold store_temporary_parent. destruct e; try assumption.
  destruct (lpm !! level) eqn:Hl; [ | assumption].
  rewrite lookup_insert_ne; [assumption | congruence].
Qed.

(** What a batch that has been built looks like: one action per item with
    its text, the uids drawn from [uuid4] in order, all attached to the
    parent resolved for the level. *)
Lemma build_level_spec level items :
  forall lpm batch uids w batch' uids' lpm' w' tr,
    build_level api e order level_items root level items lpm batch uids w
    = (inr (batch', uids', lpm'), w', tr) ->
    exists new,
      batch' = batch ++ new
      /\ uids' = uids ++ map a_uid new
      /\ map a_uid new = generated_uids api (length items) w
      /\ map a_string new = map f_text items
      /\ (e <> ImportMarkdown -> lpm' = lpm)
      /\ (forall k, k <> level -> lpm' !! k = lpm !! k)
      /\ (forall k, lpm !! k = None -> lpm' !! k = None)
      /\ (level <> -1 ->
          Forall (fun a => a_parent_uid a = parent_for e level_items lpm root level) new).
Proof.
  induction items as [ | item rest IH]; intros lpm batch uids w batch' uids' lpm' w' tr Hrun.
  - injection Hrun as <- <- <- <- <-. exists []. rewrite !app_nil_r. by repeat split.
  - rewrite build_level_cons in Hrun.
    destruct (heading_for e (f_heading_level item)) as [ex | heading]; [discriminate | ].
    apply IH in Hrun as (new & -> & -> & Huids & Htexts & Hsame & Hother & Hnone & Hparents).
    eexists (_ :: new). rewrite <- !app_assoc. simpl.
    split; [reflexivity | ]. split; [reflexivity | ].
    split; [by rewrite Huids | ]. split; [by rewrite Htexts | ].
    split; [ | split; [ | split]].
    + intros He. rewrite (Hsame He). by destruct e.
    + intros k Hk. rewrite (Hother k Hk). by apply store_temporary_parent_other.
    + intros k Hk. apply Hnone. by apply store_temporary_parent_None.
    + intros Hlevel. constructor; [reflexivity | ].
      rewrite <- (parent_for_store_temporary lpm level (uuid4_9 api w).1 Hlevel).
      by apply Hparents.
Qed.

Lemma extend_created_app created r uids :
  extend_created created r uids = created ++ extend_created [] r uids.
Proof.
  unfold extend_created. destruct (wr_created_uids r); [reflexivity | ].
  destruct (wr_success r); [reflexivity | by rewrite app_nil_r].
Qed.

Lemma process_level_outcome created lpm level w :
  level_outcome api e order level_items root created lpm level w
    (process_level api e order level_items root (created, lpm) level w).
Proof.
  unfold process_level, bind.
  pose proof (build_level_trace level (default [] (level_items !! level)) lpm [] [] w) as Htr.
  destruct (build_level _ _ _ _ _ _ _ _ _ _ _) as [[[ex | [[batch uids] lpm1]] w1] tr] eqn:Hbuild;
    unfold trace_of in Htr; simpl in Htr; subst tr.
  - apply LevelNotBuilt. by rewrite Hbuild.
  - destruct batch as [ | a batch].
    + eapply LevelEmpty. exact Hbuild.
    + unfold write, call, sleep, emit, ret.
      destruct (execute_write_action api (Batch (a :: batch)) w1) as [[ex | r] w2] eqn:Hwrite;
        simpl.
      * eapply LevelRaised; eauto.
      * eapply LevelAnswered; eauto.
Qed.
End DriverFacts.

(** ** Reconciliation and the table entry of a level *)

(** A level with items is answered or raises; when it is answered the
    batch has one action per item, carrying the uids generated locally. *)
Lemma process_level_answered {world} (api : Api world) e order level_items root
    created lpm level w created' lpm' w' tr :
  process_level api e order level_items root (created, lpm) level w
  = (inr (created', lpm'), w', tr) ->
  default [] (level_items !! level) <> [] ->
  exists batch uids lpm1 w1 result,
    build_level api e order level_items root level
      (default [] (level_items !! level)) lpm [] [] w
    = (inr (batch, uids, lpm1), w1, [])
    /\ tr = [EvWrite (Batch batch) (inr result); EvSleep 500]
    /\ created' = extend_created created result uids
    /\ lpm' = store_level_parent e lpm1 level uids
    /\ uids = map a_uid batch
    /\ map a_uid batch
       = generated_uids api (length (default [] (level_items !! level))) w.
Proof.
  intros Hrun Hitems.
  pose proof (process_level_outcome api e order level_items root created lpm level w) as Hout.
  rewrite Hrun in Hout.
  inversion Hout as [ | | batch uids lpm1 w1 w2 r Hbuild Hbatch Hwrite
                      | uids lpm1 w1 Hbuild ]; subst.
  - pose proof Hbuild as Hspec.
    apply build_level_spec in Hspec as (new & Hbatch' & Huids' & Huids & _).
    simpl in Hbatch', Huids'. subst batch uids.
    exists new, (map a_uid new), lpm1, w1, r. by repeat split.
  - apply build_level_spec in Hbuild as (new & Hnew & _ & Huids & _).
    symmetry in Hnew. apply app_eq_nil in Hnew as [_ ->].
    destruct (default [] (level_items !! level)); [congruence | discriminate].
Qed.

(** C7: a batch that is answered adds to [created_uids] the identifiers
    the response carries if it carries any, and otherwise, if the response
    reports success, the uids generated locally for the batch; never both. *)
Theorem C7_reconciliation {world} (api : Api world) e order level_items root
    created lpm level w created' lpm' w' tr :
  process_level api e order level_items root (created, lpm) level w
  = (inr (created', lpm'), w', tr) ->
  default [] (level_items !! level) <> [] ->
  exists batch result,
    tr = [EvWrite (Batch batch) (inr result); EvSleep 500]
    /\ map a_uid batch
       = generated_uids api (length (default [] (level_items !! level))) w
    /\ (forall uids, wr_created_uids result = Some uids -> created' = created ++ uids)
    /\ (wr_created_uids result = None -> wr_success result = true ->
        created' = created ++ map a_uid batch)
    /\ (wr_created_uids result = None -> wr_success result = false ->
        created' = created).
Proof.
  intros Hrun Hitems.
  destruct (process_level_answered _ _ _ _ _ _ _ _ _ _ _ _ _ Hrun Hitems)
    as (batch & uids & lpm1 & w1 & result & _ & -> & -> & _ & -> & Hgen).
  exists batch, result. unfold extend_created.
  repeat split; try assumption.
  - by intros uids ->.
  - by intros -> ->.
  - by intros -> ->.
Qed.

Lemma C7_reconciliation_witness :
  exists batch result,
    [EvWrite (Batch [block "R" "X" "x"; block "R" "Y" "y"]) (inr (write_uids ["a1"; "a2"]));
     EvSleep 500]
    = [EvWrite (Batch batch) (inr result); EvSleep 500]
    /\ map a_uid batch
       = generated_uids (script_api []) (length (default [] (level_items_XY !! 0)))
           (Script ["x"; "y"] [inr (write_uids ["a1"; "a2"])])
    /\ (forall uids, wr_created_uids result = Some uids -> ["a1"; "a2"] = [] ++ uids)
    /\ (wr_created_uids result = None -> wr_success result = true ->
        ["a1"; "a2"] = [] ++ map a_uid batch)
    /\ (wr_created_uids result = None -> wr_success result = false ->
        ["a1"; "a2"] = []).
Proof.
  apply (C7_reconciliation (script_api []) CreatePage "last" level_items_XY "R"
           [] {[ -1 := "R" ]} 0 (Script ["x"; "y"] [inr (write_uids ["a1"; "a2"])])
           ["a1"; "a2"] (<[0 := "y"]> {[ -1 := "R" ]}) (Script [] [])).
  - reflexivity.
  - discriminate.
Defined.

(** C6, as the code has it: after the batch of a level has been answered,
    whatever identifiers the response carries, the table entry of the level
    is the uid generated locally for the last item of the batch, and the
    items of the next level are attached to it.  ([import_markdown] writes
    no entry at all.) *)
Theorem C6_table_entry_is_last_generated_uid {world} (api : Api world)
    e order level_items root created lpm level w created' lpm' w' tr :
  e <> ImportMarkdown ->
  0 <= level ->
  default [] (level_items !! level) <> [] ->
  process_level api e order level_items root (created, lpm) level w
  = (inr (created', lpm'), w', tr) ->
  exists batch result,
    tr = [EvWrite (Batch batch) (inr result); EvSleep 500]
    /\ map a_uid batch
       = generated_uids api (length (default [] (level_items !! level))) w
    /\ lpm' !! level = last (map a_uid batch)
    /\ Some (parent_for e level_items lpm' root (level + 1)) = last (map a_uid batch).
Proof.
  intros He Hlevel Hitems Hrun.
  destruct (process_level_answered _ _ _ _ _ _ _ _ _ _ _ _ _ Hrun Hitems)
    as (batch & uids & lpm1 & w1 & result & Hbuild & -> & _ & -> & -> & Hgen).
  exists batch, result. split; [reflexivity | ]. split; [exact Hgen | ].
  assert (Hlast : exists u, last (map a_uid batch) = Some u).
  { destruct (default [] (level_items !! level)) as [ | it rest]; [congruence | ].
    simpl in Hgen. destruct (map a_uid batch) as [ | u us] eqn:Hmap; [discriminate | ].
    rewrite <- Hmap. destruct (last (map a_uid batch)) as [u' | ] eqn:Hl; [by eexists | ].
    apply last_None in Hl. congruence. }
  destruct Hlast as [u Hu].
  assert (Hentry : store_level_parent e lpm1 level (map a_uid batch) !! level = Some u).
  { unfold store_level_parent. rewrite Hu.
    destruct e; try congruence; apply lookup_insert_eq. }
  split; [by rewrite Hentry, Hu | ].
  rewrite Hu. f_equal. unfold parent_for.
  replace (level + 1 - 1) with level by lia. rewrite Hentry.
  destruct e; try congruence.
  - destruct (level <? -1) eqn:Hlt; [lia | ]. by rewrite Hentry.
  - destruct (level <? -1) eqn:Hlt; [lia | ]. by rewrite Hentry.
  - destruct (level <? 0) eqn:Hlt; [lia | ].
    destruct (default [] (level_items !! level)); [congruence | ].
    destruct (0 <=? _) eqn:Hidx; [reflexivity | ].
    apply Z.leb_gt in Hidx. rewrite length_cons in Hidx. lia.
Qed.

Lemma C6_table_entry_is_last_generated_uid_witness :
  exists batch result,
    [EvWrite (Batch [block "R" "X" "x"; block "R" "Y" "y"]) (inr (write_uids ["a1"; "a2"]));
     EvSleep 500]
    = [EvWrite (Batch batch) (inr result); EvSleep 500]
    /\ map a_uid batch
       = generated_uids (script_api []) (length (default [] (level_items_XY !! 0)))
           (Script ["x"; "y"] [inr (write_uids ["a1"; "a2"])])
    /\ (<[0 := "y"]> ({[ -1 := "R" ]} : gmap Z string)) !! 0 = last (map a_uid batch)
    /\ Some (parent_for CreatePage level_items_XY (<[0 := "y"]> {[ -1 := "R" ]}) "R" (0 + 1))
       = last (map a_uid batch).
Proof.
  apply (C6_table_entry_is_last_generated_uid (script_api []) CreatePage "last"
           level_items_XY "R" [] {[ -1 := "R" ]} 0
           (Script ["x"; "y"] [inr (write_uids ["a1"; "a2"])])
           ["a1"; "a2"] (<[0 := "y"]> {[ -1 := "R" ]}) (Script [] [])).
  - discriminate.
  - lia.
  - discriminate.
  - reflexivity.
Defined.

(** ** The loop over the levels *)

Section LevelsFacts.
Context {world : Type}.
Variable api : Api world.
Variables (e : entry) (order : string) (level_items : gmap Z (list flat)) (root : string).

Lemma process_levels_cons level rest state w :
  process_levels api e order level_items root (level :: rest) state w
  = match process_level api e order level_items root state level w with
    | (inl ex, w1, t1) => (inl ex, w1, t1)
    | (inr state1, w1, t1) =>
        match process_levels api e order level_items root rest state1 w1 with
        | (o, w2, t2) => (o, w2, t1 ++ t2)
        end
    end.
Proof. reflexivity. Qed.

(** A level leaves alone the table entries of the other levels that are
    not set. *)
Lemma process_level_unset created lpm level w created' lpm' w' tr k :
  process_level api e order level_items root (created, lpm) level w
  = (inr (created', lpm'), w', tr) ->
  k <> level -> lpm !! k = None -> lpm' !! k = None.
Proof.
  intros Hrun Hk Hunset.
  pose proof (process_level_outcome api e order level_items root created lpm level w) as Hout.
  rewrite Hrun in Hout.
  inversion Hout as [ | | batch uids lpm1 w1 w2 r Hbuild Hbatch Hwrite
                      | uids lpm1 w1 Hbuild ]; subst;
    apply build_level_spec in Hbuild as (new & _ & _ & _ & _ & _ & _ & Hnone & _).
  - unfold store_level_parent. destruct e, (last uids);
      rewrite ?lookup_insert_ne by congruence; by apply Hnone.
  - by apply Hnone.
Qed.

Lemma process_levels_unset levels :
  forall created lpm w created' lpm' w' tr k,
    process_levels api e order level_items root levels (created, lpm) w
    = (inr (created', lpm'), w', tr) ->
    k ∉ levels -> lpm !! k = None -> lpm' !! k = None.
Proof.
  induction levels as [ | level rest IH]; intros created lpm w created' lpm' w' tr k Hrun Hk Hunset.
  - by injection Hrun as <- <- <- <-.
  - rewrite process_levels_cons in Hrun.
    destruct (process_level _ _ _ _ _ _ _ _) as [[[ex | [created1 lpm1]] w1] t1] eqn:Hlevel;
      [discriminate | ].
    destruct (process_levels _ _ _ _ _ _ _ _) as [[o w2] t2] eqn:Hrest.
    injection Hrun as -> <- <-.
    apply not_elem_of_cons in Hk as [Hk Hk'].
    eapply IH; [exact Hrest | exact Hk' | ].
    eapply process_level_unset; eauto.
Qed.

(** The run of the loop: when it ends normally no call has raised, every
    level with items has had its batch submitted, and [created_uids] has
    grown by what each response contributed; when it ends with an exception,
    no call before the last one has raised, and if a call has raised it is
    the batch submitted last. *)
Lemma process_levels_run levels :
  Forall (fun level => default [] (level_items !! level) <> []) levels ->
  forall created lpm w,
    match process_levels api e order level_items root levels (created, lpm) w with
    | (inr (created', lpm'), w', tr) =>
        Forall (fun ev => raised ev = false) tr
        /\ created' = created ++ flat_map contribution tr
        /\ length (batches tr) = length levels
    | (inl ex, w', tr) =>
        exists pre,
          Forall (fun ev => raised ev = false) pre
          /\ (length (batches pre) < length levels)%nat
          /\ (tr = pre \/ exists b, tr = pre ++ [EvWrite (Batch b) (inl ex)])
    end.
Proof.
  induction 1 as [ | level rest Hitems _ IH]; intros created lpm w.
  - simpl. split; [constructor | ]. split; [by rewrite app_nil_r | reflexivity].
  - rewrite process_levels_cons.
    pose proof (process_level_outcome api e order level_items root created lpm level w) as Hout.
    destruct (process_level _ _ _ _ _ _ _ _) as [[[ex | [created1 lpm1]] w1] t1] eqn:Hlevel.
    + inversion Hout; subst.
      * exists []. split; [constructor | ]. split; [simpl; lia | by left].
      * exists []. split; [constructor | ]. split; [simpl; lia | right; by eexists].
    + destruct (process_level_answered _ _ _ _ _ _ _ _ _ _ _ _ _ Hlevel Hitems)
        as (batch & uids & lpm0 & w0 & result & _ & -> & -> & _ & -> & _).
      specialize (IH (extend_created created result (map a_uid batch)) lpm1 w1).
      destruct (process_levels _ _ _ _ _ _ _ _) as [[[ex | [created2 lpm2]] w2] t2].
      * destruct IH as (pre & Hquiet & Hcount & Htr).
        exists ([EvWrite (Batch batch) (inr result); EvSleep 500] ++ pre).
        split; [by repeat constructor | ]. split; [simpl in *; lia | ].
        destruct Htr as [-> | [b ->]]; [by left | right].
        exists b. by rewrite <- app_assoc.
      * destruct IH as (Hquiet & -> & Hcount).
        split; [by repeat constructor | ]. split; [ | simpl in *; lia].
        rewrite extend_created_app, <- app_assoc. f_equal.
Qed.
End LevelsFacts.

(** ** Grouping *)

Lemma add_to_level_nonempty (m : gmap Z (list flat)) item :
  (forall level bucket, m !! level = Some bucket -> bucket <> []) ->
  forall level bucket, add_to_level m item !! level = Some bucket -> bucket <> [].
Proof.
  intros Hm level bucket. unfold add_to_level.
  destruct (decide (f_level item = level)) as [-> | Hne].
  - rewrite lookup_insert_eq. intros [= <-].
    intros [_ Hnil]%app_eq_nil. discriminate.
  - rewrite lookup_insert_ne by exact Hne. apply Hm.
Qed.

(** Every level of [level_items] has at least one item. *)
Lemma group_by_level_nonempty items level bucket :
  group_by_level items !! level = Some bucket -> bucket <> [].
Proof.
  unfold group_by_level.
  assert (Hgen : forall m : gmap Z (list flat),
             (forall level bucket, m !! level = Some bucket -> bucket <> []) ->
             forall level bucket,
               foldl add_to_level m items !! level = Some bucket -> bucket <> []).
  { induction items as [ | item rest IH]; intros m Hm; [exact Hm | ].
    simpl. apply IH. by apply add_to_level_nonempty. }
  apply Hgen. intros l b. by rewrite lookup_empty.
Qed.

Lemma sorted_keys_elem (m : gmap Z (list flat)) level :
  level ∈ sorted_keys m <-> is_Some (m !! level).
Proof.
  unfold sorted_keys. rewrite merge_sort_Permutation, elem_of_elements.
  apply elem_of_dom.
Qed.

(** The levels are processed in strictly ascending order. *)
Lemma sorted_keys_sorted (m : gmap Z (list flat)) :
  Sorted Z.le (sorted_keys m) /\ NoDup (sorted_keys m).
Proof.
  unfold sorted_keys. split.
  - apply Sorted_merge_sort. intros x y. lia.
  - rewrite merge_sort_Permutation. apply NoDup_elements.
Qed.

Lemma sorted_keys_nonempty items :
  Forall (fun level => default [] (group_by_level items !! level) <> [])
         (sorted_keys (group_by_level items)).
Proof.
  apply Forall_forall. intros level [bucket Hbucket]%sorted_keys_elem.
  rewrite Hbucket. simpl. by eapply group_by_level_nonempty.
Qed.

(** The run of the driver of an entry point. *)
Lemma synchronize_run {world} (api : Api world) e order root items w :
  match synchronize api e order root items w with
  | (inr created, w', tr) =>
      Forall (fun ev => raised ev = false) tr
      /\ created = flat_map contribution tr
      /\ length (batches tr) = length (sorted_keys (group_by_level items))
  | (inl ex, w', tr) =>
      exists pre,
        Forall (fun ev => raised ev = false) pre
        /\ (length (batches pre) < length (sorted_keys (group_by_level items)))%nat
        /\ (tr = pre \/ exists b, tr = pre ++ [EvWrite (Batch b) (inl ex)])
  end.
Proof.
  unfold synchronize, bind, ret.
  pose proof (process_levels_run api e order (group_by_level items) root _
                (sorted_keys_nonempty items) [] {[ -1 := root ]} w) as Hrun.
  destruct (process_levels _ _ _ _ _ _ _ _) as [[[ex | [created lpm]] w'] tr];
    [exact Hrun | ].
  simpl. rewrite app_nil_r. exact Hrun.
Qed.

(** A raising batch call is the last event of the run of the driver, which
    ends with its exception. *)
Lemma synchronize_raise_last {world} (api : Api world) e order root items w b ex :
  EvWrite (Batch b) (inl ex) ∈ trace_of (synchronize api e order root items w) ->
  exists pre,
    trace_of (synchronize api e order root items w) = pre ++ [EvWrite (Batch b) (inl ex)]
    /\ result_of (synchronize api e order root items w) = inl ex.
Proof.
  intros Hin. pose proof (synchronize_run api e order root items w) as Hrun.
  destruct (synchronize api e order root items w) as [[[ex' | created] w'] tr];
    unfold trace_of, result_of in *; simpl in *.
  - destruct Hrun as (pre & Hquiet & _ & [-> | [b' ->]]).
    + rewrite Forall_forall in Hquiet. by apply Hquiet in Hin.
    + apply elem_of_app in Hin as [Hin | Hin].
      * rewrite Forall_forall in Hquiet. by apply Hquiet in Hin.
      * apply list_elem_of_singleton in Hin. injection Hin as -> ->. by exists pre.
  - destruct Hrun as (Hquiet & _). rewrite Forall_forall in Hquiet.
    by apply Hquiet in Hin.
Qed.

(** ** create_page around the driver *)

(** A call of [create_page] either submits no batch at all and returns a
    result without ["created_uids"], or reaches the driver with the sorted
    flattened content; an exception of the driver becomes a failure result. *)
Lemma create_page_cases {world} (api : Api world) title content w :
  (Forall (fun ev => is_write ev = false) (trace_of (create_page api title content w))
   /\ returned (create_page api title content w) "created_uids" = None)
  \/ exists items flattened page_uid w2,
       iter_items content = inr items
       /\ flatten_content items (-1) [] = inr flattened
       /\ create_page api title content w
          = match synchronize api CreatePage "last" page_uid (sort_by_level flattened) w2 with
            | (inl ex, w3, t) =>
                (inr (failure (exn_str ex)), w3,
                 [EvSession (inr ()); EvFindOrCreatePage title (inr page_uid)] ++ t)
            | (inr created, w3, t) =>
                (inr (page_with_content api page_uid created), w3,
                 [EvSession (inr ()); EvFindOrCreatePage title (inr page_uid)] ++ t)
            end.
Proof.
  unfold create_page, returned, result_of, trace_of.
  destruct (String.eqb title ""); [left; split; [constructor | reflexivity] | ].
  unfold bind, try_except, session, call, except_failure, ret. simpl.
  destruct (get_session_and_headers api w) as [[e | []] w1]; simpl;
    [left; split; [by repeat constructor | reflexivity] | ].
  destruct (find_or_create_page api title w1) as [[e | page_uid] w2]; simpl;
    [left; split; [by repeat constructor | reflexivity] | ].
  destruct (truthy content); simpl;
    [ | left; split; [by repeat constructor | reflexivity]].
  destruct (iter_items content) as [e | items] eqn:Hitems; simpl;
    [left; split; [by repeat constructor | reflexivity] | ].
  destruct (validate_items items (-1)) as [e | [error | ]]; simpl;
    try (left; split; [by repeat constructor | reflexivity]).
  destruct (flatten_content items (-1) []) as [e | flattened] eqn:Hflat; simpl;
    [left; split; [by repeat constructor | reflexivity] | ].
  right. exists items, flattened, page_uid, w2.
  split; [reflexivity | ]. split; [exact Hflat | ].
  destruct (synchronize api CreatePage "last" page_uid (sort_by_level flattened) w2)
    as [[[ex | created] w3] t]; simpl; rewrite ?app_nil_r; reflexivity.
Qed.

(** ** A batch that fails *)

(** What does stop the driver.  In the driver shared by the entry points, a
    batch call that raises is the last event of the run of the driver, which
    ends with that exception: no request for a deeper level follows, and
    [create_page] answers with [success = False] and the message of the
    exception.  A response that merely reports failure does not stop the
    loop: a run that ends without an exception has submitted one batch per
    level and returns, with [success = True], the concatenation in level
    order of what each response contributed, which is nothing for a response
    that reports failure. *)
Lemma raising_batch_ends_the_run {world} (api : Api world) :
  (forall e order root items w,
      let run := synchronize api e order root items w in
      (forall b ex,
          EvWrite (Batch b) (inl ex) ∈ trace_of run ->
          last (trace_of run) = Some (EvWrite (Batch b) (inl ex))
          /\ result_of run = inl ex)
      /\ (forall created,
             result_of run = inr created ->
             length (batches (trace_of run))
             = length (sorted_keys (group_by_level items))
             /\ created = flat_map contribution (trace_of run)))
  /\ (forall title content w,
         let run := create_page api title content w in
         (forall b ex,
             EvWrite (Batch b) (inl ex) ∈ trace_of run ->
             last (trace_of run) = Some (EvWrite (Batch b) (inl ex))
             /\ returned run "success" = Some (RBool false)
             /\ returned run "error" = Some (RStr (exn_str ex)))
         /\ (forall created,
                returned run "created_uids" = Some (RUids created) ->
                returned run "success" = Some (RBool true)
                /\ created = flat_map contribution (trace_of run)
                /\ exists items flattened,
                     iter_items content = inr items
                     /\ flatten_content items (-1) [] = inr flattened
                     /\ length (batches (trace_of run))
                        = length (sorted_keys (group_by_level (sort_by_level flattened))))).
Proof.
  split.
  - intros e order root items w run. split.
    + intros b ex Hin.
      destruct (synchronize_raise_last _ _ _ _ _ _ _ _ Hin) as (pre & Htr & Hres).
      subst run. rewrite Htr. split; [apply last_snoc | exact Hres].
    + intros created Hres. subst run.
      pose proof (synchronize_run api e order root items w) as Hrun.
      destruct (synchronize api e order root items w) as [[[ex | created'] w'] tr];
        [discriminate | ].
      injection Hres as ->. destruct Hrun as (_ & -> & Hcount). by split.
  - intros title content w run. subst run.
    destruct (create_page_cases api title content w)
      as [[Hnowrite Hnokey] | (items & flattened & page_uid & w2 & Hitems & Hflat & ->)].
    { split.
      - intros b ex Hin. rewrite Forall_forall in Hnowrite. by apply Hnowrite in Hin.
      - intros created Hkey. congruence. }
    pose proof (synchronize_run api CreatePage "last" page_uid (sort_by_level flattened) w2)
      as Hrun.
    pose proof (fun b ex => synchronize_raise_last api CreatePage "last" page_uid
                              (sort_by_level flattened) w2 b ex) as Hlast.
    destruct (synchronize api CreatePage "last" page_uid (sort_by_level flattened) w2)
      as [[[ex' | created'] w3] t]; unfold trace_of, result_of, returned in *; simpl in *.
    + split; [ | discriminate].
      intros b ex Hin.
      assert (Hin' : EvWrite (Batch b) (inl ex) ∈ t).
      { apply elem_of_cons in Hin as [Heq | Hin]; [discriminate | ].
        apply elem_of_cons in Hin as [Heq | Hin]; [discriminate | exact Hin]. }
      destruct (Hlast b ex Hin') as (pre & -> & [= ->]).
      split; [ | split; reflexivity].
      change (last (([EvSession (inr ()); EvFindOrCreatePage title (inr page_uid)] ++ pre)
                    ++ [EvWrite (Batch b) (inl ex)]) = Some (EvWrite (Batch b) (inl ex))).
      apply last_snoc.
    + destruct Hrun as (Hquiet & -> & Hcount). split.
      * intros b ex Hin.
        apply elem_of_cons in Hin as [Heq | Hin]; [discriminate | ].
        apply elem_of_cons in Hin as [Heq | Hin]; [discriminate | ].
        rewrite Forall_forall in Hquiet. by apply Hquiet in Hin.
      * intros created [= <-]. split; [reflexivity | ]. split; [reflexivity | ].
        exists items, flattened. by repeat split.
Qed.

(** ** Depth gaps *)

(** C3, as the code has it: parent resolution reads the table entry of
    [level - 1] and nothing else.  When the levels processed so far do not
    include [level - 1] (a depth gap), every item of the level is attached to
    the root, whatever entries lower levels have left in the table. *)
Theorem C3_depth_gap_falls_back_to_root {world} (api : Api world)
    e order level_items root levels level w state w1 tr1 batch uids lpm2 w2 tr2 :
  process_levels api e order level_items root levels ([], {[ -1 := root ]}) w
  = (inr state, w1, tr1) ->
  level - 1 ∉ levels ->
  1 <= level ->
  build_level api e order level_items root level
    (default [] (level_items !! level)) state.2 [] [] w1
  = (inr (batch, uids, lpm2), w2, tr2) ->
  Forall (fun a => a_parent_uid a = root) batch.
Proof.
  intros Hrun Hgap Hlevel Hbuild. destruct state as [created lpm].
  assert (Hunset : lpm !! (level - 1) = None).
  { eapply process_levels_unset; [exact Hrun | exact Hgap | ].
    apply lookup_singleton_ne. lia. }
  apply build_level_spec in Hbuild as (new & -> & _ & _ & _ & _ & _ & _ & Hparents).
  simpl. eapply Forall_impl; [apply Hparents; lia | ].
  simpl in *. intros a ->. unfold parent_for. rewrite Hunset.
  destruct e; simpl;
    try (destruct (level - 1 <? -1) eqn:Hlt; [lia | by rewrite Hunset]).
  by destruct (level - 1 <? 0).
Qed.

Lemma C3_depth_gap_falls_back_to_root_witness :
  ((2 - 1) ∉ [0]) /\ (1 <= 2)
  /\ Forall (fun a => a_parent_uid a = "R") [block "R" "D" "d"].
Proof.
  assert (Hgap : (2 - 1) ∉ [0]).
  { intros Hin. apply list_elem_of_singleton in Hin. discriminate Hin. }
  split; [exact Hgap | ]. split; [lia | ].
  apply (C3_depth_gap_falls_back_to_root (script_api []) CreatePage "last"
           level_items_AD "R" [0] 2 (Script ["a"; "d"] [])
           (["a"], <[0 := "a"]> {[ -1 := "R" ]}) (Script ["d"] [])
           [EvWrite (Batch [block "R" "A" "a"]) (inr write_ok); EvSleep 500]
           [block "R" "D" "d"] ["d"] (<[0 := "a"]> {[ -1 := "R" ]}) (Script [] []) []).
  - reflexivity.
  - exact Hgap.
  - lia.
  - reflexivity.
Defined.

(** ** create_nested_blocks *)

Lemma created_in_app t1 t2 : created_in (t1 ++ t2) = created_in t1 ++ created_in t2.
Proof. apply flat_map_app. Qed.

Lemma success_of_nested_success created :
  success_of (nested_success created) = true.
Proof. reflexivity. Qed.

Lemma created_uids_of_nested_success created :
  created_uids_of (nested_success created) = created.
Proof. reflexivity. Qed.

Section NestedFacts.
Context {world : Type}.
Variable api : Api world.

(** The request for one block: its outcome and the single event it emits. *)
Lemma create_one_block_run parent_uid level_to_uid text level heading_level w :
  match create_one_block api parent_uid level_to_uid text level heading_level w with
  | (inr (lv, block_uid, result), w', tr) =>
      exists a, tr = [EvWrite (Single a) (inr result)] /\ a_uid a = block_uid
                /\ as_int (default (PInt 0) level) = Some lv
  | (inl ex, w', tr) =>
      (tr = []
       /\ (as_int (default (PInt 0) level) = None
           \/ heading_of (default (PInt 0) heading_level) = inl ex))
      \/ exists a, tr = [EvWrite (Single a) (inl ex)]
  end.
Proof.
  unfold create_one_block, bind, lift, raise, ret, uuid, write, call.
  destruct (as_int (default (PInt 0) level)) as [lv | ]; simpl; [ | left; by split; [ | left]].
  destruct (uuid4_9 api w) as [block_uid w1]. simpl.
  destruct (heading_of (default (PInt 0) heading_level)) as [ex | heading]; simpl;
    [left; by split; [ | right] | ].
  destruct (execute_write_action api _ w1) as [[ex | result] w2]; simpl.
  - right. by eexists.
  - eexists. by repeat split.
Qed.

Lemma bind_run {A B} (m : M world A) (k : A -> M world B) w :
  bind m k w
  = match m w with
    | (inl e, w1, t1) => (inl e, w1, t1)
    | (inr a, w1, t1) => match k a w1 with (o, w2, t2) => (o, w2, t1 ++ t2) end
    end.
Proof. reflexivity. Qed.

Lemma attempt_run {A} (m : M world A) w :
  attempt m w
  = match m w with
    | (inl e, w1, t1) => (inr (inl e), w1, t1)
    | (inr a, w1, t1) => (inr (inr a), w1, t1)
    end.
Proof.
  unfold attempt, try_except, bind, ret.
  destruct (m w) as [[[e | a] w1] t1]; simpl; by rewrite app_nil_r.
Qed.

Lemma process_children_quiet (recurse : pyobj -> string -> M world (gmap string rval))
    t l h c block_uid created w :
  children_succeed recurse (PDict t l h c) ->
  match c with
  | None => true
  | Some (PList children) => forallb wf_block children
  | Some other => negb (truthy other)
  end = true ->
  let run := process_children recurse c block_uid created w in
  Forall (fun ev => raised ev = false) (trace_of run) ->
  result_of run = inr (created ++ created_in (trace_of run)).
Proof.
  intros Hrec Hwf run Hquiet. subst run. unfold process_children in *.
  destruct c as [children | ]; [ | simpl; by rewrite app_nil_r].
  destruct (truthy children) eqn:Htruthy; [ | simpl; by rewrite app_nil_r].
  destruct children as [ | ? | ? | ? | ? | children | ? ? ? ?];
    try (apply negb_true_iff in Hwf; congruence).
  rewrite bind_run in *.
  specialize (Hrec t l h children block_uid w eq_refl Hwf).
  destruct (recurse (PList children) block_uid w) as [[[ex | result] w1] t1];
    unfold trace_of, result_of in *; simpl in *.
  - specialize (Hrec Hquiet). discriminate.
  - assert (Hq1 : Forall (fun ev => raised ev = false) t1).
    { destruct (success_of result); simpl in Hquiet;
        apply Forall_app in Hquiet; tauto. }
    specialize (Hrec Hq1). injection Hrec as ->.
    rewrite success_of_nested_success, created_uids_of_nested_success.
    simpl. by rewrite app_nil_r.
Qed.

Lemma each_block_quiet recurse parent_uid blocks :
  Forall (children_succeed recurse) blocks ->
  forallb wf_block blocks = true ->
  forall created level_to_uid w,
    let run := each_block api recurse parent_uid blocks created level_to_uid w in
    Forall (fun ev => raised ev = false) (trace_of run) ->
    result_of run = inr (None, created ++ created_in (trace_of run)).
Proof.
  induction 1 as [ | b rest Hb _ IH]; intros Hwf created level_to_uid w run Hquiet.
  - subst run. simpl. by rewrite app_nil_r.
  - simpl in Hwf. apply andb_true_iff in Hwf as [Hwfb Hwfrest].
    specialize (IH Hwfrest).
    destruct b as [ | ? | ? | ? | ? | ? | t l h c]; try discriminate.
    simpl in Hwfb. apply andb_true_iff in Hwfb as [Hwfb Hchildren].
    apply andb_true_iff in Hwfb as [Hlevel Hheading].
    apply bool_decide_eq_true in Hlevel as [lv Hlv].
    subst run. cbn [each_block] in *.
    rewrite bind_run, attempt_run in *.
    pose proof (create_one_block_run parent_uid level_to_uid t l h w) as Hone.
    destruct (create_one_block api parent_uid level_to_uid t l h w)
      as [[[ex | [[lv' block_uid] result]] w1] t1].
    + exfalso. destruct Hone as [[_ [Hnone | Hhead]] | [a ->]].
      * congruence.
      * by rewrite Hhead in Hheading.
      * unfold trace_of in Hquiet. simpl in Hquiet. by inversion Hquiet.
    + destruct Hone as (a & -> & Huid & _).
      destruct (wr_success result) eqn:Hsuccess.
      * rewrite bind_run, attempt_run in *.
        pose proof (process_children_quiet recurse t l h c block_uid
                      (created ++ [block_uid]) w1 Hb Hchildren) as Hkids.
        destruct (process_children recurse c block_uid (created ++ [block_uid]) w1)
          as [[[ex | created'] w2] t2].
        { exfalso. unfold trace_of, result_of in *. simpl in *.
          rewrite app_nil_r in Hquiet. inversion Hquiet as [ | ? ? _ Hquiet']; subst.
          specialize (Hkids Hquiet'). discriminate. }
        rewrite bind_run in *. unfold sleep, emit in *.
        specialize (IH created' (<[lv' := block_uid]> level_to_uid) w2).
        destruct (each_block api recurse parent_uid rest created'
                    (<[lv' := block_uid]> level_to_uid) w2) as [[o w3] t3].
        unfold trace_of, result_of in *. simpl in *.
        inversion Hquiet as [ | ? ? _ Hquiet']; subst.
        apply Forall_app in Hquiet' as [Hq2 Hq3].
        inversion Hq3 as [ | ? ? _ Hq3']; subst.
        specialize (Hkids Hq2). injection Hkids as ->.
        rewrite (IH Hq3'), Hsuccess. simpl.
        rewrite created_in_app. simpl. by rewrite <- !app_assoc.
      * rewrite bind_run in *. unfold emit in *.
        specialize (IH created level_to_uid w1).
        destruct (each_block api recurse parent_uid rest created level_to_uid w1)
          as [[o w3] t3].
        unfold trace_of, result_of in *. simpl in *.
        inversion Hquiet as [ | ? ? _ Hquiet']; subst.
        inversion Hquiet' as [ | ? ? _ Hq3]; subst.
        by rewrite (IH Hq3), Hsuccess.
Qed.

(** A run on well-formed blocks in which no call raises is a success that
    lists the uids of the blocks the store reported as created. *)
Lemma create_nested_blocks_quiet blocks_data :
  forall blocks parent_uid w,
    blocks_data = PList blocks ->
    forallb wf_block blocks = true ->
    Forall (fun ev => raised ev = false)
           (trace_of (create_nested_blocks api blocks_data parent_uid w)) ->
    result_of (create_nested_blocks api blocks_data parent_uid w)
    = inr (nested_success
             (created_in (trace_of (create_nested_blocks api blocks_data parent_uid w)))).
Proof.
  induction blocks_data as [blocks_data IH] using blocks_ind.
  intros blocks parent_uid w -> Hwf Hquiet.
  specialize (IH blocks eq_refl).
  destruct blocks as [ | b rest]; [reflexivity | ].
  change (create_nested_blocks api (PList (b :: rest)) parent_uid w)
    with ((session api ;;;
           ended <- each_block api (create_nested_blocks api) parent_uid (b :: rest) []
                      {[ -1 := parent_uid ]} ;;
           match ended with
           | (None, created_uids) => ret (nested_success created_uids)
           | (Some e, created_uids) =>
               let error_msg := "Failed to create nested blocks: " +:+ exn_str e in
               emit (EvLog "error" error_msg) ;;;
               ret (nested_failure error_msg created_uids)
           end) w) in *.
  rewrite bind_run in *. unfold session, call in *.
  destruct (get_session_and_headers api w) as [[ex | []] w1].
  { exfalso. unfold trace_of in Hquiet. simpl in Hquiet. by inversion Hquiet. }
  rewrite bind_run in *.
  pose proof (each_block_quiet (create_nested_blocks api) parent_uid (b :: rest)) as Hloop.
  specialize (Hloop (Forall_impl _ _ _ IH
                       (fun b Hb t l h children block_uid w Heq Hwf' Hq =>
                          Hb t l h (PList children) Heq children block_uid w eq_refl Hwf' Hq))
                    Hwf [] {[ -1 := parent_uid ]} w1).
  destruct (each_block api (create_nested_blocks api) parent_uid (b :: rest) []
              {[ -1 := parent_uid ]} w1) as [[[ex | [ended created]] w2] t2];
    unfold trace_of, result_of in *; simpl in *.
  - inversion Hquiet as [ | ? ? _ Hq]; subst. specialize (Hloop Hq). discriminate.
  - destruct ended as [ex | ]; simpl in *.
    + inversion Hquiet as [ | ? ? _ Hq]; subst.
      apply Forall_app in Hq as [Hq _]. specialize (Hloop Hq). discriminate.
    + rewrite app_nil_r in *.
      inversion Hquiet as [ | ? ? _ Hq]; subst. specialize (Hloop Hq).
      injection Hloop as ->. reflexivity.
Qed.
End NestedFacts.

(** A block whose creation the store reports as failed: the failure is
    logged, the children are not visited, and the loop goes on with the next
    block from the same [created_uids] and the same table. *)
Lemma each_block_failed {world} (api : Api world) recurse parent_uid
    text level heading_level children rest created level_to_uid w lv heading result w2 :
  as_int (default (PInt 0) level) = Some lv ->
  heading_of (default (PInt 0) heading_level) = inr heading ->
  execute_write_action api
    (Single (nested_action parent_uid level_to_uid text lv heading (uuid4_9 api w).1))
    (uuid4_9 api w).2 = (inr result, w2) ->
  wr_success result = false ->
  each_block api recurse parent_uid (PDict text level heading_level children :: rest)
    created level_to_uid w
  = match each_block api recurse parent_uid rest created level_to_uid w2 with
    | (o, w3, t3) =>
        (o, w3,
         EvWrite (Single (nested_action parent_uid level_to_uid text lv heading
                            (uuid4_9 api w).1)) (inr result)
         :: EvLog "error" ("Failed to create block: "
                           +:+ default "Unknown error" (wr_error result))
         :: t3)
    end.
Proof.
  intros Hlv Hheading Hwrite Hfailed. cbn [each_block].
  rewrite bind_run, attempt_run.
  unfold create_one_block, bind, lift, raise, ret, uuid, write, call, nested_action in *.
  rewrite Hlv. simpl. destruct (uuid4_9 api w) as [block_uid w1]. simpl in *.
  rewrite Hheading. simpl. rewrite Hwrite. simpl. rewrite Hfailed.
  unfold emit.
  by destruct (each_block api recurse parent_uid rest created level_to_uid w2)
    as [[o w3] t3].
Qed.

(** The body of [create_nested_blocks]. *)
Lemma create_nested_blocks_eq {world} (api : Api world) blocks_data parent_uid :
  create_nested_blocks api blocks_data parent_uid
  = if negb (truthy blocks_data) then ret (nested_success [])
    else
      session api ;;;
      ended <-
        match blocks_data with
        | PList blocks =>
            each_block api (create_nested_blocks api) parent_uid blocks []
              {[ -1 := parent_uid ]}
        | other => ret (Some (iter_error other), [])
        end ;;
      match ended with
      | (None, created_uids) => ret (nested_success created_uids)
      | (Some e, created_uids) =>
          let error_msg := "Failed to create nested blocks: " +:+ exn_str e in
          emit (EvLog "error" error_msg) ;;;
          ret (nested_failure error_msg created_uids)
      end.
Proof. destruct blocks_data; reflexivity. Qed.

(** A result with [success = False] comes from the [except] clause. *)
Lemma create_nested_blocks_failure_origin {world} (api : Api world)
    blocks_data parent_uid w result :
  result_of (create_nested_blocks api blocks_data parent_uid w) = inr result ->
  success_of result = false ->
  exists e created_uids,
    result = nested_failure ("Failed to create nested blocks: " +:+ exn_str e) created_uids
    /\ EvLog "error" ("Failed to create nested blocks: " +:+ exn_str e)
       ∈ trace_of (create_nested_blocks api blocks_data parent_uid w).
Proof.
  rewrite create_nested_blocks_eq.
  destruct (negb (truthy blocks_data)).
  { intros [= <-]. discriminate. }
  rewrite bind_run. unfold session, call.
  destruct (get_session_and_headers api w) as [[ex | []] w1]; [discriminate | ].
  rewrite bind_run.
  destruct (match blocks_data with
            | PList blocks =>
                each_block api (create_nested_blocks api) parent_uid blocks []
                  {[ -1 := parent_uid ]}
            | _ => ret (Some (iter_error blocks_data), [])
            end w1) as [[[ex | [[e | ] created]] w2] t2];
    unfold result_of, trace_of; simpl.
  - discriminate.
  - intros [= <-] _. exists e, created. split; [reflexivity | ].
    apply elem_of_cons. right. apply elem_of_app. right. set_solver.
  - intros [= <-]. discriminate.
Qed.

(** C10: [create_nested_blocks] returns [success = True] even when the
    store reports failures for individual blocks.  On well-formed blocks, a
    run in which no call raises is a success whose [created_uids] are
    exactly the uids of the blocks the store reported as created; and a
    block reported as failed is logged and skipped together with its
    children, the loop going on with the next block.  A result with
    [success = False] is only ever built by the [except] clause. *)
Theorem C10_nested_blocks_succeed_despite_failed_blocks {world} (api : Api world) :
  (forall blocks parent_uid w,
      forallb wf_block blocks = true ->
      Forall (fun ev => raised ev = false)
             (trace_of (create_nested_blocks api (PList blocks) parent_uid w)) ->
      result_of (create_nested_blocks api (PList blocks) parent_uid w)
      = inr (nested_success
               (created_in
                  (trace_of (create_nested_blocks api (PList blocks) parent_uid w)))))
  /\ (forall parent_uid text level heading_level children rest created level_to_uid
             w lv heading result w2,
         as_int (default (PInt 0) level) = Some lv ->
         heading_of (default (PInt 0) heading_level) = inr heading ->
         execute_write_action api
           (Single (nested_action parent_uid level_to_uid text lv heading
                      (uuid4_9 api w).1))
           (uuid4_9 api w).2 = (inr result, w2) ->
         wr_success result = false ->
         each_block api (create_nested_blocks api) parent_uid
           (PDict text level heading_level children :: rest) created level_to_uid w
         = match each_block api (create_nested_blocks api) parent_uid rest
                   created level_to_uid w2 with
           | (o, w3, t3) =>
               (o, w3,
                EvWrite (Single (nested_action parent_uid level_to_uid text lv heading
                                   (uuid4_9 api w).1)) (inr result)
                :: EvLog "error" ("Failed to create block: "
                                  +:+ default "Unknown error" (wr_error result))
                :: t3)
           end)
  /\ (forall blocks_data parent_uid w result,
         result_of (create_nested_blocks api blocks_data parent_uid w) = inr result ->
         success_of result = false ->
         exists e created_uids,
           result = nested_failure ("Failed to create nested blocks: " +:+ exn_str e)
                      created_uids
           /\ EvLog "error" ("Failed to create nested blocks: " +:+ exn_str e)
              ∈ trace_of (create_nested_blocks api blocks_data parent_uid w)).
Proof.
  split; [ | split].
  - intros blocks parent_uid w Hwf Hquiet.
    by eapply create_nested_blocks_quiet.
  - intros. by eapply each_block_failed.
  - intros. by eapply create_nested_blocks_failure_origin.
Qed.

Lemma C10_nested_blocks_succeed_despite_failed_blocks_witness :
  let run := create_nested_blocks (script_api []) (PList blocks_XYZ) "R"
               (Script ["x"; "z"] [inr write_failed; inr write_ok]) in
  trace_of run
  = [EvSession (inr ());
     EvWrite (Single (block "R" "X" "x")) (inr write_failed);
     EvLog "error" "Failed to create block: rejected";
     EvWrite (Single (block "R" "Z" "z")) (inr write_ok);
     EvSleep 500]
  /\ result_of run = inr (nested_success ["z"]).
Proof.
  split; [reflexivity | ].
  apply (proj1 (C10_nested_blocks_succeed_despite_failed_blocks (script_api []))
           blocks_XYZ "R" (Script ["x"; "z"] [inr write_failed; inr write_ok])).
  - reflexivity.
  - change (Forall (fun ev => raised ev = false)
              [EvSession (inr ());
               EvWrite (Single (block "R" "X" "x")) (inr write_failed);
               EvLog "error" "Failed to create block: rejected";
               EvWrite (Single (block "R" "Z" "z")) (inr write_ok);
               EvSleep 500]).
    repeat constructor.
Defined.

(** * Further properties of the code *)

(** ** Sorting and grouping *)

Lemma filter_insert_by_level (k : Z) x l :
  filter (fun it => f_level it = k) (insert_by_level x l)
  = filter (fun it => f_level it = k) (x :: l).
Proof.
  induction l as [ | y rest IH]; [reflexivity | ].
  simpl. destruct (f_level x <=? f_level y) eqn:Hle; [reflexivity | ].
  apply Z.leb_gt in Hle.
  rewrite (filter_cons _ y (insert_by_level x rest)), IH.
  rewrite (filter_cons _ x (y :: rest)), (filter_cons _ y rest), (filter_cons _ x rest).
  repeat case_decide; try reflexivity. lia.
Qed.

Lemma insert_by_level_perm x l : insert_by_level x l ≡ₚ x :: l.
Proof.
  induction l as [ | y rest IH]; [reflexivity | ].
  simpl. destruct (f_level x <=? f_level y); [reflexivity | ].
  rewrite IH. apply Permutation_swap.
Qed.

Lemma insert_by_level_sorted x l :
  Sorted (fun a b => f_level a <= f_level b) l ->
  Sorted (fun a b => f_level a <= f_level b) (insert_by_level x l).
Proof.
  induction 1 as [ | y rest Hrest IH Hhd]; simpl.
  - repeat constructor.
  - destruct (f_level x <=? f_level y) eqn:Hle.
    + apply Z.leb_le in Hle. repeat constructor; assumption.
    + apply Z.leb_gt in Hle. constructor; [exact IH | ].
      destruct Hhd as [ | z rest' Hyz]; simpl.
      * constructor. lia.
      * destruct (f_level x <=? f_level z); constructor; (assumption || lia).
Qed.

(** [list.sort(key=level)] as modelled: the result is ordered by level, holds
    the same items, and keeps the items of each level in their original
    order (the sort is stable). *)
Lemma sort_by_level_stable_sort (l : list flat) :
  Sorted (fun a b => f_level a <= f_level b) (sort_by_level l)
  /\ sort_by_level l ≡ₚ l
  /\ forall k, filter (fun it => f_level it = k) (sort_by_level l)
               = filter (fun it => f_level it = k) l.
Proof.
  induction l as [ | x rest (Hsorted & Hperm & Hstable)]; simpl.
  - repeat split; constructor.
  - split; [by apply insert_by_level_sorted | ]. split.
    + by rewrite insert_by_level_perm, Hperm.
    + intros k. rewrite filter_insert_by_level, !filter_cons, Hstable. reflexivity.
Qed.

(** The accumulating loop of the grouping, started from any dict without
    empty buckets. *)
Lemma foldl_add_to_level_lookup items :
  forall (m : gmap Z (list flat)) k,
    (forall level bucket, m !! level = Some bucket -> bucket <> []) ->
    foldl add_to_level m items !! k
    = match default [] (m !! k) ++ filter (fun it => f_level it = k) items with
      | [] => None
      | bucket => Some bucket
      end.
Proof.
  induction items as [ | item rest IH]; intros m k Hm; simpl.
  - rewrite app_nil_r. destruct (m !! k) as [bucket | ] eqn:Hk; [ | reflexivity].
    simpl. specialize (Hm k bucket Hk). by destruct bucket.
  - rewrite IH by (by apply add_to_level_nonempty).
    rewrite filter_cons. unfold add_to_level.
    destruct (decide (f_level item = k)) as [-> | Hne].
    + rewrite lookup_insert_eq. simpl. by rewrite <- app_assoc.
    + by rewrite lookup_insert_ne.
Qed.

Lemma group_by_level_lookup (items : list flat) (k : Z) :
  group_by_level items !! k
  = match filter (fun it => f_level it = k) items with
    | [] => None
    | bucket => Some bucket
    end.
Proof.
  unfold group_by_level. rewrite foldl_add_to_level_lookup.
  - by rewrite lookup_empty.
  - intros level bucket. by rewrite lookup_empty.
Qed.

(** The grouping of [create_page] loses and invents nothing: the bucket of a
    level holds exactly the items of that level, in the order of the input,
    and a level without items has no bucket. *)
Theorem group_by_level_buckets (items : list flat) (k : Z) :
  group_by_level items !! k
  = match filter (fun it => f_level it = k) items with
    | [] => None
    | bucket => Some bucket
    end.
Proof. apply group_by_level_lookup. Qed.

(** Sorting by level before grouping, as [create_page] and [import_markdown]
    do, changes nothing: the buckets are those of the unsorted list. *)
Theorem group_by_level_sort (items : list flat) :
  group_by_level (sort_by_level items) = group_by_level items.
Proof.
  apply map_eq. intros k. rewrite !group_by_level_lookup.
  by rewrite (proj2 (proj2 (sort_by_level_stable_sort items)) k).
Qed.

Lemma sorted_keys_levels (items : list flat) :
  Sorted Z.le (sorted_keys (group_by_level items))
  /\ NoDup (sorted_keys (group_by_level items))
  /\ forall k, k ∈ sorted_keys (group_by_level items) <-> k ∈ map f_level items.
Proof.
  destruct (sorted_keys_sorted (group_by_level items)) as [Hsorted Hnodup].
  split; [exact Hsorted | ]. split; [exact Hnodup | ].
  intros k. rewrite sorted_keys_elem, group_by_level_lookup, list_elem_of_fmap.
  split.
  - intros [bucket Hbucket].
    destruct (filter _ items) as [ | it rest] eqn:Hfilter; [discriminate | ].
    assert (Hin : it ∈ filter (fun it => f_level it = k) items)
      by (rewrite Hfilter; constructor).
    apply list_elem_of_filter in Hin as [Hlevel Hin]. by exists it.
  - intros (it & -> & Hin).
    assert (Hin' : it ∈ filter (fun it' => f_level it' = f_level it) items)
      by (by apply list_elem_of_filter).
    destruct (filter _ items); [by apply elem_of_nil in Hin' | by eexists].
Qed.

(** [sorted(level_items.keys())], the order in which the driver visits the
    levels: the levels that occur among the items, each once, in ascending
    order. *)
Theorem sorted_keys_ascending_levels (items : list flat) :
  Sorted Z.le (sorted_keys (group_by_level items))
  /\ NoDup (sorted_keys (group_by_level items))
  /\ forall k, k ∈ sorted_keys (group_by_level items) <-> k ∈ map f_level items.
Proof. apply sorted_keys_levels. Qed.

(** ** What the driver submits *)

Lemma batches_app t1 t2 : batches (t1 ++ t2) = batches t1 ++ batches t2.
Proof. apply flat_map_app. Qed.

Section SubmittedFacts.
Context {world : Type}.
Variable api : Api world.
Variables (e : entry) (order : string) (level_items : gmap Z (list flat)) (root : string).

(** The texts of a built batch are those of the items of the level. *)
Lemma build_level_texts level lpm w batch uids lpm1 w1 tr :
  build_level api e order level_items root level
    (default [] (level_items !! level)) lpm [] [] w
  = (inr (batch, uids, lpm1), w1, tr) ->
  map a_string batch = map f_text (default [] (level_items !! level))
  /\ (default [] (level_items !! level) <> [] -> batch <> []).
Proof.
  intros Hbuild.
  apply build_level_spec in Hbuild as (new & -> & _ & _ & Htexts & _).
  simpl. split; [exact Htexts | ].
  intros Hne ->. destruct (default [] (level_items !! level)); simpl in *; congruence.
Qed.

Lemma process_levels_texts levels :
  Forall (fun level => default [] (level_items !! level) <> []) levels ->
  forall created lpm w,
    let run := process_levels api e order level_items root levels (created, lpm) w in
    let expected := map (fun level => map f_text (default [] (level_items !! level))) levels in
    map (map a_string) (batches (trace_of run)) `prefix_of` expected
    /\ (forall state, result_of run = inr state ->
        map (map a_string) (batches (trace_of run)) = expected).
Proof.
  induction 1 as [ | level rest Hitems _ IH]; intros created lpm w; cbv zeta.
  - split; [apply prefix_nil | reflexivity].
  - rewrite process_levels_cons. cbn [map].
    pose proof (process_level_outcome api e order level_items root created lpm level w) as Hout.
    destruct (process_level _ _ _ _ _ _ _ _) as [[[ex | [created1 lpm1]] w1] t1] eqn:Hlevel.
    + inversion Hout as [ | batch uids lpm0 w0 w2 ex' Hbuild Hbatch Hwrite | | ]; subst.
      * split; [apply prefix_nil | discriminate].
      * apply build_level_texts in Hbuild as [Htexts _].
        split; [ | discriminate].
        unfold trace_of. simpl. rewrite Htexts. apply prefix_cons, prefix_nil.
    + inversion Hout as [ | | batch uids lpm0 w0 w2 r Hbuild Hbatch Hwrite
                         | uids lpm0 w0 Hbuild ]; subst.
      * apply build_level_texts in Hbuild as [Htexts _].
        specialize (IH (extend_created created r uids)
                      (store_level_parent e lpm0 level uids) w1).
        destruct (process_levels _ _ _ _ _ _ _ _) as [[o w3] t3].
        unfold trace_of, result_of in *. simpl in *.
        destruct IH as [Hprefix Heq]. rewrite Htexts. split.
        -- by apply prefix_cons.
        -- intros state ->. f_equal. by eapply Heq.
      * apply build_level_texts in Hbuild as [_ Hne]. by destruct (Hne Hitems).
Qed.
End SubmittedFacts.

(** The buckets of distinct levels that cover the items are a partition of
    the items. *)
Lemma buckets_partition (keys : list Z) :
  NoDup keys ->
  forall items : list flat,
    (forall it, it ∈ items -> f_level it ∈ keys) ->
    concat (map (fun k => filter (fun it => f_level it = k) items) keys) ≡ₚ items.
Proof.
  induction 1 as [ | k keys Hk _ IH]; intros items Hcover; simpl.
  - destruct items as [ | it rest]; [reflexivity | ].
    specialize (Hcover it (list_elem_of_here _ _)). by apply elem_of_nil in Hcover.
  - etrans; [ | apply (filter_app_complement (fun it => f_level it = k) items)].
    apply Permutation_app_head.
    etrans; [ | apply (IH (filter (fun it => ¬ f_level it = k) items))].
    + apply Permutation_refl'. f_equal. apply map_ext_in. intros k' Hk'.
      rewrite list_filter_filter. apply list_filter_iff.
      intros it. split; [ | tauto]. intros ->. split; [reflexivity | ].
      intros ->. apply Hk. by apply list_elem_of_In.
    + intros it [Hne Hin]%list_elem_of_filter.
      specialize (Hcover it Hin). apply elem_of_cons in Hcover as [Heq | Hin']; [ | exact Hin'].
      congruence.
Qed.

Lemma concat_map_texts (g : Z -> list flat) (keys : list Z) :
  concat (map (fun k => map f_text (g k)) keys) = map f_text (concat (map g keys)).
Proof.
  induction keys as [ | k ks IH]; [reflexivity | ].
  simpl. by rewrite IH, map_app.
Qed.

(** The driver submits the items level by level: the texts of the batches of
    a run are, in ascending order of level, the texts of the items of each
    level in their original order, up to the batch that ended the run; a run
    that ends normally has submitted every item exactly once. *)
Theorem synchronize_submits_buckets_in_level_order {world} (api : Api world)
    e order root items w :
  let run := synchronize api e order root items w in
  let expected :=
    map (fun k => map f_text (filter (fun it => f_level it = k) items))
        (sorted_keys (group_by_level items)) in
  map (map a_string) (batches (trace_of run)) `prefix_of` expected
  /\ (forall created, result_of run = inr created ->
      map (map a_string) (batches (trace_of run)) = expected
      /\ concat (map (map a_string) (batches (trace_of run))) ≡ₚ map f_text items).
Proof.
  intros run expected.
  assert (Hexpected :
            expected
            = map (fun level => map f_text (default [] (group_by_level items !! level)))
                  (sorted_keys (group_by_level items))).
  { apply map_ext_in. intros k Hk. f_equal.
    rewrite group_by_level_lookup. by destruct (filter _ items). }
  pose proof (process_levels_texts api e order (group_by_level items) root _
                (sorted_keys_nonempty items) [] {[ -1 := root ]} w) as [Hprefix Heq].
  subst run. unfold synchronize, bind, ret.
  destruct (process_levels _ _ _ _ _ _ _ _) as [[[ex | state] w'] tr];
    unfold trace_of, result_of in *; simpl in *.
  - split; [by rewrite Hexpected | discriminate].
  - rewrite app_nil_r. split; [by rewrite Hexpected | ].
    intros created _. rewrite (Heq state eq_refl), <- Hexpected.
    split; [reflexivity | ]. subst expected.
    destruct (sorted_keys_levels items) as (_ & Hnodup & Hkeys).
    rewrite concat_map_texts. apply Permutation_map.
    apply (buckets_partition _ Hnodup items).
    intros it Hin. apply Hkeys. apply list_elem_of_fmap. by exists it.
Qed.

(** ** Parents *)

Section ParentFacts.
Context {world : Type}.
Variable api : Api world.
Variables (e : entry) (order : string) (level_items : gmap Z (list flat)) (root : string).

(** A built batch: every action is attached to the parent resolved from the
    table as it was before the level, and the table changes at most at the
    level itself. *)
Lemma build_level_parents level lpm w batch uids lpm1 w1 tr :
  build_level api e order level_items root level
    (default [] (level_items !! level)) lpm [] [] w
  = (inr (batch, uids, lpm1), w1, tr) ->
  level <> -1 ->
  Forall (fun a => a_parent_uid a = parent_for e level_items lpm root level) batch
  /\ uids = map a_uid batch
  /\ (forall k, k <> level -> lpm1 !! k = lpm !! k)
  /\ (lpm !! level = None -> lpm1 = lpm).
Proof.
  intros Hbuild Hlevel.
  apply build_level_spec in Hbuild
    as (new & -> & -> & _ & _ & _ & Hother & Hnone & Hparents).
  simpl. split; [by apply Hparents | ]. split; [reflexivity | ].
  split; [exact Hother | ].
  intros Hunset. apply map_eq. intros k.
  destruct (decide (k = level)) as [-> | Hk]; [ | by apply Hother].
  rewrite Hunset. by apply Hnone.
Qed.

(** The parent the next level resolves after a level has been answered. *)
Lemma parent_for_after_level lpm1 level u uids next :
  e <> ImportMarkdown ->
  0 <= level -> level < next ->
  default [] (level_items !! level) <> [] ->
  last uids = Some u ->
  (forall k, level < k -> lpm1 !! k = None) ->
  parent_for e level_items (store_level_parent e lpm1 level uids) root next
  = if next - 1 =? level then u else root.
Proof.
  intros He Hlevel Hnext Hitems Hu Hunset.
  assert (Hentry : forall k,
             store_level_parent e lpm1 level uids !! k
             = if decide (k = level) then Some u else lpm1 !! k).
  { intros k. unfold store_level_parent. rewrite Hu.
    destruct e; try congruence; rewrite lookup_insert; repeat case_decide; congruence. }
  unfold parent_for.
  destruct (next - 1 =? level) eqn:Heq.
  - apply Z.eqb_eq in Heq. rewrite Heq.
    destruct e; try congruence.
    + destruct (level <? -1) eqn:Hlt; [lia | ]. rewrite Hentry. by case_decide.
    + destruct (level <? -1) eqn:Hlt; [lia | ]. rewrite Hentry. by case_decide.
    + destruct (level <? 0) eqn:Hlt; [lia | ]. rewrite Hentry. case_decide; [ | done].
      destruct (default [] (level_items !! level)); [congruence | ].
      destruct (0 <=? _) eqn:Hidx; [reflexivity | ].
      apply Z.leb_gt in Hidx. rewrite length_cons in Hidx. lia.
  - apply Z.eqb_neq in Heq.
    assert (Hnone : store_level_parent e lpm1 level uids !! (next - 1) = None).
    { rewrite Hentry. case_decide; [lia | ]. apply Hunset. lia. }
    destruct e; try congruence.
    + destruct (next - 1 <? -1) eqn:Hlt; [lia | ]. by rewrite Hnone.
    + destruct (next - 1 <? -1) eqn:Hlt; [lia | ]. by rewrite Hnone.
    + destruct (next - 1 <? 0); [reflexivity | ]. by rewrite Hnone.
Qed.

Lemma process_levels_attached levels :
  e <> ImportMarkdown ->
  Forall (fun level => default [] (level_items !! level) <> []) levels ->
  StronglySorted Z.lt levels ->
  forall p u created lpm w,
    -1 <= p ->
    Forall (fun level => p < level) levels ->
    (forall next, p < next ->
       parent_for e level_items lpm root next = if next - 1 =? p then u else root) ->
    (forall k, p < k -> lpm !! k = None) ->
    attached root p u
      (zip levels
         (batches (trace_of (process_levels api e order level_items root levels
                               (created, lpm) w)))).
Proof.
  intros He Hne. induction Hne as [ | level rest Hitems _ IH];
    intros Hsorted p u created lpm w Hp Hbelow Hparent Hunset.
  - exact I.
  - apply StronglySorted_inv in Hsorted as [Hsorted Hrest].
    apply Forall_cons in Hbelow as [Hlevel Hbelow].
    rewrite process_levels_cons.
    pose proof (process_level_outcome api e order level_items root created lpm level w) as Hout.
    destruct (process_level _ _ _ _ _ _ _ _) as [[[ex | [created1 lpm1]] w1] t1].
    + inversion Hout as [ | batch uids lpm0 w0 w2 ex' Hbuild Hbatch Hwrite | | ]; subst;
        [exact I | ].
      apply build_level_parents in Hbuild as (Hparents & _); [ | lia].
      rewrite (Hparent level Hlevel) in Hparents.
      unfold trace_of. simpl. split; [exact Hparents | by destruct rest].
    + inversion Hout as [ | | batch uids lpm0 w0 w2 r Hbuild Hbatch Hwrite
                         | uids lpm0 w0 Hbuild ]; subst.
      * apply build_level_parents in Hbuild as (Hparents & -> & Hother & _); [ | lia].
        rewrite (Hparent level Hlevel) in Hparents.
        assert (Hlast : exists v, last (map a_uid batch) = Some v).
        { destruct (last (map a_uid batch)) as [v | ] eqn:Hl; [by eexists | ].
          apply last_None in Hl. destruct batch; [congruence | discriminate]. }
        destruct Hlast as [v Hv].
        specialize (IH Hsorted level v
                      (extend_created created r (map a_uid batch))
                      (store_level_parent e lpm0 level (map a_uid batch)) w1).
        destruct (process_levels _ _ _ _ _ _ _ _) as [[o w3] t3].
        unfold trace_of in *. simpl in *. split; [exact Hparents | ].
        rewrite Hv. simpl. apply IH.
        -- lia.
        -- exact Hrest.
        -- intros next Hnext. apply parent_for_after_level; try assumption; try lia.
           intros k Hk. rewrite Hother by lia. apply Hunset. lia.
        -- intros k Hk. unfold store_level_parent. rewrite Hv.
           destruct e; try congruence;
             (rewrite lookup_insert_ne by lia; rewrite Hother by lia; apply Hunset; lia).
      * apply build_level_texts in Hbuild as [_ Hne']. by destruct (Hne' Hitems).
Qed.
End ParentFacts.

(** The table of [import_markdown] never gets an entry for a level of the
    outline: every batch of every level from 0 on is attached to the root. *)
Lemma process_levels_import_root {world} (api : Api world) order level_items root levels :
  Forall (fun level => 0 <= level) levels ->
  forall created w,
    Forall (Forall (fun a => a_parent_uid a = root))
           (batches (trace_of (process_levels api ImportMarkdown order level_items root
                                 levels (created, {[ -1 := root ]}) w))).
Proof.
  induction 1 as [ | level rest Hlevel _ IH]; intros created w.
  - constructor.
  - rewrite process_levels_cons.
    pose proof (process_level_outcome api ImportMarkdown order level_items root created
                  {[ -1 := root ]} level w) as Hout.
    assert (Hparent : parent_for ImportMarkdown level_items {[ -1 := root ]} root level
                      = root).
    { unfold parent_for.
      destruct (level - 1 <? -1) eqn:Hlt; [lia | ].
      destruct (decide (level - 1 = -1)) as [-> | Hne].
      - by rewrite lookup_singleton_eq.
      - by rewrite lookup_singleton_ne by congruence. }
    assert (Hunset : ({[ -1 := root ]} : gmap Z string) !! level = None)
      by (apply lookup_singleton_ne; lia).
    destruct (process_level _ _ _ _ _ _ _ _) as [[[ex | [created1 lpm1]] w1] t1].
    + inversion Hout as [ | batch uids lpm0 w0 w2 ex' Hbuild Hbatch Hwrite | | ]; subst;
        [constructor | ].
      apply build_level_parents in Hbuild as (Hparents & _); [ | lia].
      rewrite Hparent in Hparents. unfold trace_of. simpl. by repeat constructor.
    + inversion Hout as [ | | batch uids lpm0 w0 w2 r Hbuild Hbatch Hwrite
                         | uids lpm0 w0 Hbuild ]; subst.
      * apply build_level_parents in Hbuild as (Hparents & _ & _ & Hsame); [ | lia].
        rewrite Hparent in Hparents. rewrite (Hsame Hunset). simpl.
        match goal with
        | |- context [process_levels _ _ _ _ _ _ (?c, _) ?w'] => specialize (IH c w')
        end.
        destruct (process_levels _ _ _ _ _ _ _ _) as [[o w3] t3].
        unfold trace_of in *. simpl in *. by constructor.
      * apply build_level_parents in Hbuild as (_ & _ & _ & Hsame); [ | lia].
        rewrite (Hsame Hunset).
        match goal with
        | |- context [process_levels _ _ _ _ _ _ (?c, _) ?w'] => specialize (IH c w')
        end.
        destruct (process_levels _ _ _ _ _ _ _ _) as [[o w3] t3].
        unfold trace_of in *. simpl in *. exact IH.
Qed.

Lemma sorted_nodup_strictly (l : list Z) :
  Sorted Z.le l -> NoDup l -> StronglySorted Z.lt l.
Proof.
  intros Hsorted Hnodup.
  apply Sorted_StronglySorted in Hsorted; [ | intros x y z; lia].
  induction Hsorted as [ | x rest Hrest IH Hall]; [constructor | ].
  apply NoDup_cons in Hnodup as [Hx Hnodup].
  constructor; [by apply IH | ].
  rewrite Forall_forall in *. intros y Hy.
  specialize (Hall y Hy). assert (x <> y) by (intros ->; by apply Hx, list_elem_of_In). lia.
Qed.

Lemma sorted_keys_nonnegative items :
  Forall (fun it => 0 <= f_level it) items ->
  Forall (fun level => 0 <= level) (sorted_keys (group_by_level items)).
Proof.
  intros Hitems. apply Forall_forall. intros k Hk.
  apply sorted_keys_levels, list_elem_of_fmap in Hk as (it & -> & Hin).
  rewrite Forall_forall in Hitems. by apply Hitems.
Qed.

(** The driver of [import_markdown] attaches every block of an outline
    whose levels are not negative to the root parent, at every level and
    whatever the store answers: its table is never written. *)
Theorem import_markdown_driver_attaches_all_to_root {world} (api : Api world)
    order root items w :
  Forall (fun it => 0 <= f_level it) items ->
  Forall (Forall (fun a => a_parent_uid a = root))
         (batches (trace_of (synchronize api ImportMarkdown order root items w))).
Proof.
  intros Hitems.
  pose proof (process_levels_import_root api order (group_by_level items) root _
                (sorted_keys_nonnegative items Hitems) [] w) as Hroot.
  unfold synchronize, bind, ret.
  destruct (process_levels _ _ _ _ _ _ _ _) as [[[ex | state] w'] tr];
    unfold trace_of in *; simpl in *; [exact Hroot | ].
  by rewrite app_nil_r.
Qed.

Lemma import_markdown_driver_attaches_all_to_root_witness :
  Forall (fun it => 0 <= f_level it)
         [Flat (PStr "A") 0 (PInt 0); Flat (PStr "B") 1 (PInt 0)]
  /\ Forall (Forall (fun a => a_parent_uid a = "R"))
            [[Action "R" "first" (PStr "A") "a" None]; [block "R" "B" "b"]].
Proof.
  assert (Hitems : Forall (fun it => 0 <= f_level it)
                          [Flat (PStr "A") 0 (PInt 0); Flat (PStr "B") 1 (PInt 0)]).
  { repeat constructor; simpl; lia. }
  split; [exact Hitems | ].
  exact (import_markdown_driver_attaches_all_to_root (script_api []) "first" "R"
           [Flat (PStr "A") 0 (PInt 0); Flat (PStr "B") 1 (PInt 0)]
           (Script ["a"; "b"] []) Hitems).
Defined.

(** The parents in [create_page], [create_block] and [create_outline], for
    an outline whose levels are not negative: the batch of a level is
    attached to the last uid generated for the batch before it when that
    batch is of the level just above, and to the root otherwise (first
    batch, or a gap in the levels), whatever the store answers. *)
Theorem driver_attaches_to_last_uid_of_level_above {world} (api : Api world)
    e order root items w :
  e <> ImportMarkdown ->
  Forall (fun it => 0 <= f_level it) items ->
  attached root (-1) root
    (zip (sorted_keys (group_by_level items))
         (batches (trace_of (synchronize api e order root items w)))).
Proof.
  intros He Hitems.
  destruct (sorted_keys_sorted (group_by_level items)) as [Hsorted Hnodup].
  pose proof (process_levels_attached api e order (group_by_level items) root _ He
                (sorted_keys_nonempty items)
                (sorted_nodup_strictly _ Hsorted Hnodup)
                (-1) root [] {[ -1 := root ]} w) as Hattached.
  unfold synchronize, bind, ret.
  assert (Hgoal : attached root (-1) root
            (zip (sorted_keys (group_by_level items))
               (batches (trace_of (process_levels api e order (group_by_level items) root
                                     (sorted_keys (group_by_level items))
                                     ([], {[ -1 := root ]}) w))))).
  { apply Hattached.
    - lia.
    - eapply Forall_impl; [exact (sorted_keys_nonnegative items Hitems) | ].
      simpl. intros. lia.
    - intros next Hnext. destruct (next - 1 =? -1) eqn:Heq.
      + apply Z.eqb_eq in Heq. unfold parent_for. rewrite Heq.
        destruct e; reflexivity.
      + apply Z.eqb_neq in Heq. unfold parent_for.
        assert (Hnone : ({[ -1 := root ]} : gmap Z string) !! (next - 1) = None)
          by (apply lookup_singleton_ne; lia).
        destruct e; try (destruct (next - 1 <? -1) eqn:Hlt; [lia | by rewrite Hnone]).
        destruct (next - 1 <? 0); [reflexivity | by rewrite Hnone].
    - intros k Hk. apply lookup_singleton_ne. lia. }
  destruct (process_levels _ _ _ _ _ _ _ _) as [[[ex | state] w'] tr];
    unfold trace_of in *; simpl in *; [exact Hgoal | ].
  by rewrite app_nil_r.
Qed.

Lemma driver_attaches_to_last_uid_of_level_above_witness :
  CreatePage <> ImportMarkdown
  /\ Forall (fun it => 0 <= f_level it)
            [Flat (PStr "A") 0 (PInt 0); Flat (PStr "B") 1 (PInt 0);
             Flat (PStr "C") 1 (PInt 0); Flat (PStr "E") 3 (PInt 0)]
  /\ attached "R" (-1) "R"
       [(0, [block "R" "A" "a"]); (1, [block "a" "B" "b"; block "a" "C" "c"]);
        (3, [block "R" "E" "e"])].
Proof.
  assert (Hitems : Forall (fun it => 0 <= f_level it)
                          [Flat (PStr "A") 0 (PInt 0); Flat (PStr "B") 1 (PInt 0);
                           Flat (PStr "C") 1 (PInt 0); Flat (PStr "E") 3 (PInt 0)]).
  { repeat constructor; simpl; lia. }
  split; [discriminate | ]. split; [exact Hitems | ].
  refine (driver_attaches_to_last_uid_of_level_above (script_api []) CreatePage "last" "R"
            [Flat (PStr "A") 0 (PInt 0); Flat (PStr "B") 1 (PInt 0);
             Flat (PStr "C") 1 (PInt 0); Flat (PStr "E") 3 (PInt 0)]
            (Script ["a"; "b"; "c"; "e"] []) _ Hitems).
  discriminate.
Defined.

(** ** Exceptions and results *)

Lemma try_except_returns {world A} (m : M world A) (h : exn -> M world A) w :
  (forall e w1, exists r w2 t, h e w1 = (inr r, w2, t)) ->
  exists r, result_of (try_except m h w) = inr r.
Proof.
  intros Hh. unfold try_except, result_of.
  destruct (m w) as [[[e | a] w1] t1]; simpl; [ | by eexists].
  destruct (Hh e w1) as (r & w2 & t & ->). by eexists.
Qed.

Lemma except_failure_returns {world} (e : exn) (w1 : world) :
  exists r w2 t, except_failure e w1 = (inr r, w2, t).
Proof. by eexists _, _, _. Qed.

Lemma import_except_returns {world} (e : exn) (w1 : world) :
  exists r w2 t, import_except e w1 = (inr r, w2, t).
Proof. unfold import_except. destruct (named_exception e); by eexists _, _, _. Qed.

(** [create_page], [create_block] and [import_markdown] return a result
    whatever the store does: every exception raised inside their [try] is
    turned into a failure result, and the only exception that reaches the
    caller is one raised by [get_session_and_headers], which is called
    before the [try]. *)
Theorem entry_points_raise_only_from_session_setup {world} (api : Api world) (w : world) :
  (forall title content e,
      result_of (create_page api title content w) = inl e
      <-> title <> "" /\ (get_session_and_headers api w).1 = inl e)
  /\ (forall content page_uid page_title e,
         result_of (create_block api content page_uid page_title w) = inl e
         <-> content <> "" /\ (get_session_and_headers api w).1 = inl e)
  /\ (forall content page_uid page_title parent_uid parent_string order e,
         result_of (import_markdown api content page_uid page_title parent_uid
                      parent_string order w) = inl e
         <-> content <> "" /\ (order = "first" \/ order = "last")
             /\ (get_session_and_headers api w).1 = inl e).
Proof.
  split; [ | split].
  - intros title content e. unfold create_page.
    destruct (String.eqb_spec title "") as [-> | Htitle].
    { split; [discriminate | intros [[] _]; reflexivity]. }
    rewrite bind_run. unfold session, call.
    destruct (get_session_and_headers api w) as [[ex | []] w1]; simpl.
    { unfold result_of. simpl. split; [by intros [= ->] | by intros [_ [= ->]]]. }
    match goal with
    | |- context [try_except ?m ?h ?w'] =>
        destruct (try_except_returns m h w' except_failure_returns) as [r Hr];
        destruct (try_except m h w') as [[o w2] t]
    end.
    unfold result_of in *. simpl in *. subst o.
    split; [discriminate | intros [_ [=]]].
  - intros content page_uid page_title e. unfold create_block.
    destruct (String.eqb_spec content "") as [-> | Hcontent].
    { split; [discriminate | intros [[] _]; reflexivity]. }
    rewrite bind_run. unfold session, call.
    destruct (get_session_and_headers api w) as [[ex | []] w1]; simpl.
    { unfold result_of. simpl. split; [by intros [= ->] | by intros [_ [= ->]]]. }
    match goal with
    | |- context [try_except ?m ?h ?w'] =>
        destruct (try_except_returns m h w' except_failure_returns) as [r Hr];
        destruct (try_except m h w') as [[o w2] t]
    end.
    unfold result_of in *. simpl in *. subst o.
    split; [discriminate | intros [_ [=]]].
  - intros content page_uid page_title parent_uid parent_string order e.
    unfold import_markdown.
    destruct (String.eqb_spec content "") as [-> | Hcontent].
    { split; [discriminate | intros [[] _]; reflexivity]. }
    destruct (String.eqb_spec order "first") as [-> | Hfirst];
      [ | destruct (String.eqb_spec order "last") as [-> | Hlast]]; simpl.
    3: { split; [discriminate | intros (_ & [? | ?] & _); congruence]. }
    all: rewrite bind_run; unfold session, call;
      destruct (get_session_and_headers api w) as [[ex | []] w1]; simpl;
      [ unfold result_of; simpl; split; [intros [= ->]; by auto | by intros (_ & _ & [= ->])]
      | match goal with
        | |- context [try_except ?m ?h ?w'] =>
            destruct (try_except_returns m h w' import_except_returns) as [r Hr];
            destruct (try_except m h w') as [[o w2] t]
        end;
        unfold result_of in *; simpl in *; subst o;
        split; [discriminate | intros (_ & _ & [=])] ].
Qed.

(** ** Validation in create_outline *)

Lemma invalid_outline_flags items :
  Forall is_dict items ->
  exists flags,
    map_exn invalid_outline_item items = inr flags
    /\ (existsb id flags = true <-> Exists outline_item_rejected items).
Proof.
  induction 1 as [ | it rest Hit _ (flags & Hflags & Hiff)].
  - exists []. split; [reflexivity | ]. split; [discriminate | by intros ?%Exists_nil].
  - destruct it as [ | ? | ? | ? | ? | ? | t l h c]; try contradiction.
    simpl. rewrite Hflags. eexists. split; [reflexivity | ].
    simpl. rewrite orb_true_iff, Exists_cons, Hiff. simpl.
    rewrite orb_true_iff, !negb_true_iff, bool_decide_eq_false.
    rewrite <- eq_None_not_Some. reflexivity.
Qed.

(** [create_outline] validates before it touches the store.  For a
    non-empty list of dicts: if some item has a missing or falsy text or a
    level that is missing or not an integer, the result is the failure
    "All outline items must have text and a valid level", no call is made
    and the store is as before; otherwise the validation passes and the
    first thing the function does is to set up the session.  The sign of a
    level plays no part. *)
Theorem create_outline_validates_before_any_call {world} (api : Api world)
    (items : list pyobj) (page_title_uid block_text_uid : option string) (w : world) :
  items <> [] ->
  Forall is_dict items ->
  (Exists outline_item_rejected items ->
   create_outline api (PList items) page_title_uid block_text_uid w
   = (inr (failure "All outline items must have text and a valid level"), w, []))
  /\ (~ Exists outline_item_rejected items ->
      exists o t,
        trace_of (create_outline api (PList items) page_title_uid block_text_uid w)
        = EvSession o :: t).
Proof.
  intros Hne Hdicts.
  destruct (invalid_outline_flags items Hdicts) as (flags & Hflags & Hiff).
  assert (Htruthy : truthy (PList items) = true) by (by destruct items).
  unfold create_outline. rewrite Htruthy. cbn [negb].
  rewrite bind_run. simpl. rewrite Hflags. simpl. rewrite bind_run. simpl.
  split.
  - intros Hrej. apply Hiff in Hrej. by rewrite Hrej.
  - intros Hok. destruct (existsb id flags) eqn:Hex; [by destruct Hok; apply Hiff | ].
    rewrite bind_run. unfold session, call.
    destruct (get_session_and_headers api w) as [[ex | []] w1]; [by eexists _, _ | ].
    match goal with
    | |- context [try_except ?m ?h ?w'] => destruct (try_except m h w') as [[o w2] t]
    end.
    by eexists _, _.
Qed.

Lemma create_outline_validates_before_any_call_witness :
  [item "A" 0; PDict (Some (PStr "")) (Some (PInt 1)) None None] <> []
  /\ Forall is_dict [item "A" 0; PDict (Some (PStr "")) (Some (PInt 1)) None None]
  /\ create_outline (script_api [])
       (PList [item "A" 0; PDict (Some (PStr "")) (Some (PInt 1)) None None])
       None None (Script [] [])
     = (inr (failure "All outline items must have text and a valid level"),
        Script [] [], []).
Proof.
  assert (Hdicts : Forall is_dict
                     [item "A" 0; PDict (Some (PStr "")) (Some (PInt 1)) None None])
    by (repeat constructor).
  split; [discriminate | ]. split; [exact Hdicts | ].
  apply (create_outline_validates_before_any_call (script_api [])
           [item "A" 0; PDict (Some (PStr "")) (Some (PInt 1)) None None]
           None None (Script [] [])).
  - discriminate.
  - exact Hdicts.
  - apply Exists_cons_tl, Exists_cons_hd. left. reflexivity.
Defined.

Lemma map_exn_first_error {A B} (f : A -> exn + B) pre x post ex :
  Forall (fun a => exists b, f a = inr b) pre ->
  f x = inl ex ->
  map_exn f (pre ++ x :: post) = inl ex.
Proof.
  induction 1 as [ | a pre [b Hb] _ IH]; intros Hx; simpl.
  - by rewrite Hx.
  - by rewrite Hb, (IH Hx).
Qed.

(** The validation of [create_outline] runs outside the [try]: an item that
    is not a dict makes [item.get] raise an [AttributeError] that reaches
    the caller; no call has been made by then. *)
Theorem create_outline_raises_on_item_that_is_not_a_dict {world} (api : Api world)
    (pre post : list pyobj) (x : pyobj) (page_title_uid block_text_uid : option string)
    (w : world) :
  Forall is_dict pre ->
  ~ is_dict x ->
  create_outline api (PList (pre ++ x :: post)) page_title_uid block_text_uid w
  = (inl (AttributeError x "get"), w, []).
Proof.
  intros Hpre Hx.
  assert (Htruthy : truthy (PList (pre ++ x :: post)) = true) by (by destruct pre).
  unfold create_outline. rewrite Htruthy. cbn [negb].
  rewrite bind_run. simpl.
  rewrite (map_exn_first_error invalid_outline_item pre x post (AttributeError x "get")).
  - reflexivity.
  - eapply Forall_impl; [exact Hpre | ]. simpl.
    intros [ | ? | ? | ? | ? | ? | t l h c]; try contradiction. intros _. by eexists.
  - destruct x; try reflexivity. by destruct Hx.
Qed.

Lemma create_outline_raises_on_item_that_is_not_a_dict_witness :
  Forall is_dict [item "A" 0] /\ ~ is_dict (PStr "B")
  /\ create_outline (script_api []) (PList ([item "A" 0] ++ PStr "B" :: [])) None None
       (Script [] [])
     = (inl (AttributeError (PStr "B") "get"), Script [] [], []).
Proof.
  assert (Hdicts : Forall is_dict [item "A" 0]) by (repeat constructor).
  assert (Hnot : ~ is_dict (PStr "B")) by (intros []).
  split; [exact Hdicts | ]. split; [exact Hnot | ].
  exact (create_outline_raises_on_item_that_is_not_a_dict (script_api [])
           [item "A" 0] [] (PStr "B") None None (Script [] []) Hdicts Hnot).
Defined.

(** ** What create_nested_blocks returns *)

Section NestedResults.
Context {world : Type}.
Variable api : Api world.

(** The loop over the blocks catches every exception. *)
Lemma each_block_returns recurse parent_uid blocks :
  forall created level_to_uid w,
  exists ended,
    result_of (each_block api recurse parent_uid blocks created level_to_uid w)
    = inr ended.
Proof.
  induction blocks as [ | b rest IH]; intros created level_to_uid w; [by eexists | ].
  destruct b as [ | ? | ? | ? | ? | ? | t l h c]; try by eexists.
  cbn [each_block]. rewrite bind_run, attempt_run.
  destruct (create_one_block api parent_uid level_to_uid t l h w)
    as [[[ex | [[lv block_uid] result]] w1] t1]; [by eexists | ].
  destruct (wr_success result).
  - rewrite bind_run, attempt_run.
    destruct (process_children recurse c block_uid (created ++ [block_uid]) w1)
      as [[[ex | created'] w2] t2]; [by eexists | ].
    rewrite bind_run. unfold sleep, emit.
    destruct (IH created' (<[lv := block_uid]> level_to_uid) w2) as [ended Hended].
    destruct (each_block api recurse parent_uid rest created'
                (<[lv := block_uid]> level_to_uid) w2) as [[o w3] t3].
    unfold result_of in *. simpl in *. by eexists.
  - rewrite bind_run. unfold emit.
    destruct (IH created level_to_uid w1) as [ended Hended].
    destruct (each_block api recurse parent_uid rest created level_to_uid w1)
      as [[o w3] t3].
    unfold result_of in *. simpl in *. by eexists.
Qed.

(** What the loop has added to [created_uids] is confirmed by the trace:
    the added uids are, in order, among those of the blocks the store
    reported as created. *)
Lemma each_block_confirmed recurse parent_uid blocks :
  Forall (fun b => forall t l h c block_uid w r,
            b = PDict t l h (Some c) ->
            result_of (recurse c block_uid w) = inr r ->
            created_uids_of r `sublist_of` created_in (trace_of (recurse c block_uid w)))
         blocks ->
  forall created level_to_uid w ended created',
    result_of (each_block api recurse parent_uid blocks created level_to_uid w)
    = inr (ended, created') ->
    exists added,
      created' = created ++ added
      /\ added `sublist_of`
           created_in (trace_of (each_block api recurse parent_uid blocks created
                                   level_to_uid w)).
Proof.
  induction 1 as [ | b rest Hb _ IH]; intros created level_to_uid w ended created' Hrun.
  - injection Hrun as <- <-. exists []. by rewrite app_nil_r.
  - destruct b as [ | ? | ? | ? | ? | ? | t l h c];
      try (injection Hrun as <- <-; exists []; rewrite app_nil_r; split;
           [reflexivity | apply sublist_nil_l]).
    cbn [each_block] in *. rewrite bind_run, attempt_run in *.
    pose proof (create_one_block_run api parent_uid level_to_uid t l h w) as Hone.
    destruct (create_one_block api parent_uid level_to_uid t l h w)
      as [[[ex | [[lv block_uid] result]] w1] t1].
    { injection Hrun as <- <-. exists []. rewrite app_nil_r.
      split; [reflexivity | apply sublist_nil_l]. }
    destruct Hone as (a & -> & Huid & _).
    destruct (wr_success result) eqn:Hsuccess.
    + rewrite bind_run, attempt_run in *.
      assert (Hkids : forall created2 w2 t2,
                 process_children recurse c block_uid (created ++ [block_uid]) w1
                 = (inr created2, w2, t2) ->
                 exists more, created2 = (created ++ [block_uid]) ++ more
                              /\ more `sublist_of` created_in t2).
      { intros created2 w2 t2. unfold process_children.
        destruct c as [children | ];
          [ | intros [= <- <- <-]; exists []; by rewrite app_nil_r].
        destruct (truthy children);
          [ | intros [= <- <- <-]; exists []; by rewrite app_nil_r].
        rewrite bind_run.
        specialize (Hb t l h children block_uid w1).
        destruct (recurse children block_uid w1) as [[[ex | r] w'] t'];
          [discriminate | ].
        specialize (Hb r eq_refl eq_refl). unfold result_of, trace_of in Hb. simpl in Hb.
        destruct (success_of r); simpl.
        - intros [= <- <- <-]. eexists. split; [reflexivity | ].
          by rewrite app_nil_r.
        - intros [= <- <- <-]. exists []. rewrite app_nil_r.
          split; [reflexivity | apply sublist_nil_l]. }
      destruct (process_children recurse c block_uid (created ++ [block_uid]) w1)
        as [[[ex | created2] w2] t2].
      { injection Hrun as <- <-. exists [block_uid].
        split; [reflexivity | ].
        unfold trace_of. simpl. rewrite Hsuccess, Huid, app_nil_r.
        apply sublist_skip, sublist_nil_l. }
      destruct (Hkids created2 w2 t2 eq_refl) as (more & -> & Hmore).
      rewrite bind_run in *. unfold sleep, emit in *.
      specialize (IH ((created ++ [block_uid]) ++ more)
                    (<[lv := block_uid]> level_to_uid) w2).
      destruct (each_block api recurse parent_uid rest ((created ++ [block_uid]) ++ more)
                  (<[lv := block_uid]> level_to_uid) w2) as [[o w3] t3].
      unfold result_of, trace_of in *. simpl in *. subst o.
      destruct (IH ended created' eq_refl) as (added & -> & Hadded).
      exists ([block_uid] ++ more ++ added). rewrite <- !app_assoc.
      split; [reflexivity | ].
      rewrite Hsuccess, Huid, created_in_app. simpl.
      apply sublist_skip, sublist_app; [exact Hmore | exact Hadded].
    + rewrite bind_run in *. unfold emit in *.
      specialize (IH created level_to_uid w1).
      destruct (each_block api recurse parent_uid rest created level_to_uid w1)
        as [[o w3] t3].
      unfold result_of, trace_of in *. simpl in *. subst o.
      destruct (IH ended created' eq_refl) as (added & -> & Hadded).
      exists added. split; [reflexivity | ]. by rewrite Hsuccess.
Qed.

Lemma create_nested_blocks_confirmed blocks_data :
  forall parent_uid w r,
    result_of (create_nested_blocks api blocks_data parent_uid w) = inr r ->
    created_uids_of r
      `sublist_of` created_in (trace_of (create_nested_blocks api blocks_data parent_uid w)).
Proof.
  induction blocks_data as [blocks_data IH] using blocks_ind.
  intros parent_uid w r. rewrite create_nested_blocks_eq.
  destruct (negb (truthy blocks_data)).
  { intros [= <-]. apply sublist_nil_l. }
  rewrite bind_run. unfold session, call.
  destruct (get_session_and_headers api w) as [[ex | []] w1]; [discriminate | ].
  rewrite bind_run.
  destruct blocks_data as [ | ? | ? | ? | ? | blocks | ? ? ? ?];
    try (unfold result_of; simpl; intros [= <-]; apply sublist_nil_l).
  specialize (IH blocks eq_refl).
  pose proof (each_block_confirmed (create_nested_blocks api) parent_uid blocks) as Hloop.
  specialize (Hloop (Forall_impl _ _ _ IH
                       (fun b Hb t l h c block_uid w r Heq Hr => Hb t l h c Heq block_uid w r Hr))
                    [] {[ -1 := parent_uid ]} w1).
  destruct (each_block api (create_nested_blocks api) parent_uid blocks []
              {[ -1 := parent_uid ]} w1) as [[[ex | [ended created]] w2] t2];
    unfold result_of, trace_of in *; simpl in *; [discriminate | ].
  destruct (Hloop ended created eq_refl) as (added & -> & Hadded). simpl in *.
  destruct ended as [ex | ]; simpl; intros [= <-].
  - change (added `sublist_of` created_in (t2 ++ [EvLog "error"
              ("Failed to create nested blocks: " +:+ exn_str ex)])).
    rewrite created_in_app. simpl. by rewrite app_nil_r.
  - rewrite app_nil_r. exact Hadded.
Qed.
End NestedResults.

(** [create_nested_blocks] never lists a block the store has not reported
    as created: whether the result is a success or a failure, its
    [created_uids] are, in order, among the uids of the requests that the
    store answered with success. *)
Theorem create_nested_blocks_lists_only_confirmed_blocks {world} (api : Api world)
    (blocks_data : pyobj) (parent_uid : string) (w : world) (r : gmap string rval) :
  result_of (create_nested_blocks api blocks_data parent_uid w) = inr r ->
  created_uids_of r
    `sublist_of` created_in (trace_of (create_nested_blocks api blocks_data parent_uid w)).
Proof. apply create_nested_blocks_confirmed. Qed.

Lemma create_nested_blocks_lists_only_confirmed_blocks_witness :
  created_uids_of (nested_success ["z"])
    `sublist_of` created_in
                   (trace_of (create_nested_blocks (script_api []) (PList blocks_XYZ) "R"
                                (Script ["x"; "z"] [inr write_failed; inr write_ok]))).
Proof.
  apply (create_nested_blocks_lists_only_confirmed_blocks (script_api [])
           (PList blocks_XYZ) "R" (Script ["x"; "z"] [inr write_failed; inr write_ok])).
  reflexivity.
Defined.

(** [create_nested_blocks] raises only what [get_session_and_headers]
    raises at the top level, and every result it returns, success or
    failure, has the key ["created_uids"]. *)
Theorem create_nested_blocks_always_returns_created_uids {world} (api : Api world)
    (blocks_data : pyobj) (parent_uid : string) (w : world) :
  (forall e,
      result_of (create_nested_blocks api blocks_data parent_uid w) = inl e
      <-> truthy blocks_data = true /\ (get_session_and_headers api w).1 = inl e)
  /\ (forall r,
         result_of (create_nested_blocks api blocks_data parent_uid w) = inr r ->
         exists created_uids, r !! "created_uids" = Some (RUids created_uids)).
Proof.
  rewrite create_nested_blocks_eq.
  destruct (truthy blocks_data); simpl.
  2: { split.
       - intros e. split; [discriminate | intros [[=] _]].
       - intros r [= <-]. by eexists. }
  rewrite bind_run. unfold session, call.
  destruct (get_session_and_headers api w) as [[ex | []] w1]; simpl.
  { unfold result_of. simpl. split.
    - intros e. split; [by intros [= ->] | by intros [_ [= ->]]].
    - discriminate. }
  rewrite bind_run.
  assert (Hended : exists ended,
             result_of (match blocks_data with
                        | PList blocks =>
                            each_block api (create_nested_blocks api) parent_uid blocks []
                              {[ -1 := parent_uid ]}
                        | _ => ret (Some (iter_error blocks_data), [])
                        end w1) = inr ended).
  { destruct blocks_data; try by eexists. apply each_block_returns. }
  destruct Hended as [ended Hended].
  match type of Hended with
  | result_of ?run = _ => destruct run as [[o w2] t2]
  end.
  unfold result_of in *. simpl in *. subst o.
  destruct ended as [[ex | ] created]; simpl.
  - split; [intros e; split; [discriminate | intros [_ [=]]] | ].
    intros r [= <-]. by eexists.
  - split; [intros e; split; [discriminate | intros [_ [=]]] | ].
    intros r [= <-]. by eexists.
Qed.

(** ** The actions of a batch *)

Section ActionFacts.
Context {world : Type}.
Variable api : Api world.
Variables (e : entry) (order : string) (level_items : gmap Z (list flat)) (root : string).

(** The actions a level builds, item by item: the text of the item, the
    order of the entry point for the level, and the heading that the
    heading level of the item gives. *)
Lemma build_level_actions level items :
  forall lpm batch uids w batch' uids' lpm' w' tr,
    build_level api e order level_items root level items lpm batch uids w
    = (inr (batch', uids', lpm'), w', tr) ->
    exists new,
      batch' = batch ++ new
      /\ Forall2 (fun a it =>
                    a_string a = f_text it
                    /\ a_order a = order_for e order level
                    /\ heading_for e (f_heading_level it) = inr (a_heading a))
                 new items.
Proof.
  induction items as [ | item rest IH]; intros lpm batch uids w batch' uids' lpm' w' tr Hrun.
  - injection Hrun as <- <- <- <- <-. exists []. rewrite app_nil_r. by split.
  - rewrite build_level_cons in Hrun.
    destruct (heading_for e (f_heading_level item)) as [ex | heading] eqn:Hheading;
      [discriminate | ].
    apply IH in Hrun as (new & -> & Hnew).
    eexists (_ :: new). rewrite <- app_assoc. split; [reflexivity | ].
    constructor; [ | exact Hnew]. simpl. by rewrite Hheading.
Qed.

(** A property that every built batch of a level has holds of every batch
    of a run, paired with its level. *)
Lemma process_levels_each_batch (Q : Z -> list action -> Prop) levels :
  (forall level lpm w batch uids lpm1 w1 tr,
      build_level api e order level_items root level
        (default [] (level_items !! level)) lpm [] [] w
      = (inr (batch, uids, lpm1), w1, tr) -> Q level batch) ->
  Forall (fun level => default [] (level_items !! level) <> []) levels ->
  forall created lpm w,
    Forall (fun lb => Q lb.1 lb.2)
           (zip levels
              (batches (trace_of (process_levels api e order level_items root levels
                                    (created, lpm) w)))).
Proof.
  intros HQ. induction 1 as [ | level rest Hitems _ IH]; intros created lpm w.
  - constructor.
  - rewrite process_levels_cons.
    pose proof (process_level_outcome api e order level_items root created lpm level w) as Hout.
    destruct (process_level _ _ _ _ _ _ _ _) as [[[ex | [created1 lpm1]] w1] t1].
    + inversion Hout as [ | batch uids lpm0 w0 w2 ex' Hbuild Hbatch Hwrite | | ]; subst;
        [constructor | ].
      apply HQ in Hbuild. unfold trace_of. simpl.
      destruct rest; by repeat constructor.
    + inversion Hout as [ | | batch uids lpm0 w0 w2 r Hbuild Hbatch Hwrite
                         | uids lpm0 w0 Hbuild ]; subst.
      * apply HQ in Hbuild.
        match goal with
        | |- context [process_levels _ _ _ _ _ _ (?c, ?m) ?w'] => specialize (IH c m w')
        end.
        destruct (process_levels _ _ _ _ _ _ _ _) as [[o w3] t3].
        unfold trace_of in *. simpl in *. by constructor.
      * apply build_level_texts in Hbuild as [_ Hne']. by destruct (Hne' Hitems).
Qed.
End ActionFacts.

(** Every action the driver submits is built from one item of the bucket of
    its level: it carries the text of the item; its position is ["last"],
    except that [import_markdown] passes the order of the caller on to the
    blocks of level 0; and it has a heading exactly when the heading level of
    the item yields one, which it never does in [create_outline]. *)
Theorem driver_actions_follow_items {world} (api : Api world) e order root items w :
  Forall (fun lb =>
            Forall2 (fun a it =>
                       a_string a = f_text it
                       /\ a_order a = match e with
                                      | ImportMarkdown => if lb.1 =? 0 then order else "last"
                                      | _ => "last"
                                      end
                       /\ match e with
                          | CreateOutline => a_heading a = None
                          | _ => heading_of (f_heading_level it) = inr (a_heading a)
                          end)
                    lb.2 (filter (fun it => f_level it = lb.1) items))
         (zip (sorted_keys (group_by_level items))
              (batches (trace_of (synchronize api e order root items w)))).
Proof.
  set (Q := fun (level : Z) (batch : list action) =>
              Forall2 (fun a it =>
                         a_string a = f_text it
                         /\ a_order a = match e with
                                        | ImportMarkdown =>
                                            if level =? 0 then order else "last"
                                        | _ => "last"
                                        end
                         /\ match e with
                            | CreateOutline => a_heading a = None
                            | _ => heading_of (f_heading_level it) = inr (a_heading a)
                            end)
                      batch (filter (fun it => f_level it = level) items)).
  change (Forall (fun lb => Q lb.1 lb.2)
            (zip (sorted_keys (group_by_level items))
               (batches (trace_of (synchronize api e order root items w))))).
  assert (Hgoal : Forall (fun lb => Q lb.1 lb.2)
            (zip (sorted_keys (group_by_level items))
               (batches (trace_of (process_levels api e order (group_by_level items) root
                                     (sorted_keys (group_by_level items))
                                     ([], {[ -1 := root ]}) w))))).
  { apply process_levels_each_batch; [ | apply sorted_keys_nonempty].
    intros level lpm0 w0 batch uids lpm1 w1 tr Hbuild.
    apply build_level_actions in Hbuild as (new & -> & Hnew). simpl. unfold Q.
    replace (filter (fun it => f_level it = level) items)
      with (default [] (group_by_level items !! level))
      by (rewrite group_by_level_lookup; by destruct (filter _ items)).
    eapply Forall2_impl; [exact Hnew | ].
    intros a it (Htext & Horder & Hheading). split; [exact Htext | ].
    split; [by destruct e | ].
    destruct e; simpl in Hheading; try exact Hheading. congruence. }
  unfold synchronize, bind, ret.
  destruct (process_levels _ _ _ _ _ _ _ _) as [[[ex | state] w'] tr];
    unfold trace_of in *; simpl in *; [exact Hgoal | ].
  by rewrite app_nil_r.
Qed.

(** ** add_todos *)

Lemma strings_of_strings (todos : list string) :
  strings_of (map PStr todos) = Some todos.
Proof. induction todos as [ | t rest IH]; simpl; [reflexivity | by rewrite IH]. Qed.

Lemma strings_of_not_all_strings items :
  Exists (fun v => isinstance_str v = false) items -> strings_of items = None.
Proof.
  induction 1 as [v rest Hv | v rest _ IH].
  - by destruct v.
  - destruct v; try reflexivity. simpl. by rewrite IH.
Qed.

Lemma todo_actions_run {world} (api : Api world) daily_page_uid todos :
  forall actions todo_uids w,
    todo_actions api daily_page_uid todos actions todo_uids w
    = (inr (actions ++ zip_with (todo_action daily_page_uid) todos
                         (generated_uids api (length todos) w),
            todo_uids ++ generated_uids api (length todos) w),
       after_uids api (length todos) w, []).
Proof.
  induction todos as [ | todo rest IH]; intros actions todo_uids w; simpl.
  - by rewrite !app_nil_r.
  - rewrite bind_run. unfold uuid.
    destruct (uuid4_9 api w) as [u w1]. simpl. rewrite IH. simpl.
    by rewrite <- !app_assoc.
Qed.

(** The run of [add_todos] on a non-empty list of strings, call by call. *)
Lemma add_todos_run {world} (api : Api world) (todos : list string) (w : world) :
  todos <> [] ->
  add_todos api (PList (map PStr todos)) w
  = match get_session_and_headers api w with
    | (inl e, w1) => (inl e, w1, [EvSession (inl e)])
    | (inr _, w1) =>
        match get_daily_page api w1 with
        | (inl e, w2) =>
            (inr (failure (exn_str e)), w2, [EvSession (inr ()); EvGetDailyPage (inl e)])
        | (inr page, w2) =>
            let uids := generated_uids api (length todos) w2 in
            let actions := zip_with (todo_action page) todos uids in
            match execute_write_action api (Batch actions)
                    (after_uids api (length todos) w2) with
            | (inl e, w3) =>
                (inr (failure (exn_str e)), w3,
                 [EvSession (inr ()); EvGetDailyPage (inr page);
                  EvWrite (Batch actions) (inl e)])
            | (inr result, w3) =>
                (inr (if wr_success result
                         || bool_decide (is_Some (wr_created_uids result))
                      then <["success" := RBool true]>
                             (<["created_uids" :=
                                  RUids (default uids (wr_created_uids result))]>
                                (<["page_uid" := RStr page]> ∅))
                      else failure "Failed to create todo items"),
                 w3,
                 [EvSession (inr ()); EvGetDailyPage (inr page);
                  EvWrite (Batch actions) (inr result)])
            end
        end
    end.
Proof.
  intros Hne. unfold add_todos.
  assert (Htruthy : truthy (PList (map PStr todos)) = true) by (by destruct todos).
  rewrite Htruthy. cbn [negb]. rewrite bind_run. simpl.
  rewrite strings_of_strings. rewrite bind_run. unfold session, call.
  destruct (get_session_and_headers api w) as [[e | []] w1]; [reflexivity | ].
  unfold try_except. rewrite bind_run.
  destruct (get_daily_page api w1) as [[e | page] w2]; [reflexivity | ].
  rewrite bind_run, todo_actions_run. simpl. rewrite bind_run. unfold write, call.
  destruct (execute_write_action api _ _) as [[e | result] w3]; [reflexivity | ].
  simpl. by destruct (wr_success result || _).
Qed.

Lemma generated_uids_length {world} (api : Api world) n :
  forall w, length (generated_uids api n w) = n.
Proof. induction n as [ | n IH]; intros w; simpl; [reflexivity | by rewrite IH]. Qed.

Lemma todo_actions_fields page (todos uids : list string) :
  length uids = length todos ->
  map a_uid (zip_with (todo_action page) todos uids) = uids
  /\ map (fun a => (a_parent_uid a, a_order a, a_string a, a_heading a))
         (zip_with (todo_action page) todos uids)
     = map (fun t => (page, "last", PStr ("{{[[TODO]]}} " +:+ t), None)) todos.
Proof.
  revert uids. induction todos as [ | t rest IH]; intros [ | u uids] Hlen;
    try discriminate; [by split | ].
  simpl in Hlen. destruct (IH uids) as [Huids Hfields]; [lia | ].
  simpl. by rewrite Huids, Hfields.
Qed.

(** [add_todos] on a non-empty list of strings submits at most one batch.
    The batch holds one action per todo, in order, under today's daily page,
    at position ["last"], with the text ["{{[[TODO]]}} "] followed by the
    todo.  Unlike the level drivers, [add_todos] looks at the answer: a
    response that reports neither success nor identifiers gives the failure
    "Failed to create todo items"; otherwise the result is a success that
    lists the identifiers of the response if it carries any and the uids
    generated locally if not. *)
Theorem add_todos_submits_one_batch_and_checks_the_answer {world} (api : Api world)
    (todos : list string) (w : world) :
  todos <> [] ->
  let run := add_todos api (PList (map PStr todos)) w in
  forall b o,
    EvWrite (Batch b) o ∈ trace_of run ->
    batches (trace_of run) = [b]
    /\ (exists page,
          EvGetDailyPage (inr page) ∈ trace_of run
          /\ map (fun a => (a_parent_uid a, a_order a, a_string a, a_heading a)) b
             = map (fun t => (page, "last", PStr ("{{[[TODO]]}} " +:+ t), None)) todos)
    /\ match o with
       | inl e => result_of run = inr (failure (exn_str e))
       | inr r =>
           if wr_success r || bool_decide (is_Some (wr_created_uids r))
           then returned run "success" = Some (RBool true)
                /\ returned run "created_uids"
                   = Some (RUids (default (map a_uid b) (wr_created_uids r)))
           else result_of run = inr (failure "Failed to create todo items")
       end.
Proof.
  intros Hne run b o Hin. subst run. rewrite add_todos_run in * by exact Hne.
  destruct (get_session_and_headers api w) as [[e | []] w1].
  { unfold trace_of in Hin. simpl in Hin.
    apply elem_of_cons in Hin as [Hin | Hin]; [discriminate | by apply elem_of_nil in Hin]. }
  destruct (get_daily_page api w1) as [[e | page] w2].
  { unfold trace_of in Hin. simpl in Hin.
    repeat (apply elem_of_cons in Hin as [Hin | Hin]; [discriminate | ]).
    by apply elem_of_nil in Hin. }
  cbv zeta in *.
  destruct (todo_actions_fields page todos (generated_uids api (length todos) w2)
              (generated_uids_length api _ w2)) as [Huids Hfields].
  destruct (execute_write_action api _ _) as [[e | result] w3];
    unfold trace_of, result_of, returned in *; simpl in *;
    (apply elem_of_cons in Hin as [Hin | Hin]; [discriminate | ]);
    (apply elem_of_cons in Hin as [Hin | Hin]; [discriminate | ]);
    (apply elem_of_cons in Hin as [Hin | Hin]; [ | by apply elem_of_nil in Hin]);
    injection Hin as -> ->.
  - split; [reflexivity | ]. split; [ | reflexivity].
    exists page. split; [ | exact Hfields]. apply elem_of_cons. right. constructor.
  - split; [reflexivity | ]. split.
    + exists page. split; [ | exact Hfields]. apply elem_of_cons. right. constructor.
    + rewrite Huids. by destruct (wr_success result || _).
Qed.

Lemma add_todos_submits_one_batch_and_checks_the_answer_witness :
  ["buy milk"] <> []
  /\ result_of (add_todos (script_api []) (PList (map PStr ["buy milk"]))
                  (Script ["u"] [inr write_failed]))
     = inr (failure "Failed to create todo items").
Proof.
  assert (Hne : ["buy milk"] <> []) by discriminate.
  split; [exact Hne | ].
  refine (proj2 (proj2 (add_todos_submits_one_batch_and_checks_the_answer (script_api [])
                          ["buy milk"] (Script ["u"] [inr write_failed]) Hne
                          [todo_action "daily" "buy milk" "u"] (inr write_failed) _))).
  apply elem_of_cons. right. apply elem_of_cons. right. constructor.
Defined.

(** [add_todos] checks its argument before it touches the store: a
    non-empty list with an item that is not a string is answered with the
    failure "All todo items must be strings", without any call. *)
Theorem add_todos_validates_before_any_call {world} (api : Api world)
    (items : list pyobj) (w : world) :
  Exists (fun v => isinstance_str v = false) items ->
  add_todos api (PList items) w
  = (inr (failure "All todo items must be strings"), w, []).
Proof.
  intros Hitems. unfold add_todos.
  assert (Htruthy : truthy (PList items) = true).
  { destruct items; [by apply Exists_nil in Hitems | reflexivity]. }
  rewrite Htruthy. cbn [negb]. rewrite bind_run. simpl.
  by rewrite (strings_of_not_all_strings items Hitems).
Qed.

Lemma add_todos_validates_before_any_call_witness :
  Exists (fun v => isinstance_str v = false) [PStr "buy milk"; PInt 3]
  /\ add_todos (script_api []) (PList [PStr "buy milk"; PInt 3]) (Script [] [])
     = (inr (failure "All todo items must be strings"), Script [] [], []).
Proof.
  assert (Hitems : Exists (fun v => isinstance_str v = false) [PStr "buy milk"; PInt 3])
    by (apply Exists_cons_tl, Exists_cons_hd; reflexivity).
  split; [exact Hitems | ].
  exact (add_todos_validates_before_any_call (script_api [])
           [PStr "buy milk"; PInt 3] (Script [] []) Hitems).
Defined.

(** ** create_block on a single line *)

(** "Determine target page" asks for a page at most once and submits
    nothing. *)
Lemma target_page_trace {world} (api : Api world) page_uid page_title w :
  Forall (fun ev => match ev with
                    | EvFindOrCreatePage _ _ | EvGetDailyPage _ => True
                    | _ => False
                    end)
         (trace_of (target_page api page_uid page_title w)).
Proof.
  unfold target_page, call, ret, trace_of.
  destruct (given page_uid); [constructor | ].
  destruct (given page_title).
  - destruct (find_or_create_page api _ w) as [o w1]. by repeat constructor.
  - destruct (get_daily_page api w) as [o w1]. by repeat constructor.
Qed.

(** The run of [create_block] on content without a line break, call by
    call. *)
Lemma create_block_single_line_run {world} (api : Api world)
    (content : string) (page_uid page_title : option string) (w : world) :
  content <> "" ->
  contains_newline content = false ->
  create_block api content page_uid page_title w
  = match get_session_and_headers api w with
    | (inl e, w1) => (inl e, w1, [EvSession (inl e)])
    | (inr _, w1) =>
        match target_page api page_uid page_title w1 with
        | (inl e, w2, t) => (inr (failure (exn_str e)), w2, EvSession (inr ()) :: t)
        | (inr target, w2, t) =>
            let a := Action target "last" (PStr content) (uuid4_9 api w2).1 None in
            match execute_write_action api (Single a) (uuid4_9 api w2).2 with
            | (inl e, w4) =>
                (inr (failure (exn_str e)), w4,
                 EvSession (inr ()) :: t ++ [EvWrite (Single a) (inl e)])
            | (inr r, w4) =>
                if wr_success r then
                  match find_block_uid api content w4 with
                  | (inl e, w5) =>
                      (inr (failure (exn_str e)), w5,
                       EvSession (inr ()) :: t
                       ++ [EvWrite (Single a) (inr r); EvSleep 1000;
                           EvFindBlockUid content (inl e)])
                  | (inr found, w5) =>
                      (inr (<["success" := RBool true]>
                              (<["block_uid" := RStr (default (a_uid a) found)]>
                                 (<["parent_uid" := RStr target]> ∅))), w5,
                       EvSession (inr ()) :: t
                       ++ [EvWrite (Single a) (inr r); EvSleep 1000;
                           EvFindBlockUid content (inr found)])
                  end
                else
                  (inr (failure "Failed to create block"), w4,
                   EvSession (inr ()) :: t ++ [EvWrite (Single a) (inr r)])
            end
        end
    end.
Proof.
  intros Hcontent Hline. unfold create_block.
  apply String.eqb_neq in Hcontent. rewrite Hcontent, Hline.
  rewrite bind_run. unfold session, call.
  destruct (get_session_and_headers api w) as [[e | []] w1]; [reflexivity | ].
  unfold try_except. rewrite bind_run.
  destruct (target_page api page_uid page_title w1) as [[[e | target] w2] t].
  { unfold except_failure, ret. simpl. by rewrite app_nil_r. }
  rewrite bind_run. unfold uuid.
  destruct (uuid4_9 api w2) as [block_uid w3]. simpl.
  rewrite bind_run. unfold write, call.
  destruct (execute_write_action api _ w3) as [[e | r] w4]; simpl.
  { by rewrite app_nil_r. }
  destruct (wr_success r); [ | reflexivity].
  unfold bind, sleep, emit, call, ret.
  destruct (find_block_uid api content w4) as [[e | found] w5]; simpl;
    by rewrite ?app_nil_r.
Qed.

Lemma singles_app t1 t2 : singles (t1 ++ t2) = singles t1 ++ singles t2.
Proof. apply flat_map_app. Qed.

Lemma page_events_only (t : list event) :
  Forall (fun ev => match ev with
                    | EvFindOrCreatePage _ _ | EvGetDailyPage _ => True
                    | _ => False
                    end) t ->
  batches t = [] /\ singles t = []
  /\ (forall arg o, EvWrite arg o ∉ t)
  /\ (forall text o, EvFindBlockUid text o ∉ t).
Proof.
  induction 1 as [ | ev t Hev _ (Hb & Hs & Hw & Hf)].
  - repeat split; try reflexivity; intros; apply not_elem_of_nil.
  - destruct ev; try contradiction; simpl;
      (split; [exact Hb | ]; split; [exact Hs | ]; split;
       [intros arg o' [Heq | Hin]%elem_of_cons; [discriminate | by apply (Hw arg o')]
       | intros text o' [Heq | Hin]%elem_of_cons; [discriminate | by apply (Hf text o')]]).
Qed.

(** [create_block] on content without a line break submits no batch and at
    most one single action: the content as it is, at position ["last"],
    without heading.  If that call raises or the response does not report
    success, the result is a failure and the call is the last thing the
    function does, even if the response carries identifiers; if the response
    reports success, the block is looked up by its text, and the result
    names the uid found (a non-empty string), or else the uid generated
    locally, together with the parent of the action. *)
Theorem create_block_single_line {world} (api : Api world)
    (content : string) (page_uid page_title : option string) (w : world) :
  content <> "" ->
  contains_newline content = false ->
  let run := create_block api content page_uid page_title w in
  batches (trace_of run) = []
  /\ forall a o,
       EvWrite (Single a) o ∈ trace_of run ->
       singles (trace_of run) = [a]
       /\ a_string a = PStr content /\ a_order a = "last" /\ a_heading a = None
       /\ match o with
          | inl e =>
              result_of run = inr (failure (exn_str e))
              /\ last (trace_of run) = Some (EvWrite (Single a) o)
          | inr r =>
              if wr_success r then
                forall found,
                  found <> Some "" ->
                  EvFindBlockUid content (inr found) ∈ trace_of run ->
                  returned run "success" = Some (RBool true)
                  /\ returned run "block_uid" = Some (RStr (default (a_uid a) found))
                  /\ returned run "parent_uid" = Some (RStr (a_parent_uid a))
              else
                result_of run = inr (failure "Failed to create block")
                /\ last (trace_of run) = Some (EvWrite (Single a) o)
          end.
Proof.
  intros Hcontent Hline run. subst run.
  rewrite (create_block_single_line_run api content page_uid page_title w Hcontent Hline).
  destruct (get_session_and_headers api w) as [[e | []] w1].
  { split; [reflexivity | ]. intros a o Hin. unfold trace_of in Hin. simpl in Hin.
    apply elem_of_cons in Hin as [Hin | Hin]; [discriminate | by apply elem_of_nil in Hin]. }
  pose proof (target_page_trace api page_uid page_title w1) as Hpage.
  destruct (target_page api page_uid page_title w1) as [[[e | target] w2] t].
  { unfold trace_of in *. simpl in *.
    destruct (page_events_only t Hpage) as (Hb & _ & Hw & _).
    split; [exact Hb | ]. intros a o [Hin | Hin]%elem_of_cons; [discriminate | ].
    by apply Hw in Hin. }
  unfold trace_of in Hpage. simpl in Hpage.
  destruct (page_events_only t Hpage) as (Hb & Hs & Hw & Hf).
  cbv zeta.
  set (a0 := Action target "last" (PStr content) (uuid4_9 api w2).1 None).
  destruct (execute_write_action api (Single a0) (uuid4_9 api w2).2) as [[e | r] w4].
  - unfold trace_of, result_of. simpl.
    split; [by rewrite batches_app, Hb | ].
    intros a o [Hin | Hin]%elem_of_cons; [discriminate | ].
    apply elem_of_app in Hin as [Hin | Hin]; [by apply Hw in Hin | ].
    apply list_elem_of_singleton in Hin. injection Hin as -> ->.
    rewrite singles_app, Hs. repeat split; try reflexivity.
    change (last ((EvSession (inr ()) :: t) ++ [EvWrite (Single a0) (inl e)])
            = Some (EvWrite (Single a0) (inl e))).
    apply last_snoc.
  - destruct (wr_success r) eqn:Hsuccess.
    + destruct (find_block_uid api content w4) as [[e | found] w5];
        unfold trace_of, result_of, returned; simpl;
        (split; [by rewrite batches_app, Hb | ]);
        intros a o [Hin | Hin]%elem_of_cons; try discriminate;
        (apply elem_of_app in Hin as [Hin | Hin]; [by apply Hw in Hin | ]);
        (apply elem_of_cons in Hin as [Hin | Hin];
         [ | apply elem_of_cons in Hin as [Hin | Hin]; [discriminate | ];
             apply elem_of_cons in Hin as [Hin | Hin];
             [discriminate | by apply elem_of_nil in Hin]]);
        injection Hin as -> ->;
        rewrite singles_app, Hs, Hsuccess;
        (do 4 (split; [reflexivity | ]));
        intros found' _ [Hin | Hin]%elem_of_cons; try discriminate;
        (apply elem_of_app in Hin as [Hin | Hin]; [by apply Hf in Hin | ]);
        (apply elem_of_cons in Hin as [Hin | Hin]; [discriminate | ]);
        (apply elem_of_cons in Hin as [Hin | Hin]; [discriminate | ]);
        (apply elem_of_cons in Hin as [Hin | Hin]; [ | by apply elem_of_nil in Hin]);
        try discriminate.
      injection Hin as ->. repeat split; reflexivity.
    + unfold trace_of, result_of. simpl.
      split; [by rewrite batches_app, Hb | ].
      intros a o [Hin | Hin]%elem_of_cons; [discriminate | ].
      apply elem_of_app in Hin as [Hin | Hin]; [by apply Hw in Hin | ].
      apply list_elem_of_singleton in Hin. injection Hin as -> ->.
      rewrite singles_app, Hs, Hsuccess. repeat split; try reflexivity.
      change (last ((EvSession (inr ()) :: t) ++ [EvWrite (Single a0) (inr r)])
              = Some (EvWrite (Single a0) (inr r))).
      apply last_snoc.
Qed.

Lemma create_block_single_line_witness :
  "hello" <> "" /\ contains_newline "hello" = false
  /\ batches (trace_of (create_block (script_api []) "hello" (Some "page") None
                          (Script ["u"] [inr write_failed]))) = [].
Proof.
  assert (Hcontent : "hello" <> "") by discriminate.
  assert (Hline : contains_newline "hello" = false) by reflexivity.
  split; [exact Hcontent | ]. split; [exact Hline | ].
  exact (proj1 (create_block_single_line (script_api []) "hello" (Some "page") None
                  (Script ["u"] [inr write_failed]) Hcontent Hline)).
Defined.

(** ** update_content *)

(** When a transformation pattern is given, [update_content] ignores the
    [content] argument: the call behaves as if no content had been passed. *)
Theorem update_content_pattern_takes_precedence {world} (api : UpdateApi world)
    (block_uid : string) (content : option string) (p : pattern) (w : world) :
  pattern_truthy p = true ->
  update_content api block_uid content p w = update_content api block_uid None p w.
Proof.
  intros Hp. unfold update_content. rewrite Hp. cbn [negb].
  by rewrite !andb_false_r.
Qed.

Lemma update_content_pattern_takes_precedence_witness :
  pattern_truthy (PatternDict (Some (PStr "a")) (Some (PStr "b")) None false) = true
  /\ update_content (update_script_api (Some "abc")) "uid" (Some "new")
       (PatternDict (Some (PStr "a")) (Some (PStr "b")) None false) tt
     = update_content (update_script_api (Some "abc")) "uid" None
         (PatternDict (Some (PStr "a")) (Some (PStr "b")) None false) tt.
Proof.
  assert (Hp : pattern_truthy (PatternDict (Some (PStr "a")) (Some (PStr "b")) None false)
               = true) by reflexivity.
  split; [exact Hp | ].
  exact (update_content_pattern_takes_precedence (update_script_api (Some "abc"))
           "uid" (Some "new") _ tt Hp).
Defined.

Lemma pattern_cases (p : pattern) :
  well_formed_pattern p
  \/ (~ well_formed_pattern p
      /\ match p with
         | PatternDict (Some _) (Some _) _ _ => False
         | _ => True
         end).
Proof.
  destruct p as [[find | ] [replace | ] global other | truth];
    first [ by left; eexists _, _, _, _
          | right; split; [intros (? & ? & ? & ? & [=]) | exact I] ].
Qed.

(** [update_content] makes no call exactly when the block uid is empty,
    when neither content nor pattern is given, or when the pattern given is
    not a dict with ["find"] and ["replace"]; the store is then left as it
    was and the result reports failure. *)
Theorem update_content_checks_before_any_call {world} (api : UpdateApi world)
    (block_uid : string) (content : option string) (p : pattern) (w : world) :
  let run := update_content api block_uid content p w in
  (run.2 = [] <-> update_rejected block_uid content p)
  /\ (update_rejected block_uid content p ->
      run.1.2 = w /\ success_of run.1.1 = false).
Proof.
  cbv zeta. unfold update_content, update_rejected.
  destruct (String.eqb_spec block_uid "") as [-> | Huid].
  { simpl. split; [split; [by left | done] | done]. }
  destruct (given content) as [c | ] eqn:Hcontent; cbn [is_Some bool_decide negb andb].
  - rewrite bool_decide_true by eauto. cbn [negb andb].
    destruct (pattern_truthy p) eqn:Hp.
    + destruct (pattern_cases p) as [(find & replace & global & other & ->) | [Hnot Hp']].
      * assert (Hno : ~ update_rejected block_uid content
                        (PatternDict (Some find) (Some replace) global other)).
        { intros [? | [[? ?] | [_ Hnot]]]; [done | congruence | ].
          apply Hnot. by eexists _, _, _, _. }
        unfold update_rejected in Hno. rewrite Hcontent in Hno.
        destruct (execute_query_string api _ w) as [[e | current] w1];
          [by split; [split | ] | ].
        destruct (given current); [ | by split; [split | ]].
        destruct (re_sub api _ _ _ _); [by split; [split | ] | ].
        destruct (update_block api _ _ w1) as [[e | r] w2]; by split; [split | ].
      * destruct p as [[find | ] [replace | ] global other | truth];
          try contradiction; simpl;
          (split; [split; [intros _; right; right; by split | done] | ]);
          intros _; by split.
    + destruct (update_block api _ _ w) as [[e | r] w1]; simpl;
        (split; [split; [done | intros [? | [[? ?] | [? ?]]]; congruence] | ]);
        intros [? | [[? ?] | [? ?]]]; congruence.
  - rewrite bool_decide_false by (by intros [? ?]). cbn [negb andb].
    destruct (pattern_truthy p) eqn:Hp.
    + destruct (pattern_cases p) as [(find & replace & global & other & ->) | [Hnot Hp']].
      * assert (Hno : ~ update_rejected block_uid content
                        (PatternDict (Some find) (Some replace) global other)).
        { intros [? | [[? ?] | [_ Hnot]]]; [done | congruence | ].
          apply Hnot. by eexists _, _, _, _. }
        unfold update_rejected in Hno. rewrite Hcontent in Hno.
        destruct (execute_query_string api _ w) as [[e | current] w1];
          [by split; [split | ] | ].
        destruct (given current); [ | by split; [split | ]].
        destruct (re_sub api _ _ _ _); [by split; [split | ] | ].
        destruct (update_block api _ _ w1) as [[e | r] w2]; by split; [split | ].
      * destruct p as [[find | ] [replace | ] global other | truth];
          try contradiction; simpl;
          (split; [split; [intros _; right; right; by split | done] | ]);
          intros _; by split.
    + simpl. split; [split; [intros _; right; left; by split | done] | ].
      intros _. by split.
Qed.

Lemma success_of_failure (error : string) : success_of (failure error) = false.
Proof. reflexivity. Qed.

Lemma success_of_transform_except {world} (api : UpdateApi world) (e : exn) :
  success_of (transform_except api e) = false.
Proof. unfold transform_except. by destruct (is_re_error api e). Qed.

(** [update_content] asks for at most one change, of the block it was given,
    as the last thing it does, and its result tells the truth about that
    change: it reports success exactly when the change was made without an
    exception, and then carries the content that was written. *)
Theorem update_content_reports_what_it_wrote {world} (api : UpdateApi world)
    (block_uid : string) (content : option string) (p : pattern) (w : world) :
  let run := update_content api block_uid content p w in
  (forall uid written o,
     EvUpdateBlock uid written o ∈ run.2 ->
     uid = block_uid
     /\ last run.2 = Some (EvUpdateBlock uid written o)
     /\ match o with
        | inr _ => run.1.1 = updated written
        | inl _ => success_of run.1.1 = false
        end)
  /\ (success_of run.1.1 = true ->
      exists written r, EvUpdateBlock block_uid written (inr r) ∈ run.2).
Proof.
  cbv zeta. unfold update_content.
  destruct (String.eqb block_uid "");
    [split; [intros ? ? ? []%elem_of_nil | discriminate] | ].
  destruct (negb _ && negb _);
    [split; [intros ? ? ? []%elem_of_nil | discriminate] | ].
  destruct (pattern_truthy p).
  - destruct p as [[find | ] [replace | ] global other | truth];
      try (split; [intros ? ? ? []%elem_of_nil | discriminate]).
    destruct (execute_query_string api _ w) as [[e | current] w1]; simpl.
    { split; [ | discriminate].
      intros ? ? ? [[=] | []%elem_of_nil]%elem_of_cons. }
    destruct (given current); simpl.
    2: { split; [ | discriminate].
         intros ? ? ? [[=] | []%elem_of_nil]%elem_of_cons. }
    destruct (re_sub api _ _ _ _) as [e | new_content]; simpl.
    { split; [ | by rewrite success_of_transform_except].
      intros ? ? ? [[=] | []%elem_of_nil]%elem_of_cons. }
    destruct (update_block api _ _ w1) as [[e | r] w2]; simpl.
    + split; [ | by rewrite success_of_transform_except].
      intros ? ? ? [[=] | [[= -> -> ->] | []%elem_of_nil]%elem_of_cons]%elem_of_cons.
      repeat split. apply success_of_transform_except.
    + split; [ | intros _; exists (Some new_content), r; apply elem_of_cons; right; constructor].
      intros ? ? ? [[=] | [[= -> -> ->] | []%elem_of_nil]%elem_of_cons]%elem_of_cons.
      by repeat split.
  - destruct (update_block api _ _ w) as [[e | r] w1]; simpl.
    + split; [ | discriminate].
      intros ? ? ? [[= -> -> ->] | []%elem_of_nil]%elem_of_cons. by repeat split.
    + split; [ | intros _; exists content, r; constructor].
      intros ? ? ? [[= -> -> ->] | []%elem_of_nil]%elem_of_cons. by repeat split.
Qed.

(** A transformation writes what the regular expression engine made of the
    string that was read: when a pattern is given, [update_content] changes
    the block only after it has read a non-empty current string, and the
    content it writes is [re.sub] of the pattern's ["find"] and ["replace"]
    on that string, everywhere unless ["global"] is falsy. *)
Theorem update_content_transforms_the_string_it_read {world} (api : UpdateApi world)
    (block_uid : string) (content : option string) (p : pattern) (w : world)
    (uid : string) (written : option string) (o : exn + unit) :
  pattern_truthy p = true ->
  EvUpdateBlock uid written o ∈ (update_content api block_uid content p w).2 ->
  exists find replace global other_keys current new_content,
    p = PatternDict (Some find) (Some replace) global other_keys
    /\ (update_content api block_uid content p w).2
       = [EvQueryString (block_string_query block_uid) (inr (Some current));
          EvUpdateBlock block_uid (Some new_content) o]
    /\ current <> ""
    /\ re_sub api find replace current (replace_count global) = inr new_content
    /\ written = Some new_content.
Proof.
  intros Hp. unfold update_content. rewrite Hp.
  destruct (String.eqb block_uid ""); [by intros []%elem_of_nil | ].
  cbn [negb]. rewrite andb_false_r.
  destruct p as [[find | ] [replace | ] global other | truth];
    try (by intros []%elem_of_nil).
  destruct (execute_query_string api _ w) as [[e | current] w1]; simpl.
  { by intros [[=] | []%elem_of_nil]%elem_of_cons. }
  destruct current as [current | ]; simpl;
    [ | by intros [[=] | []%elem_of_nil]%elem_of_cons].
  destruct (String.eqb_spec current "") as [-> | Hcurrent]; simpl.
  { by intros [[=] | []%elem_of_nil]%elem_of_cons. }
  fold (replace_count global).
  destruct (re_sub api find replace current (replace_count global))
    as [e | new_content] eqn:Hsub; simpl.
  { by intros [[=] | []%elem_of_nil]%elem_of_cons. }
  destruct (update_block api _ _ w1) as [[e | r] w2]; simpl;
    intros [[=] | [[= -> -> ->] | []%elem_of_nil]%elem_of_cons]%elem_of_cons;
    by eexists find, replace, global, other, current, new_content.
Qed.

Lemma update_content_transforms_the_string_it_read_witness :
  exists current new_content,
    (update_content (update_script_api (Some "abc")) "uid" None
       (PatternDict (Some (PStr "a")) (Some (PStr "b")) None false) tt).2
    = [EvQueryString (block_string_query "uid") (inr (Some current));
       EvUpdateBlock "uid" (Some new_content) (inr tt)]
    /\ current <> "".
Proof.
  destruct (update_content_transforms_the_string_it_read
              (update_script_api (Some "abc")) "uid" None
              (PatternDict (Some (PStr "a")) (Some (PStr "b")) None false) tt
              "uid" (Some "b") (inr tt) eq_refl)
    as (find & replace & global & other & current & new_content & _ & Htrace & Hcurrent & _).
  - vm_compute. apply elem_of_cons. right. constructor.
  - by exists current, new_content.
Defined.

(** ** update_multiple_contents *)

Lemma well_formed_update_cases (u : update) :
  well_formed_update u
  \/ (~ well_formed_update u
      /\ match u with
         | Update (Some _) _ (Some (PatternDict (Some _) (Some _) _ _)) => False
         | Update (Some _) (Some _) None => False
         | _ => True
         end).
Proof.
  destruct u as [[uid | ] [content | ] [[[find | ] [replace | ] global other | truth] | ]];
    first
      [ left; split; [by eexists | ]; split;
        [first [by left; eexists | by right; eexists] | ];
        intros p [= <-] || intros p [=]; by eexists _, _, _, _
      | right; split; [ | exact I]; intros (Huid & Hany & Hpattern); simpl in *;
        first [ by destruct Huid
              | by destruct Hany as [[? ?] | [? ?]]
              | by destruct (Hpattern _ eq_refl) as (? & ? & ? & ? & ?) ] ].
Qed.

(** The validation loop accepts a list exactly when every update in it is
    well formed, and otherwise reports the first update that is not, under
    its index. *)
Lemma validate_updates_spec (updates : list update) (i : nat) :
  match validate_updates i updates with
  | None => Forall well_formed_update updates
  | Some error =>
      exists n u reason,
        updates !! n = Some u /\ ~ well_formed_update u
        /\ Forall well_formed_update (take n updates)
        /\ (error = "Update at index " +:+ pretty (i + n)%nat +:+ reason
            \/ error = "Transform at index " +:+ pretty (i + n)%nat +:+ reason)
  end.
Proof.
  revert i. induction updates as [ | u rest IH]; intros i; [constructor | ].
  assert (Hhere : forall (kind reason : string),
             ~ well_formed_update u ->
             kind = "Update" \/ kind = "Transform" ->
             exists n u' reason',
               (u :: rest) !! n = Some u' /\ ~ well_formed_update u'
               /\ Forall well_formed_update (take n (u :: rest))
               /\ (kind +:+ " at index " +:+ pretty i +:+ reason
                   = "Update at index " +:+ pretty (i + n)%nat +:+ reason'
                   \/ kind +:+ " at index " +:+ pretty i +:+ reason
                      = "Transform at index " +:+ pretty (i + n)%nat +:+ reason')).
  { intros kind reason Hnot Hkind. exists 0%nat, u, reason.
    rewrite Nat.add_0_r. repeat split; [exact Hnot | constructor | ].
    by destruct Hkind as [-> | ->]; [left | right]. }
  assert (Hnext : well_formed_update u ->
             match validate_updates (S i) rest with
             | None => Forall well_formed_update (u :: rest)
             | Some error =>
                 exists n u' reason,
                   (u :: rest) !! n = Some u' /\ ~ well_formed_update u'
                   /\ Forall well_formed_update (take n (u :: rest))
                   /\ (error = "Update at index " +:+ pretty (i + n)%nat +:+ reason
                       \/ error = "Transform at index " +:+ pretty (i + n)%nat +:+ reason)
             end).
  { intros Hu. specialize (IH (S i)).
    destruct (validate_updates (S i) rest) as [error | ]; [ | by constructor].
    destruct IH as (n & u' & reason & Hlookup & Hnot & Hbefore & Herror).
    exists (S n), u', reason. replace (i + S n)%nat with (S i + n)%nat by lia.
    repeat split; [exact Hlookup | exact Hnot | by constructor | exact Herror]. }
  destruct (well_formed_update_cases u) as [Hu | [Hnot Hshape]].
  - destruct u as [[uid | ] [content | ] [[[find | ] [replace | ] global other | truth] | ]];
      try (exfalso; destruct Hu as (Huid & Hany & Hpattern); simpl in *;
           first [ by destruct Huid
                 | by destruct Hany as [[? ?] | [? ?]]
                 | by destruct (Hpattern _ eq_refl) as (? & ? & ? & ? & ?) ]);
      by apply Hnext.
  - destruct u as [[uid | ] [content | ] [[[find | ] [replace | ] global other | truth] | ]];
      try contradiction; simpl;
      first [ by apply (Hhere "Update" _ Hnot); left
            | by apply (Hhere "Transform" _ Hnot); right ].
Qed.

(** An update that is not well formed stops [update_multiple_contents]
    before anything is sent: the result is a failure whose message names the
    index of the first such update in the list, and the store is left as it
    was, also for the well-formed updates before it. *)
Theorem update_multiple_contents_reports_first_invalid_update {world}
    (api : UpdateApi world) (updates : list update) (n : nat) (u : update)
    (w : world) :
  updates !! n = Some u ->
  ~ well_formed_update u ->
  Forall well_formed_update (take n updates) ->
  exists reason,
    (update_multiple_contents api (UpdatesList updates) w
     = (updates_failure ("Update at index " +:+ pretty n +:+ reason), w, [])
     \/ update_multiple_contents api (UpdatesList updates) w
        = (updates_failure ("Transform at index " +:+ pretty n +:+ reason), w, [])).
Proof.
  intros Hlookup Hnot Hbefore.
  pose proof (validate_updates_spec updates 0) as Hspec.
  unfold update_multiple_contents.
  destruct updates as [ | u0 rest]; [discriminate | ].
  destruct (validate_updates 0 (u0 :: rest)) as [error | ].
  - destruct Hspec as (n' & u' & reason & Hlookup' & Hnot' & Hbefore' & Herror).
    assert (n' = n) as ->.
    { destruct (Nat.lt_trichotomy n' n) as [Hlt | [Heq | Hgt]]; [ | exact Heq | ].
      - exfalso. apply Hnot'.
        apply (proj1 (Forall_lookup _ _) Hbefore n' u').
        by rewrite lookup_take_lt.
      - exfalso. apply Hnot.
        apply (proj1 (Forall_lookup _ _) Hbefore' n u).
        by rewrite lookup_take_lt. }
    exists reason. destruct Herror as [-> | ->]; [by left | by right].
  - exfalso. apply Hnot. by apply (proj1 (Forall_lookup _ _) Hspec n u).
Qed.

Lemma update_multiple_contents_reports_first_invalid_update_witness :
  exists reason,
    update_multiple_contents (update_script_api None)
      (UpdatesList [Update (Some (PStr "a")) (Some (PStr "x")) None;
                    Update (Some (PStr "b")) None None]) tt
    = (updates_failure ("Update at index 1" +:+ reason), tt, []).
Proof.
  destruct (update_multiple_contents_reports_first_invalid_update
              (update_script_api None)
              [Update (Some (PStr "a")) (Some (PStr "x")) None;
               Update (Some (PStr "b")) None None]
              1 (Update (Some (PStr "b")) None None) tt eq_refl)
    as (reason & [Hrun | Hrun]).
  - intros (_ & [[? [=]] | [? [=]]] & _).
  - apply Forall_cons. split; [ | by apply Forall_nil].
    split; [by eexists | ]. split; [by left; eexists | intros p [=]].
  - by exists reason.
  - exfalso. vm_compute in Hrun. discriminate Hrun.
Defined.

Lemma length_filter_all {A} (P : A -> Prop) `{!forall x, Decision (P x)} (l : list A) :
  length (filter P l) = length l <-> Forall P l.
Proof.
  induction l as [ | x l IH]; [by split; [constructor | ] | ].
  rewrite filter_cons. destruct (decide (P x)) as [Hx | Hx].
  - simpl. rewrite Forall_cons. split.
    + intros [= Hlen]. split; [exact Hx | by apply IH].
    + intros [_ Hall]. f_equal. by apply IH.
  - split.
    + intros Hlen. pose proof (length_filter P l). simpl in Hlen. lia.
    + by intros [? _]%Forall_cons.
Qed.

(** When every update is well formed, [update_multiple_contents] hands the
    whole list to [batch_update_blocks] in one call, with chunk size 50, and
    does nothing else.  An exception of that call becomes a failure with its
    message; otherwise the results are returned as they came, success is
    reported only if there are at least as many results as updates, and,
    when there is one result per update, exactly when every one of them
    succeeded. *)
Theorem update_multiple_contents_submits_all_updates_at_once {world}
    (api : UpdateApi world) (updates : list update) (w : world) :
  updates <> [] ->
  Forall well_formed_update updates ->
  let run := update_multiple_contents api (UpdatesList updates) w in
  exists o,
    (o, run.1.2) = batch_update_blocks api updates 50 w
    /\ run.2 = [EvBatchUpdate updates 50 o]
    /\ match o with
       | inl e => run.1.1 = updates_failure (exn_str e)
       | inr results =>
           run.1.1 !! "results" = Some (UResults results)
           /\ (run.1.1 !! "success" = Some (UBool true) ->
               (length updates <= length results)%nat)
           /\ (length results = length updates ->
               (run.1.1 !! "success" = Some (UBool true)
                <-> Forall (fun r => result_succeeded r = true) results))
       end.
Proof.
  intros Hnonempty Hall. cbv zeta.
  pose proof (validate_updates_spec updates 0) as Hspec.
  unfold update_multiple_contents.
  destruct updates as [ | u0 rest]; [done | ].
  destruct (validate_updates 0 (u0 :: rest)) as [error | ].
  { destruct Hspec as (n & u & _ & Hlookup & Hnot & _). exfalso. apply Hnot.
    by apply (proj1 (Forall_lookup _ _) Hall n u). }
  destruct (batch_update_blocks api (u0 :: rest) 50 w) as [[e | results] w1]; simpl.
  - by exists (inl e).
  - exists (inr results). split; [reflexivity | ]. split; [reflexivity | ].
    rewrite lookup_insert_ne, lookup_insert_eq by done.
    split; [reflexivity | ].
    rewrite lookup_insert_eq.
    pose proof (length_filter (fun r => result_succeeded r = true) results) as Hle.
    split.
    + intros [= Hsuccess]. apply bool_decide_eq_true in Hsuccess.
      rewrite <- Hsuccess. exact Hle.
    + intros Hlen. split.
      * intros [= Hsuccess]. apply bool_decide_eq_true in Hsuccess.
        apply (proj1 (length_filter_all (fun r => result_succeeded r = true) results)).
        rewrite Hlen. exact Hsuccess.
      * intros Hsuccess.
        apply (proj2 (length_filter_all (fun r => result_succeeded r = true) results))
          in Hsuccess.
        do 2 f_equal. apply bool_decide_eq_true. rewrite Hsuccess. exact Hlen.
Qed.

Lemma update_multiple_contents_submits_all_updates_at_once_witness :
  exists o,
    (update_multiple_contents (update_script_api None)
       (UpdatesList [Update (Some (PStr "a")) (Some (PStr "x")) None]) tt).2
    = [EvBatchUpdate [Update (Some (PStr "a")) (Some (PStr "x")) None] 50 o].
Proof.
  destruct (update_multiple_contents_submits_all_updates_at_once
              (update_script_api None)
              [Update (Some (PStr "a")) (Some (PStr "x")) None] tt)
    as (o & _ & Htrace & _).
  - discriminate.
  - apply Forall_cons. split; [ | by apply Forall_nil].
    split; [by eexists | ]. split; [by left; eexists | intros p [=]].
  - by exists o.
Defined.

(** ** Validation and flattening together *)

(** The validation of [create_page] returns without an error exactly on the
    outlines in which every item, at every depth, is a dict whose text is a
    string, whose level, if present, is a non-negative integer, and whose
    children, if present, are a list. *)
Theorem validation_accepts_exactly_the_valid_outlines (items : list pyobj) :
  validate_items items (-1) = inr None <-> forallb valid_item items = true.
Proof. apply validate_items_valid. Qed.

Lemma flatten_spec_levels item :
  valid_item item = true ->
  forall parent_level, -1 <= parent_level ->
    Forall (fun it => 0 <= f_level it) (flatten_spec item parent_level).
Proof.
  induction item as [item IH] using item_ind. intros Hvalid parent_level Hpl.
  destruct item as [ | b | z | q | s | l | t l h c]; try discriminate.
  cbn [valid_item] in Hvalid.
  apply andb_true_iff in Hvalid as [Hvalid Hchildren].
  apply andb_true_iff in Hvalid as [_ Hlevel].
  assert (Hdepth : 0 <= default (parent_level + 1) (l ≫= as_int)).
  { destruct l as [v | ]; simpl in *; [ | lia].
    destruct (as_int v); simpl; [lia | discriminate]. }
  cbn [flatten_spec]. constructor; [exact Hdepth | ].
  destruct c as [[ | b | z | q | s | children | t' l' h' c'] | ];
    try discriminate; try constructor.
  specialize (IH _ _ _ _ eq_refl).
  induction children as [ | child rest IHrest]; [constructor | ].
  simpl in Hchildren. apply andb_true_iff in Hchildren as [Hchild Hrest].
  apply Forall_cons in IH as [IHchild IH].
  simpl. apply Forall_app. split.
  - apply IHchild; [exact Hchild | lia].
  - by apply IHrest.
Qed.

(** What passes the validation of [create_page] is flattened without an
    exception, into the pre-order sequence of its items, each at its explicit
    level or else one below its parent, and no item ends up at a negative
    level. *)
Theorem validated_content_flattens_in_preorder (items : list pyobj) :
  validate_items items (-1) = inr None ->
  exists flattened,
    flatten_content items (-1) [] = inr flattened
    /\ flattened = flat_map (fun item => flatten_spec item (-1)) items
    /\ Forall (fun it => 0 <= f_level it) flattened.
Proof.
  intros Hvalid. apply validate_items_valid in Hvalid.
  eexists. split; [by apply flatten_content_spec | ]. split; [reflexivity | ].
  apply Forall_forall. intros it Hin. simpl in Hin.
  apply list_elem_of_In, in_flat_map in Hin as (item & Hitem & Hin).
  apply list_elem_of_In in Hin.
  assert (Hitem' : valid_item item = true).
  { rewrite forallb_forall in Hvalid. by apply Hvalid. }
  pose proof (flatten_spec_levels item Hitem' (-1) ltac:(lia)) as Hlevels.
  rewrite Forall_forall in Hlevels. by apply Hlevels.
Qed.

Lemma validated_content_flattens_in_preorder_witness :
  exists flattened,
    flatten_content outline_ABCD (-1) [] = inr flattened
    /\ Forall (fun it => 0 <= f_level it) flattened.
Proof.
  destruct (validated_content_flattens_in_preorder outline_ABCD eq_refl)
    as (flattened & Hflat & _ & Hlevels).
  by exists flattened.
Defined.

(** ** The parent block of create_outline *)












(** ** The parent block of import_markdown *)

Lemma synchronize_import_root {world} (api : Api world) order root items w :
  Forall (fun it => 0 <= f_level it) items ->
  Forall (Forall (fun a => a_parent_uid a = root))
         (batches (trace_of (synchronize api ImportMarkdown order root items w))).
Proof.
  intros Hitems.
  pose proof (process_levels_import_root api order (group_by_level items) root _
                (sorted_keys_nonnegative items Hitems) [] w) as Hroot.
  unfold synchronize, bind, ret.
  destruct (process_levels _ _ _ _ _ _ _ _) as [[[ex | state] w'] tr];
    unfold trace_of in *; simpl in *; [exact Hroot | ].
  by rewrite app_nil_r.
Qed.

(** "Determine parent block" of [import_markdown] submits no batch, and a
    result it returns early is a failure. *)
Lemma import_parent_run {world} (api : Api world) target parent_uid parent_string w :
  batches (trace_of (import_parent api target parent_uid parent_string w)) = []
  /\ forall early,
       result_of (import_parent api target parent_uid parent_string w) = inr (inl early) ->
       success_of early = false.
Proof.
  unfold import_parent.
  destruct (given parent_uid) as [p | ].
  - rewrite bind_run. unfold call.
    destruct (execute_query api _ w) as [[ex | [ | ]] w1];
      (split; [reflexivity | by intros early [= <-]]).
  - destruct (given parent_string) as [s | ]; [ | by split].
    rewrite bind_run. unfold call.
    destruct (find_block_uid api s w) as [[ex | [found | ]] w1]; try (by split).
    rewrite bind_run. unfold uuid. destruct (uuid4_9 api w1) as [u w2].
    rewrite bind_run. unfold write, call.
    destruct (execute_write_action api _ w2) as [[ex | r] w3]; [by split | ].
    rewrite bind_run. unfold sleep, emit. rewrite bind_run.
    by destruct (find_block_uid api s w3) as [[ex | found] w4].
Qed.

Lemma import_except_run {world} (e : exn) (w : world) :
  exists t, import_except e w = (inr (failure (exn_str e)), w, t) /\ batches t = [].
Proof.
  unfold import_except. destruct (named_exception e); by eexists.
Qed.

(** [import_markdown] tells the caller where the blocks went: when the
    parser yields no negative level, every block of every batch is created
    directly under one block, and a result that reports success names that
    block as ["parent_uid"].  The nesting of the markdown is not reflected
    in the parents. *)
Theorem import_markdown_reports_the_parent_of_every_block {world} (api : Api world)
    (content : string) (page_uid page_title parent_uid parent_string : option string)
    (order : string) (w : world) :
  (forall items,
     map_exn to_flat (parse_markdown_list api (convert_to_roam_markdown api content))
     = inr items ->
     Forall (fun it => 0 <= f_level it) items) ->
  let run := import_markdown api content page_uid page_title parent_uid parent_string
               order w in
  exists parent,
    Forall (Forall (fun a => a_parent_uid a = parent)) (batches (trace_of run))
    /\ forall r, result_of run = inr r -> success_of r = true ->
                 r !! "parent_uid" = Some (RStr parent).
Proof.
  intros Hlevels. cbv zeta. unfold import_markdown.
  assert (Hfailed : forall (error : string) (r : gmap string rval),
            @inr exn _ (failure error) = inr r -> success_of r = true ->
            r !! "parent_uid" = Some (RStr "")).
  { intros error r [= <-] Hs. by rewrite success_of_failure in Hs. }
  destruct (String.eqb content "");
    [exists ""; split; [constructor | apply Hfailed] | ].
  destruct (negb _); [exists ""; split; [constructor | apply Hfailed] | ].
  rewrite bind_run. unfold session, call.
  destruct (get_session_and_headers api w) as [[ex | []] w1];
    [exists ""; split; [constructor | by intros r [=]] | ].
  unfold try_except. rewrite bind_run.
  pose proof (target_page_trace api page_uid page_title w1) as Hpage.
  destruct (target_page api page_uid page_title w1) as [[[ex | target] w2] tp].
  { unfold trace_of in Hpage. simpl in Hpage.
    destruct (page_events_only tp Hpage) as (Hb & _).
    destruct (import_except_run ex w2) as (t & -> & Ht).
    exists "". unfold trace_of, result_of. simpl.
    rewrite batches_app, Hb, Ht. split; [constructor | apply Hfailed]. }
  unfold trace_of in Hpage. simpl in Hpage.
  destruct (page_events_only tp Hpage) as (Hb & _).
  rewrite bind_run.
  destruct (import_parent_run api target parent_uid parent_string w2)
    as [Hparent Hearly].
  destruct (import_parent api target parent_uid parent_string w2)
    as [[[ex | [early | parent]] w3] t3]; unfold trace_of, result_of in Hparent, Hearly;
    simpl in Hparent, Hearly.
  - destruct (import_except_run ex w3) as (t & -> & Ht).
    exists "". unfold trace_of, result_of. simpl.
    rewrite !batches_app, Hb, Hparent, Ht. split; [constructor | apply Hfailed].
  - exists "". unfold trace_of, result_of. simpl.
    rewrite !batches_app, Hb, Hparent. split; [constructor | ].
    intros r [= <-] Hs. rewrite (Hearly early eq_refl) in Hs. discriminate.
  - exists parent.
    destruct (parse_markdown_list api (convert_to_roam_markdown api content))
      as [ | item parsed] eqn:Hparsed.
    { unfold trace_of, result_of. simpl.
      rewrite !batches_app, Hb, Hparent. split; [constructor | ].
      intros r [= <-] Hs. by rewrite success_of_failure in Hs. }
    rewrite bind_run. unfold lift.
    destruct (map_exn to_flat (item :: parsed)) as [ex | items] eqn:Hitems.
    { simpl. destruct (import_except_run ex w3) as (t & -> & Ht).
      unfold trace_of, result_of. simpl.
      rewrite !batches_app, Hb, Hparent, Ht. split; [constructor | ].
      intros r [= <-] Hs. by rewrite success_of_failure in Hs. }
    simpl. rewrite bind_run.
    assert (Hsorted : Forall (fun it => 0 <= f_level it) (sort_by_level items)).
    { rewrite (proj1 (proj2 (sort_by_level_stable_sort items))). by apply Hlevels. }
    pose proof (synchronize_import_root api order parent (sort_by_level items) w3 Hsorted)
      as Hroot.
    destruct (synchronize api ImportMarkdown order parent (sort_by_level items) w3)
      as [[[ex | created] w4] t4]; unfold trace_of in Hroot; simpl in Hroot.
    + destruct (import_except_run ex w4) as (t & -> & Ht).
      unfold trace_of, result_of. simpl.
      rewrite !batches_app, Hb, Hparent, Ht, app_nil_r. split; [exact Hroot | ].
      intros r [= <-] Hs. by rewrite success_of_failure in Hs.
    + unfold trace_of, result_of. simpl.
      rewrite !batches_app, Hb, Hparent, app_nil_r. split; [exact Hroot | ].
      by intros r [= <-] _.
Qed.

Lemma import_markdown_reports_the_parent_of_every_block_witness :
  exists parent,
    Forall (Forall (fun a => a_parent_uid a = parent))
           (batches (trace_of (import_markdown (script_api [item "A" 0; item "B" 1])
                                 markdown_ABCD (Some "page") None None None "last"
                                 (Script ["a"; "b"] [])))).
Proof.
  destruct (import_markdown_reports_the_parent_of_every_block
              (script_api [item "A" 0; item "B" 1]) markdown_ABCD (Some "page") None
              None None "last" (Script ["a"; "b"] []))
    as (parent & Hparent & _).
  - intros items Hitems. vm_compute in Hitems. injection Hitems as <-.
    repeat constructor; simpl; lia.
  - by exists parent.
Defined.

(** ** Empty input *)

Lemma page_events_no_write (t : list event) :
  Forall (fun ev => match ev with
                    | EvFindOrCreatePage _ _ | EvGetDailyPage _ => True
                    | _ => False
                    end) t ->
  Forall (fun ev => is_write ev = false) t.
Proof. intros Hpage. eapply Forall_impl; [exact Hpage | ]. by intros []. Qed.

(** "Determine parent block" of [import_markdown] writes only for a
    [parent_string] given without a [parent_uid]. *)
Lemma import_parent_no_write {world} (api : Api world) target parent_uid parent_string w :
  given parent_uid <> None \/ given parent_string = None ->
  Forall (fun ev => is_write ev = false)
         (trace_of (import_parent api target parent_uid parent_string w)).
Proof.
  intros Hgiven. unfold import_parent.
  destruct (given parent_uid) as [p | ].
  - rewrite bind_run. unfold call.
    destruct (execute_query api _ w) as [[ex | [ | ]] w1]; by repeat constructor.
  - destruct Hgiven as [Hgiven | ->]; [done | constructor].
Qed.

Lemma import_except_quiet {world} (e : exn) (w : world) :
  exists t,
    import_except e w = (inr (failure (exn_str e)), w, t)
    /\ batches t = [] /\ Forall (fun ev => is_write ev = false) t.
Proof.
  unfold import_except. destruct (named_exception e); eexists;
    (split; [reflexivity | ]); split; try reflexivity; by repeat constructor.
Qed.

(** C8, as the code has it.  Of the entry points only
    [create_nested_blocks] answers an empty input with
    [{"success": True, "created_uids": []}]; [create_outline] rejects an
    empty outline, and [create_block] and [import_markdown] reject empty
    content, with a failure result; all four do so without a single call to
    the store.  Content that is not empty but in which the parser finds no
    item is rejected later: [create_block] (content of several lines) and
    [import_markdown] never report success on it; [create_block] writes
    nothing and [import_markdown] submits no batch, and writes nothing
    unless a [parent_string] is given without a [parent_uid], in which case
    the parent block can have been created by then.  [create_page] with an
    empty content list creates no block and returns a result without
    ["created_uids"]; once the session is set up it finds or creates the
    page, as its only call, and returns a success with the uid of the page,
    or a failure if that call raises. *)
Theorem C8_empty_input {world} (api : Api world) (w : world)
    (parent_uid title content : string) (a b c d : option string) (order : string) :
  create_nested_blocks api (PList []) parent_uid w = (inr (nested_success []), w, [])
  /\ create_outline api (PList []) a b w
     = (inr (failure "Outline cannot be empty"), w, [])
  /\ create_block api "" a b w = (inr (failure "Content is required"), w, [])
  /\ import_markdown api "" a b c d order w
     = (inr (failure "Content cannot be empty"), w, [])
  /\ (contains_newline content = true ->
      parse_markdown_list api (convert_to_roam_markdown api content) = [] ->
      let run := create_block api content a b w in
      Forall (fun ev => is_write ev = false) (trace_of run)
      /\ forall r, result_of run = inr r -> success_of r = false)
  /\ (parse_markdown_list api (convert_to_roam_markdown api content) = [] ->
      let run := import_markdown api content a b c d order w in
      batches (trace_of run) = []
      /\ (forall r, result_of run = inr r -> success_of r = false)
      /\ (given c <> None \/ given d = None ->
          Forall (fun ev => is_write ev = false) (trace_of run)))
  /\ (let run := import_markdown (script_api []) "- A" None None None (Some "Inbox")
                   "last" (Script ["p"] []) in
      singles (trace_of run) = [block "daily" "Inbox" "p"]
      /\ result_of run = inr (failure "Failed to parse markdown content"))
  /\ (let run := create_page api title (PList []) w in
      Forall (fun ev => is_write ev = false) (trace_of run)
      /\ returned run "created_uids" = None
      /\ (title <> "" ->
          (get_session_and_headers api w).1 = inr () ->
          exists o,
            trace_of run = [EvSession (inr ()); EvFindOrCreatePage title o]
            /\ result_of run
               = inr match o with
                     | inr page_uid =>
                         <["success" := RBool true]>
                           (<["uid" := RStr page_uid]>
                              (<["page_url" := RStr (page_url api page_uid)]> ∅))
                     | inl ex => failure (exn_str ex)
                     end)).
Proof.
  split; [reflexivity | ]. split; [reflexivity | ]. split; [reflexivity | ].
  split; [reflexivity | ]. split; [ | split; [ | split; [by repeat split | ]]].
  - intros Hlines Hparsed. cbv zeta. unfold create_block.
    destruct (String.eqb_spec content "") as [-> | _]; [discriminate | ].
    rewrite bind_run. unfold session, call.
    destruct (get_session_and_headers api w) as [[ex | []] w1];
      [split; [by repeat constructor | by intros r [=]] | ].
    unfold try_except. rewrite bind_run.
    pose proof (target_page_trace api a b w1) as Hpage.
    apply page_events_no_write in Hpage.
    destruct (target_page api a b w1) as [[[ex | target] w2] tp];
      unfold trace_of, result_of in *; simpl in *.
    + rewrite app_nil_r. split; [by constructor | ].
      intros r [= <-]. apply success_of_failure.
    + rewrite Hlines, Hparsed. simpl. rewrite app_nil_r. split; [by constructor | ].
      intros r [= <-]. apply success_of_failure.
  - intros Hparsed. cbv zeta. unfold import_markdown.
    assert (Hquiet : forall (error : string) (w' : world),
              let run : (exn + gmap string rval) * world * list event :=
                (inr (failure error), w', []) in
              batches (trace_of run) = []
              /\ (forall r, result_of run = inr r -> success_of r = false)
              /\ (given c <> None \/ given d = None ->
                  Forall (fun ev => is_write ev = false) (trace_of run))).
    { intros error w'. split; [reflexivity | ]. split; [ | constructor].
      intros r [= <-]. apply success_of_failure. }
    destruct (String.eqb content ""); [apply Hquiet | ].
    destruct (negb _); [apply Hquiet | ].
    rewrite bind_run. unfold session, call.
    destruct (get_session_and_headers api w) as [[ex | []] w1].
    { split; [reflexivity | ]. split; [by intros r [=] | by repeat constructor]. }
    unfold try_except. rewrite bind_run.
    pose proof (target_page_trace api a b w1) as Hpage.
    destruct (page_events_only _ Hpage) as (Hb & _).
    apply page_events_no_write in Hpage.
    destruct (target_page api a b w1) as [[[ex | target] w2] tp];
      unfold trace_of in Hb, Hpage; simpl in Hb, Hpage.
    { destruct (import_except_quiet ex w2) as (t & -> & Ht & Hquiet').
      unfold trace_of, result_of. simpl. rewrite batches_app, Hb, Ht.
      split; [reflexivity | ]. split; [intros r [= <-]; apply success_of_failure | ].
      intros _. constructor; [reflexivity | ]. apply Forall_app. by split. }
    rewrite bind_run.
    destruct (import_parent_run api target c d w2) as [Hparent Hearly].
    pose proof (import_parent_no_write api target c d w2) as Hnowrite.
    destruct (import_parent api target c d w2) as [[[ex | [early | parent]] w3] t3];
      unfold trace_of, result_of in Hparent, Hearly, Hnowrite;
      simpl in Hparent, Hearly, Hnowrite.
    + destruct (import_except_quiet ex w3) as (t & -> & Ht & Hquiet').
      unfold trace_of, result_of. simpl. rewrite !batches_app, Hb, Hparent, Ht.
      split; [reflexivity | ]. split; [intros r [= <-]; apply success_of_failure | ].
      intros Hgiven. constructor; [reflexivity | ].
      repeat (apply Forall_app; split); [exact Hpage | by apply Hnowrite | exact Hquiet'].
    + unfold trace_of, result_of. simpl. rewrite !batches_app, Hb, Hparent.
      split; [reflexivity | ]. split; [intros r [= <-]; by apply Hearly | ].
      intros Hgiven. constructor; [reflexivity | ].
      repeat (apply Forall_app; split); [exact Hpage | by apply Hnowrite | constructor].
    + rewrite Hparsed. unfold trace_of, result_of. simpl.
      rewrite !batches_app, Hb, Hparent.
      split; [reflexivity | ]. split; [intros r [= <-]; apply success_of_failure | ].
      intros Hgiven. constructor; [reflexivity | ].
      repeat (apply Forall_app; split); [exact Hpage | by apply Hnowrite | constructor].
  - cbv zeta. unfold create_page, returned, result_of, trace_of.
    destruct (String.eqb_spec title "") as [-> | Htitle];
      [split; [constructor | split; [reflexivity | done]] | ].
    unfold bind, try_except, session, call, except_failure, ret. simpl.
    destruct (get_session_and_headers api w) as [[ex | []] w1]; simpl.
    { split; [by repeat constructor | ]. split; [reflexivity | ]. by intros _ [=]. }
    destruct (find_or_create_page api title w1) as [[ex | page_uid] w2]; simpl;
      (split; [by repeat constructor | ]); (split; [reflexivity | ]);
      intros _ _; by eexists.
Qed.

(** C8 as stated fails: [create_outline] answers the empty outline with a
    failure and no ["created_uids"], and so do [create_block] and
    [import_markdown] when the parser finds no item. *)
Lemma C8_counterexample :
  returned (create_outline (script_api []) (PList []) None None (Script [] []))
    "success" = Some (RBool false)
  /\ returned (create_outline (script_api []) (PList []) None None (Script [] []))
       "created_uids" = None
  /\ returned (create_block (script_api []) markdown_ABCD None None (Script [] []))
       "success" = Some (RBool false)
  /\ returned (import_markdown (script_api []) markdown_ABCD None None None None "last"
                 (Script [] []))
       "success" = Some (RBool false).
Proof. repeat split; reflexivity. Qed.
